(** * podman-wsl-service: the proxy's path translation, body rewriting,
      byte forwarding and connection accounting, checked against its
      specification.

    The repository holds a Go implementation (cmd/podman-wsl-service/proxy.go,
    main.go, pkg/proxy/rawproxy.go, pkg/wslpath/wslpath.go), an earlier
    revision of proxy.go, and a Node implementation (index.mjs).  Each is
    embedded below under a module of its own, function by function, with the
    operating system and the standard libraries' I/O taken as parameters. *)

From stdpp Require Import gmap strings list fin_maps pretty.
From Stdlib Require Import String Ascii ZArith Lia.

Set Warnings "-register-all".
Local Open Scope Z_scope.

(** ** Go values shared by all packages *)

(** A non-nil Go [error].  A result of Go type [error] is an [option error],
    [None] standing for [nil].  [OpError] and [SyscallError] wrap an inner
    error, which [errors.Is] unwraps. *)
Inductive error : Type :=
| ErrorString (msg : string)
| ExitError (code : Z)
| Errno (e : Z)
| EOF
| UnmarshalTypeError (value : string)
| SyscallError (call : string) (err : error)
| OpError (op : string) (err : error).

(** ** Package strings (the functions the program calls) *)
Module Strings.

(** [strings.HasPrefix(s, prefix)]. *)
Definition HasPrefix (s pre : string) : bool := String.prefix pre s.

Fixpoint IndexByte (s : string) (c : ascii) : bool :=
  match s with
  | EmptyString => false
  | String c' s' => if Ascii.eqb c' c then true else IndexByte s' c
  end.

(** [strings.TrimLeft(s, cutset)]: every leading byte of [s] that occurs in
    [cutset] is removed.  (The program's cutset is the ASCII string "/".) *)
Fixpoint TrimLeft (s cutset : string) : string :=
  match s with
  | EmptyString => EmptyString
  | String c s' => if IndexByte cutset c then TrimLeft s' cutset else s
  end.

(** [s[n:]] for [n <= len(s)]. *)
Fixpoint slice_from (n : nat) (s : string) : string :=
  match n, s with
  | O, _ => s
  | S n', String _ s' => slice_from n' s'
  | S _, EmptyString => EmptyString
  end.

(** [strings.TrimPrefix(s, prefix)]: [prefix] is removed once, if present. *)
Definition TrimPrefix (s pre : string) : string :=
  if HasPrefix s pre then slice_from (String.length pre) s else s.

(** [strings.Split(s, sep)] for a one-byte separator: the pieces between
    the separators, never an empty list. *)
Fixpoint Split (s : string) (sep : ascii) : list string :=
  match s with
  | EmptyString => [EmptyString]
  | String c s' =>
      if Ascii.eqb c sep then EmptyString :: Split s' sep
      else match Split s' sep with
           | [] => [String c EmptyString]
           | p :: ps => String c p :: ps
           end
  end.

(** [strings.Join(elems, sep)]. *)
Fixpoint Join (elems : list string) (sep : string) : string :=
  match elems with
  | [] => EmptyString
  | [e] => e
  | e :: es => e +:+ sep +:+ Join es sep
  end.

(** [strings.TrimRight(s, cutset)]: every trailing byte of [s] that occurs
    in [cutset] is removed. *)
Fixpoint TrimRight (s cutset : string) : string :=
  match s with
  | EmptyString => EmptyString
  | String c s' =>
      match TrimRight s' cutset with
      | EmptyString =>
          if IndexByte cutset c then EmptyString else String c EmptyString
      | t => String c t
      end
  end.

(** [strings.Trim(s, cutset)], for an ASCII cutset: the right end is trimmed,
    then the left. *)
Definition Trim (s cutset : string) : string :=
  TrimLeft (TrimRight s cutset) cutset.

End Strings.

(** ** Package path *)
Module Path.

(** One step of [path.Clean] on a path element, [stack] holding the
    elements kept so far, last one first.  Empty and "." elements are
    dropped; ".." removes the element before it, is dropped at the root of
    a rooted path, and is kept at the start of a relative one. *)
Definition clean_step (rooted : bool) (stack : list string) (e : string)
  : list string :=
  if decide (e = EmptyString) then stack
  else if decide (e = ".") then stack
  else if decide (e = "..") then
    match stack with
    | top :: rest =>
        if negb rooted && bool_decide (top = "..") then e :: stack else rest
    | [] => if rooted then [] else [e]
    end
  else e :: stack.

(** [path.Clean(p)], by the rules of its documentation: slashes are not
    repeated, "." elements and inner ".." elements (with the element before
    them) are removed, ".." elements at the root are removed, and an empty
    result is ".". *)
Definition Clean (p : string) : string :=
  if decide (p = EmptyString) then "."
  else
    let rooted := Strings.HasPrefix p "/" in
    let kept := rev (fold_left (clean_step rooted) (Strings.Split p "/") []) in
    let out := Strings.Join kept "/" in
    if rooted then "/" +:+ out
    else if decide (out = EmptyString) then "." else out.

(** The buffer [path.Join] builds before cleaning: the non-empty elements
    separated by slashes. *)
Fixpoint join_buf (buf : string) (elem : list string) : string :=
  match elem with
  | [] => buf
  | e :: es =>
      if bool_decide (buf = EmptyString) && bool_decide (e = EmptyString)
      then join_buf buf es
      else join_buf ((if bool_decide (buf = EmptyString) then buf
                      else buf +:+ "/") +:+ e) es
  end.

(** [path.Join(elem...)]. *)
Definition Join (elem : list string) : string :=
  if forallb (fun e => bool_decide (e = EmptyString)) elem then EmptyString
  else Clean (join_buf EmptyString elem).

End Path.

(** ** pkg/wslpath/wslpath.go *)
Module Wslpath.
Section Exec.

(** [exec.Command(name, args...).Output()]: the standard output of the
    external command and its error. *)
Variable Output : string -> list string -> string * option error.

Definition runCommand (name : string) (args : list string)
  : string * option error :=
  let '(out, err) := Output name args in
  match err with
  | Some e => (EmptyString, Some e)
  | None => (out, None)
  end.

Definition FromWindows (windowsPath : string) :=
  runCommand "wslpath" ["-au"; windowsPath].

Definition ToWindows (wslPath : string) :=
  runCommand "wslpath" ["-aw"; wslPath].

Definition ToWindowsForwardSlashes (wslPath : string) :=
  runCommand "wslpath" ["-am"; wslPath].

End Exec.
End Wslpath.

(** ** encoding/json: what the decoder stores in an [interface{}] *)

(** The syntax of a JSON text. *)
Inductive json : Type :=
| JNull
| JBool (b : bool)
| JNumber (lit : string)
| JString (s : string)
| JArray (elems : list json)
| JObject (members : list (string * json)).

(** A Go value held in an [interface{}], by dynamic type.  [encoding/json]
    stores a nil interface, a [bool], a [json.Number] (its literal, under
    [UseNumber]), a [string], a [[]interface{}] that is not nil, or a
    [map[string]interface{}]; the program itself stores a [[]interface{}]
    that may be nil, and its type assertions name [[]string] and
    [[]map[string]string]. *)
Inductive any : Type :=
| VNil
| VBool (b : bool)
| VNumber (lit : string)
| VString (s : string)
| VSlice (l : list any)                          (* []interface{} *)
| VNilSlice                                      (* []interface{}(nil) *)
| VMap (m : gmap string any)                     (* map[string]interface{} *)
| VStringSlice (l : list string)                 (* []string *)
| VStringMapSlice (l : list (gmap string string)) (* []map[string]string *).

(** The value the decoder stores for a JSON text decoded into an
    [interface{}]; in an object a later duplicate key overwrites an earlier
    one. *)
Fixpoint decoded (j : json) : any :=
  match j with
  | JNull => VNil
  | JBool b => VBool b
  | JNumber lit => VNumber lit
  | JString s => VString s
  | JArray elems => VSlice (map decoded elems)
  | JObject members =>
      VMap (fold_left (fun m kv => <[fst kv := decoded (snd kv)]> m) members ∅)
  end.

(** The type assertions [v.(map[string]interface{})], [v.([]interface{})],
    [v.([]map[string]string)] and [v.([]string)] on the result of a map index
    ([None] for a missing key, which reads as a nil interface): the value
    and [ok]. *)
Definition assert_map (v : option any) : option (gmap string any) :=
  match v with
  | Some (VMap m) => Some m
  | _ => None
  end.

Definition assert_slice (v : option any) : option (list any) :=
  match v with
  | Some (VSlice l) => Some l
  | Some VNilSlice => Some []
  | _ => None
  end.

Definition assert_map_slice (v : option any) : option (list (gmap string string)) :=
  match v with
  | Some (VStringMapSlice l) => Some l
  | _ => None
  end.

Definition assert_string_slice (v : option any) : option (list string) :=
  match v with
  | Some (VStringSlice l) => Some l
  | _ => None
  end.

(** A slice built with [var s []interface{}] and [append], as a value: nil
    until the first [append]. *)
Definition appended (l : list any) : any :=
  match l with
  | [] => VNilSlice
  | _ => VSlice l
  end.

(** The map the decoder leaves in [bodyObj := map[string]interface{}{}] for a
    JSON object with these members. *)
Definition decoded_object (members : list (string * json)) : gmap string any :=
  fold_left (fun m kv => <[fst kv := decoded (snd kv)]> m) members ∅.

(** A variable of Go type [map[string]interface{}]: the nil map, or a map.
    [json.Marshal] tells them apart (it encodes the nil map as null); an
    index expression does not, a nil map reading as an empty one. *)
Inductive gomap : Type :=
| NilMap
| GoMap (m : gmap string any).

Definition entries (b : gomap) : gmap string any :=
  match b with
  | NilMap => ∅
  | GoMap m => m
  end.

(** A call [f(b)] of a function that reads its map argument and assigns to
    the maps held in it, never to the argument itself: a nil map is still
    nil after the call. *)
Definition on_map (f : gmap string any -> gmap string any * option error)
    (b : gomap) : gomap * option error :=
  match b with
  | NilMap => (NilMap, snd (f ∅))
  | GoMap m => let '(m', err) := f m in (GoMap m', err)
  end.

(** ** Package regexp, for the one expression the program compiles *)
Module Regexp.

Inductive regex : Type :=
| Lit (c : ascii)
| Digit                      (* \d *)
| AnyNotNL                   (* . *)
| Seq (r1 r2 : regex)
| Quest (r : regex)          (* r? *)
| Plus (r : regex)           (* r+ *).

Definition byte_in (lo hi : nat) (c : ascii) : bool :=
  (lo <=? nat_of_ascii c)%nat && (nat_of_ascii c <=? hi)%nat.

(** The number of bytes of the first UTF-8 encoded rune of [s]; an invalid
    or truncated encoding is one byte wide. *)
Definition rune_width (s : string) : nat :=
  match s with
  | EmptyString => 0%nat
  | String b0 t =>
      if byte_in 0 127 b0 then 1%nat
      else if byte_in 194 223 b0 then
        match t with
        | String b1 _ => if byte_in 128 191 b1 then 2%nat else 1%nat
        | _ => 1%nat
        end
      else if byte_in 224 239 b0 then
        match t with
        | String b1 (String b2 _) =>
            let lo := if byte_in 224 224 b0 then 160%nat else 128%nat in
            let hi := if byte_in 237 237 b0 then 159%nat else 191%nat in
            if byte_in lo hi b1 && byte_in 128 191 b2 then 3%nat else 1%nat
        | _ => 1%nat
        end
      else if byte_in 240 244 b0 then
        match t with
        | String b1 (String b2 (String b3 _)) =>
            let lo := if byte_in 240 240 b0 then 144%nat else 128%nat in
            let hi := if byte_in 244 244 b0 then 143%nat else 191%nat in
            if byte_in lo hi b1 && byte_in 128 191 b2 && byte_in 128 191 b3
            then 4%nat else 1%nat
        | _ => 1%nat
        end
      else 1%nat
  end.

(** Backtracking match of [r] at the start of [s], then of the continuation
    [k] on what is left: the first success in the order of preference
    (greedy operators try the longer match first), which is the match Go's
    leftmost-first semantics selects. *)
Fixpoint run (r : regex) (s : string) (k : string -> option string)
  : option string :=
  match r with
  | Lit c =>
      match s with
      | String d s' => if Ascii.eqb c d then k s' else None
      | EmptyString => None
      end
  | Digit =>
      match s with
      | String d s' => if byte_in 48 57 d then k s' else None
      | EmptyString => None
      end
  | AnyNotNL =>
      match s with
      | String d _ =>
          if byte_in 10 10 d then None
          else k (Strings.slice_from (rune_width s) s)
      | EmptyString => None
      end
  | Seq r1 r2 => run r1 s (fun s' => run r2 s' k)
  | Quest r1 =>
      match run r1 s k with
      | Some rest => Some rest
      | None => k s
      end
  | Plus r1 =>
      (fix loop (fuel : nat) (s : string) : option string :=
         match fuel with
         | O => None
         | S fuel' =>
             run r1 s (fun s' =>
               match loop fuel' s' with
               | Some rest => Some rest
               | None => k s'
               end)
         end) (S (String.length s)) s
  end.

(** For an expression anchored with [^]: what follows the match, if the
    expression matches at the start of [s]. *)
Definition match_start (r : regex) (s : string) : option string :=
  run r s Some.

Definition MatchString (r : regex) (s : string) : bool :=
  bool_decide (is_Some (match_start r s)).

(** [ReplaceAllString(s, repl)] for an expression anchored with [^], which
    matches at most once, at the start. *)
Definition ReplaceAllString (r : regex) (s repl : string) : string :=
  match match_start r s with
  | Some rest => repl +:+ rest
  | None => s
  end.

(** The loop [run] makes for [Plus r], with the number of turns left. *)
Fixpoint plus_loop (r : regex) (k : string -> option string) (fuel : nat)
    (s : string) : option string :=
  match fuel with
  | O => None
  | S fuel' =>
      run r s (fun s' =>
        match plus_loop r k fuel' s' with
        | Some rest => Some rest
        | None => k s'
        end)
  end.

End Regexp.

(** ** cmd/podman-wsl-service/proxy.go *)
Module Proxy.

Record podmanProxy : Type := {
  sharedRoot : string;
  upstream : string;
  downstream : string
}.

Definition NewPodmanProxy (sharedRoot upstreamSocket downstreamSocket : string)
  : podmanProxy :=
  {| sharedRoot := sharedRoot;
     upstream := upstreamSocket;
     downstream := downstreamSocket |}.

(** [m[key]] on a [map[string]string]: a missing key reads as the empty
    string. *)
Definition index (m : gmap string string) (key : string) : string :=
  default EmptyString (m !! key).

(** The error [translateHostPath] makes with [fmt.Errorf] for a path that
    is not absolute. *)
Definition BadPathFormat (hostPath : string) : error :=
  ErrorString
    ("PODMAN WSL SERVICE BUG: unexpected path format, expected absolute path: '"
       +:+ hostPath +:+ "'").

(** ** The start-up probe *)

(** What [p.client.Get] returns: an error, or a response with its status
    and what closing its body will return. *)
Record Response : Type := {
  StatusCode : Z;
  BodyClose : option error
}.

Inductive get_result : Type :=
| GetFailed (err : error)
| GetResponse (resp : Response).

Definition StatusOK : Z := 200.

Section Upstream.

Variable client_Get : string -> get_result.

Definition TestUpstreamSocket (p : podmanProxy) : option error :=
  match client_Get "http://d/_ping" with
  | GetFailed err => Some err
  | GetResponse resp =>
      let err : option error := None in
      if decide (StatusCode resp ≠ StatusOK) then err
      else
        let err := BodyClose resp in
        match err with
        | Some e => Some e
        | None => None
        end
  end.

End Upstream.

(** ** Path translation and body rewriting *)
Section Translate.

Variable Output : string -> list string -> string * option error.

Definition translateHostPath (p : podmanProxy) (hostPath : string)
  : string * option error :=
  if Strings.HasPrefix hostPath "/mnt/wsl/" then (hostPath, None)
  else
    let '(winPath, err) := Wslpath.ToWindows Output hostPath in
    match err with
    | Some e => (EmptyString, Some e)
    | None =>
        if Strings.HasPrefix winPath "\\wsl.localhost\" then
          if negb (Strings.HasPrefix hostPath "/")
          then (EmptyString, Some (BadPathFormat hostPath))
          else (Path.Join [sharedRoot p; Strings.TrimLeft hostPath "/"], None)
        else (winPath, None)
    end.

(** The loop of [mangleLibpodVolumes] over [mounts]: the maps are updated
    in place, so on an error the mounts already visited keep their new
    source and the rest are as they were. *)
Fixpoint mangleMounts (p : podmanProxy) (mounts : list (gmap string string))
  : list (gmap string string) * option error :=
  match mounts with
  | [] => ([], None)
  | mount :: rest =>
      if decide (index mount "type" ≠ "bind") then
        let '(rest', err) := mangleMounts p rest in (mount :: rest', err)
      else
        let hostPath := index mount "source" in
        let '(newHostPath, err) := translateHostPath p hostPath in
        match err with
        | Some e => (mount :: rest, Some e)
        | None =>
            let '(rest', err') := mangleMounts p rest in
            (<["source" := newHostPath]> mount :: rest', err')
        end
  end.

(** [mangleLibpodVolumes(body)]: the body after the call and the error
    returned. *)
Definition mangleLibpodVolumes (p : podmanProxy) (body : gmap string any)
  : gmap string any * option error :=
  match assert_map_slice (body !! "mounts") with
  | None => (body, None)
  | Some mounts =>
      let '(mounts', err) := mangleMounts p mounts in
      (<["mounts" := VStringMapSlice mounts']> body, err)
  end.

(** The loop of [mangleDockerVolumes] over [binds], appending to
    [newBinds].  The [bind] that [if bind, ok := bind.(string); ok] declares
    is in scope in the [else] branch too, where it hides the loop variable:
    after a failed assertion it is the empty string, and that is what the
    branch appends. *)
Fixpoint mangleBinds (p : podmanProxy) (binds newBinds : list any)
  : list any * option error :=
  match binds with
  | [] => (newBinds, None)
  | VString bind :: rest =>
      let parts := Strings.Split bind ":" in
      let hostPath := default EmptyString (parts !! 0%nat) in
      let '(newHostPath, err) := translateHostPath p hostPath in
      match err with
      | Some e => (newBinds, Some e)
      | None =>
          let parts := <[0%nat := newHostPath]> parts in
          mangleBinds p rest (newBinds ++ [VString (Strings.Join parts ":")])
      end
  | _ :: rest =>
      let bind := EmptyString in
      mangleBinds p rest (newBinds ++ [VString bind])
  end.

(** [mangleDockerVolumes(body)]: [hostConfig] is the map held in [body],
    so the assignment to [hostConfig["Binds"]] is seen through
    [body["HostConfig"]]. *)
Definition mangleDockerVolumes (p : podmanProxy) (body : gmap string any)
  : gmap string any * option error :=
  match assert_map (body !! "HostConfig") with
  | None => (body, None)
  | Some hostConfig =>
      match assert_slice (hostConfig !! "Binds") with
      | None => (body, None)
      | Some binds =>
          let '(newBinds, err) := mangleBinds p binds [] in
          match err with
          | Some e => (body, Some e)
          | None =>
              (<["HostConfig" := VMap (<["Binds" := appended newBinds]> hostConfig)]>
                 body, None)
          end
      end
  end.

End Translate.

(** ** The request handler *)

(** [regexp.MustCompile(`^/v\d+.(?:\d\.?)+/`)]. *)
Definition versionRegex : Regexp.regex :=
  Regexp.Seq (Regexp.Lit "/")
    (Regexp.Seq (Regexp.Lit "v")
       (Regexp.Seq (Regexp.Plus Regexp.Digit)
          (Regexp.Seq Regexp.AnyNotNL
             (Regexp.Seq
                (Regexp.Plus
                   (Regexp.Seq Regexp.Digit (Regexp.Quest (Regexp.Lit "."))))
                (Regexp.Lit "/"))))).

(** The request as the handler reads it.  [Body] is the bytes [io.ReadAll]
    gets from [r.Body] and [BodyReadErr] the error it meets, if any. *)
Record Request : Type := {
  Method : string;
  URL_Path : string;
  Header : gmap string (list string);
  Body : string;
  BodyReadErr : option error;
  BodyCloseErr : option error;
  ContentLength : Z
}.

(** [h.Get(key)] for a key in canonical form: the first value, or "". *)
Definition Header_Get (h : gmap string (list string)) (key : string) : string :=
  match h !! key with
  | Some (v :: _) => v
  | _ => EmptyString
  end.

Definition Header_Set (h : gmap string (list string)) (key value : string)
  : gmap string (list string) :=
  <[key := [value]]> h.

(** What [ServeHTTP] does with a request, up to its call of
    [forwardRequest]: [Forwarded r] is the call [p.forwardRequest(w, r,
    logger)], whose own outcomes are those of [forwardRequest] below, and
    [HttpError] is [http.Error(w, err.Error(), code)] followed by a
    return. *)
Inductive handled : Type :=
| Forwarded (r : Request)
| HttpError (err : error) (code : Z).

Definition StatusBadRequest : Z := 400.
Definition StatusInternalServerError : Z := 500.

Section Handler.

Variable Output : string -> list string -> string * option error.
(** The JSON text at the start of the body, or the decoder's error. *)
Variable parse : string -> json + error.
(** [json.Marshal(bodyObj)]. *)
Variable Marshal : gomap -> string * option error.

(** [jsonDecoder.Decode(&bodyObj)] with [bodyObj] an empty map: an
    object fills the map, [null] sets [bodyObj] to the nil map, any other
    value is a type error. *)
Definition Decode (data : string) : gomap * option error :=
  match parse data with
  | inr e => (GoMap ∅, Some e)
  | inl (JObject members) => (GoMap (decoded_object members), None)
  | inl JNull => (NilMap, None)
  | inl (JBool _) => (GoMap ∅, Some (UnmarshalTypeError "bool"))
  | inl (JNumber _) => (GoMap ∅, Some (UnmarshalTypeError "number"))
  | inl (JString _) => (GoMap ∅, Some (UnmarshalTypeError "string"))
  | inl (JArray _) => (GoMap ∅, Some (UnmarshalTypeError "array"))
  end.

(** [ServeHTTP(w, r)], up to its calls of [forwardRequest]. *)

Definition ServeHTTP (p : podmanProxy) (r : Request) : handled :=
  let method := Method r in
  let path := URL_Path r in
  let path :=
    if Regexp.MatchString versionRegex path
    then Regexp.ReplaceAllString versionRegex path "/" else path in
  let contentType := Header_Get (Header r) "Content-Type" in
  if bool_decide (method ≠ "POST")
     || (bool_decide (path ≠ "/containers/create")
         && bool_decide (path ≠ "/libpod/containers/create"))
  then Forwarded r
  else if bool_decide (contentType ≠ "application/json")
          && bool_decide (contentType ≠ EmptyString)
  then Forwarded r
  else
    match BodyReadErr r with
    | Some err => HttpError err StatusInternalServerError
    | None =>
    match BodyCloseErr r with
    | Some err => HttpError err StatusInternalServerError
    | None =>
    let '(bodyObj, err) := Decode (Body r) in
    match err with
    | Some err => HttpError err StatusBadRequest
    | None =>
    let '(bodyObj, err) :=
      if Strings.HasPrefix path "/libpod"
      then on_map (mangleLibpodVolumes Output p) bodyObj
      else on_map (mangleDockerVolumes Output p) bodyObj in
    match err with
    | Some err => HttpError err StatusBadRequest
    | None =>
    let '(newBody, err) := Marshal bodyObj in
    match err with
    | Some err => HttpError err StatusInternalServerError
    | None =>
        let ContentLength' := Z.of_nat (String.length newBody) in
        Forwarded
          {| Method := Method r;
             URL_Path := URL_Path r;
             Header := Header_Set (Header r) "Content-Length"
                         (pretty ContentLength');
             Body := newBody;
             BodyReadErr := None;
             BodyCloseErr := None;
             ContentLength := ContentLength' |}
    end end end end end.

End Handler.

(** ** Forwarding *)

(** The client request [forwardRequest] makes of the server request it is
    given: the clone [usReq] and the fields the function assigns to. *)
Record ClientRequest : Type := {
  Req : Request;
  RequestURI : string;
  URL_Scheme : string;
  URL_Host : string;
  Proto : string
}.

(** What [http.ReadResponse] returns of the upstream's answer. *)
Record UpstreamResponse : Type := {
  us_StatusCode : Z;
  us_Header : gmap string (list string)
}.

(** How a call of the handler ends: with [http.Error(dsWriter, err.Error(),
    code)]; with the upstream's status and header entries written to
    [dsWriter] and its body copied after them (an error of the copy is
    logged only); with [proxy.ProxyFileConn] run between the two
    connections (its error is logged only); or with [logger.Panicf]. *)
Inductive reply : Type :=
| Answered (err : error) (code : Z)
| Relayed (usReq : ClientRequest) (code : Z) (header : gmap string (list string))
| Tunnelled (usReq : ClientRequest)
| Panicked (err : error).

Definition StatusBadGateway : Z := 502.
Definition StatusSwitchingProtocols : Z := 101.

Section Forwarding.

(** [strings.ToLower]. *)
Variable ToLower : string -> string.
(** [net.Dial("unix", address)]: the error. *)
Variable Dial : string -> option error.
(** [usReq.Write(usConn)]. *)
Variable Write : ClientRequest -> option error.
(** [http.ReadResponse(usReader, usReq)]. *)
Variable ReadResponse : ClientRequest -> UpstreamResponse + error.
(** [getHttpConn(r).File()] and [net.FileConn(...)]: the errors. *)
Variable File : option error.
Variable FileConn : option error.

(** The start of [forwardRequest]: the server request converted to a
    client request. *)
Definition client_request (r : Request) : ClientRequest :=
  let Host := Header_Get (Header r) "Host" in
  let usReq_Header :=
    if bool_decide (ToLower (Header_Get (Header r) "Connection") ≠ "upgrade")
    then Header_Set (Header r) "Connection" "close"
    else Header r in
  {| Req := {| Method := Method r;
               URL_Path := URL_Path r;
               Header := usReq_Header;
               Body := Body r;
               BodyReadErr := BodyReadErr r;
               BodyCloseErr := BodyCloseErr r;
               ContentLength := ContentLength r |};
     RequestURI := EmptyString;
     URL_Scheme := "http";
     URL_Host := if bool_decide (Host = EmptyString) then "d" else Host;
     Proto := "HTTP/1.1" |}.

Definition forwardRequest (p : podmanProxy) (r : Request) : reply :=
  let usReq := client_request r in
  match Dial (upstream p) with
  | Some err => Answered err StatusBadGateway
  | None =>
  match Write usReq with
  | Some err => Answered err StatusBadGateway
  | None =>
  match ReadResponse usReq with
  | inr err => Answered err StatusInternalServerError
  | inl usResp =>
      let usResp_Header :=
        if bool_decide (ToLower (Header_Get (us_Header usResp) "Connection")
                        ≠ "upgrade")
        then Header_Set (us_Header usResp) "Connection" "close"
        else us_Header usResp in
      if bool_decide (us_StatusCode usResp ≠ StatusSwitchingProtocols)
      then Relayed usReq (us_StatusCode usResp) usResp_Header
      else
        match File with
        | Some err => Answered err StatusInternalServerError
        | None =>
            match FileConn with
            | Some err => Panicked err
            | None => Tunnelled usReq
            end
        end
  end end end.

Variable Output : string -> list string -> string * option error.
Variable parse : string -> json + error.
Variable Marshal : gomap -> string * option error.

(** The whole of [ServeHTTP(w, r)]: its calls of [forwardRequest] carried
    out. *)
Definition handle (p : podmanProxy) (r : Request) : reply :=
  match ServeHTTP Output parse Marshal p r with
  | HttpError err code => Answered err code
  | Forwarded r' => forwardRequest p r'
  end.

End Forwarding.
End Proxy.

(** ** cmd/podman-wsl-service/main.go *)
Module Main.

Record Args : Type := {
  LogLevel : string;
  UpstreamSocket : string;
  DownstreamSocket : string;
  WslDistroName : string;
  NoMountDistroRoot : bool
}.

Definition getSharedMountpoint (distroName : string) : string :=
  "/mnt/wsl/distro-roots/" +:+ distroName.

(** How the process ends: [log.Fatalf] after the probe, [log.Fatalf] after
    [Serve], or a return from [main]. *)
Inductive outcome : Type :=
| FatalUpstream (err : error)
| FatalServe (err : error)
| Returned.

Section Startup.

Variable client_Get : string -> Proxy.get_result.
(** [proxy.Serve()]: listening, accepting and serving until shutdown. *)
Variable Serve : Proxy.podmanProxy -> option error.

(** The end of [main], from [NewPodmanProxy] on. *)
Definition main (args : Args) (mountPoint : string) : outcome :=
  let proxy :=
    Proxy.NewPodmanProxy mountPoint (UpstreamSocket args) (DownstreamSocket args) in
  match Proxy.TestUpstreamSocket client_Get proxy with
  | Some err => FatalUpstream err
  | None =>
      match Serve proxy with
      | Some err => FatalServe err
      | None => Returned
      end
  end.

End Startup.

Section Distro.

(** [os.Getenv] and the [wslpath] command. *)
Variable Getenv : string -> string.
Variable Output : string -> list string -> string * option error.

(** The cutset "/ \r\n\t" of [getWslDistroName]: slash, space, carriage
    return, line feed, tab. *)
Definition cutset : string :=
  String "/" (String " " (String "013" (String "010" (String "009" EmptyString)))).

Definition getWslDistroName : string * option error :=
  let distroName := Getenv "WSL_DISTRO_NAME" in
  if negb (bool_decide (distroName = EmptyString)) then (distroName, None)
  else
    let '(winRootPath, err) := Wslpath.ToWindowsForwardSlashes Output "/" in
    match err with
    | Some e => (EmptyString, Some e)
    | None =>
        let parts := Strings.Split (Strings.Trim winRootPath cutset) "/" in
        if negb (List.length parts =? 2)%nat
        then (EmptyString,
              Some (ErrorString "'wslpath -am /' returned an unexpected value"))
        else (default EmptyString (parts !! 1%nat), None)
    end.

End Distro.

(** Whether [Serve] was called. *)
Definition served (o : outcome) : bool :=
  match o with
  | FatalUpstream _ => false
  | FatalServe _ | Returned => true
  end.

End Main.

(** ** pkg/proxy/rawproxy.go *)
Module Rawproxy.

(** [unix.EAGAIN] and [unix.EWOULDBLOCK]: one error number on Linux. *)
Definition EAGAIN : error := Errno 11.
Definition EWOULDBLOCK : error := Errno 11.

Definition F_GETFL : Z := 3.
Definition F_SETFL : Z := 4.
Definition O_NONBLOCK : Z := 2048.

(** [errors.Is(err, target)] for a target that is an error number: the
    chain of wrapped errors is searched for it. *)
Fixpoint errors_Is (err : error) (target : error) : bool :=
  match err with
  | Errno e =>
      match target with
      | Errno t => Z.eqb e t
      | _ => false
      end
  | SyscallError _ inner => errors_Is inner target
  | OpError _ inner => errors_Is inner target
  | _ => false
  end.

(** [unix.FdSet] as the set of the descriptors whose bit is set. *)
Definition FdSet_Set (fds : gset Z) (fd : Z) : gset Z := {[fd]} ∪ fds.

Definition FdSet_IsSet (fds : gset Z) (fd : Z) : bool := bool_decide (fd ∈ fds).

Section Forward.

(** The state of the kernel and of the two peers, and a connection. *)
Variable world : Type.
Variable conn : Type.

(** A computation that reads and changes the world. *)
Definition io (A : Type) : Type := world -> A * world.

Definition ret {A : Type} (a : A) : io A := fun w => (a, w).

Definition bind {A B : Type} (m : io A) (f : A -> io B) : io B :=
  fun w => let '(a, w') := m w in f a w'.

Notation "x <- m ;; k" := (bind m (fun x => k))
  (at level 100, m at next level, right associativity).

(** [conn.File()] followed by [file.Fd()]. *)
Variable File : conn -> io (Z * option error).
(** [unix.FcntlInt(fd, cmd, arg)]. *)
Variable FcntlInt : Z -> Z -> Z -> io (Z * option error).
(** [unix.Select(nfd, readFds, nil, nil, nil)]: the descriptors left set
    in [readFds], and the error. *)
Variable Select : Z -> gset Z -> io (gset Z * option error).
(** [src.Read(buffer)] for a buffer of the given length: the bytes read
    into it ([n] is their number) and the error. *)
Variable Read : conn -> nat -> io (list Byte.byte * option error).
(** [dst.Write(bytes)]: the error. *)
Variable Write : conn -> list Byte.byte -> io (option error).

Definition getConnFd (c : conn) : io (Z * option error) :=
  r <- File c ;;
  match snd r with
  | Some err => ret (-1, Some err)
  | None => ret (fst r, None)
  end.

Definition setNonBlocking (fd : Z) : io (option error) :=
  r <- FcntlInt fd F_GETFL 0 ;;
  match snd r with
  | Some err => ret (Some err)
  | None =>
      let flags := fst r in
      r' <- FcntlInt fd F_SETFL (Z.lor flags O_NONBLOCK) ;;
      match snd r' with
      | Some err => ret (Some err)
      | None => ret None
      end
  end.

Definition forwardData (readFds : gset Z) (buffer : nat) (fd : Z)
    (src dst : conn) : io (option error) :=
  if FdSet_IsSet readFds fd then
    r <- Read src buffer ;;
    match snd r with
    | Some err =>
        if errors_Is err EAGAIN || errors_Is err EWOULDBLOCK
        then ret None
        else ret (Some err)
    | None =>
        let n := List.length (fst r) in
        if (0 <? n)%nat then
          werr <- Write dst (fst r) ;;
          match werr with
          | Some err => ret (Some err)
          | None => ret None
          end
        else ret None
    end
  else ret None.

(** One turn of the [for] loop of [ProxyFileConn]: the error it returns
    with, or [None] when the loop goes round again. *)
Definition turn (fd1 fd2 : Z) (c1 c2 : conn) (buffer : nat)
  : io (option error) :=
  let readFds : gset Z := ∅ in
  let readFds := FdSet_Set readFds fd1 in
  let readFds := FdSet_Set readFds fd2 in
  r <- Select (Z.max fd1 fd2 + 1) readFds ;;
  match snd r with
  | Some err => ret (Some err)
  | None =>
      let readFds := fst r in
      e1 <- forwardData readFds buffer fd1 c1 c2 ;;
      match e1 with
      | Some err => ret (Some err)
      | None =>
          e2 <- forwardData readFds buffer fd2 c2 c1 ;;
          match e2 with
          | Some err => ret (Some err)
          | None => ret None
          end
      end
  end.

(** The loop, for at most [turns] turns: [Some err] when it has returned
    [err], [None] when it is still running after that many turns. *)
Fixpoint forward (turns : nat) (fd1 fd2 : Z) (c1 c2 : conn) (buffer : nat)
  : io (option error) :=
  match turns with
  | O => ret None
  | S turns' =>
      r <- turn fd1 fd2 c1 c2 buffer ;;
      match r with
      | Some err => ret (Some err)
      | None => forward turns' fd1 fd2 c1 c2 buffer
      end
  end.

(** [ProxyFileConn(c1, c2, logger)], its loop run for at most [turns]
    turns. *)
Definition ProxyFileConn (turns : nat) (c1 c2 : conn) : io (option error) :=
  r1 <- getConnFd c1 ;;
  match snd r1 with
  | Some err => ret (Some err)
  | None =>
      let fd1 := fst r1 in
      r2 <- getConnFd c2 ;;
      match snd r2 with
      | Some err => ret (Some err)
      | None =>
          let fd2 := fst r2 in
          e1 <- setNonBlocking fd1 ;;
          match e1 with
          | Some err => ret (Some err)
          | None =>
              e2 <- setNonBlocking fd2 ;;
              match e2 with
              | Some err => ret (Some err)
              | None => forward turns fd1 fd2 c1 c2 4096
              end
          end
      end
  end.

End Forward.
End Rawproxy.

(** ** src/unnamed/part_001: a revision of proxy.go.  It differs from
       proxy.go in [mangleDockerVolumes] (and in how an upgraded connection
       is relayed); [translateHostPath], [mangleLibpodVolumes] and the
       content-type test of [ServeHTTP] are the same text. *)
Module Part001.
Section Translate.

Variable Output : string -> list string -> string * option error.

Fixpoint mangleBinds (p : Proxy.podmanProxy) (binds newBinds : list string)
  : list string * option error :=
  match binds with
  | [] => (newBinds, None)
  | bind :: rest =>
      let parts := Strings.Split bind ":" in
      let hostPath := default EmptyString (parts !! 0%nat) in
      let '(newHostPath, err) := Proxy.translateHostPath Output p hostPath in
      match err with
      | Some e => (newBinds, Some e)
      | None =>
          let parts := <[0%nat := newHostPath]> parts in
          mangleBinds p rest (newBinds ++ [Strings.Join parts ":"])
      end
  end.

Definition mangleDockerVolumes (p : Proxy.podmanProxy) (body : gmap string any)
  : gmap string any * option error :=
  match assert_map (body !! "HostConfig") with
  | None => (body, Some (ErrorString "HostConfig field not found in request body"))
  | Some hostConfig =>
      match assert_string_slice (hostConfig !! "Binds") with
      | None => (body, Some (ErrorString "binds field not found in HostConfig"))
      | Some binds =>
          let '(newBinds, err) := mangleBinds p binds [] in
          match err with
          | Some e => (body, Some e)
          | None =>
              (<["HostConfig" :=
                   VMap (<["Binds" := VStringSlice newBinds]> hostConfig)]> body,
               None)
          end
      end
  end.

End Translate.
End Part001.

(** ** index.mjs *)
Module IndexMjs.

(** *** JavaScript values: what [JSON.parse] builds, and [undefined].  An
    object is its properties in insertion order. *)
Inductive jsval : Type :=
| Undefined
| Null
| Boolean (b : bool)
| Number (lit : string)
| Str (s : string)
| Array (elems : list jsval)
| Object (props : list (string * jsval)).

Inductive exception : Type :=
| TypeError
| Error (message : string)
| ChildProcessError (message : string).

Fixpoint lookup_prop (props : list (string * jsval)) (key : string) : jsval :=
  match props with
  | [] => Undefined
  | (k, v) :: rest => if decide (k = key) then v else lookup_prop rest key
  end.

Fixpoint assign_prop (props : list (string * jsval)) (key : string) (v : jsval)
  : list (string * jsval) :=
  match props with
  | [] => [(key, v)]
  | (k, v') :: rest =>
      if decide (k = key) then (k, v) :: rest
      else (k, v') :: assign_prop rest key v
  end.

(** [o.key] for the keys the program reads ([mounts], [source]): a
    [TypeError] on [null] and [undefined], the property of an object, and
    [undefined] on the other values, which have no such property. *)
Definition get (o : jsval) (key : string) : jsval + exception :=
  match o with
  | Undefined | Null => inr TypeError
  | Object props => inl (lookup_prop props key)
  | _ => inl Undefined
  end.

(** [o.key = v] in module (strict) code, for an object or a primitive. *)
Definition set (o : jsval) (key : string) (v : jsval) : jsval + exception :=
  match o with
  | Object props => inl (Object (assign_prop props key v))
  | _ => inr TypeError
  end.

Definition BadPathFormat (hostPath : string) : exception :=
  Error ("PODMAN WSL SERVICE BUG: unexpected path format, expected absolute path: '"
           +:+ hostPath +:+ "'").

Definition getSharedMountpoint (distroName : string) : string :=
  "/mnt/wsl/distro-roots/" +:+ distroName.

Section Patch.

Variable sharedRoot : string.
(** [execFileSync(file, args).toString()], or what it throws. *)
Variable execFileSync : string -> list string -> string + exception.
(** [String.prototype.trim] and Node's [path.join]. *)
Variable trim : string -> string.
Variable path_join : list string -> string.

Definition wslPathToWindowsPath (wslPath : string) : string + exception :=
  match execFileSync "wslpath" ["-aw"; wslPath] with
  | inl out => inl (trim out)
  | inr e => inr e
  end.

(** [translateHostPath(hostPath)]: a value that is not a string has no
    [startsWith] to call. *)
Definition translateHostPath (hostPath : jsval) : string + exception :=
  match hostPath with
  | Str hostPath =>
      if Strings.HasPrefix hostPath "/mnt/wsl/" then inl hostPath
      else
        match wslPathToWindowsPath hostPath with
        | inr err => inr err
        | inl winPath =>
            if Strings.HasPrefix winPath "\\wsl.localhost\" then
              if negb (Strings.HasPrefix hostPath "/")
              then inr (BadPathFormat hostPath)
              else inl (path_join [sharedRoot; Strings.slice_from 1 hostPath])
            else inl winPath
        end
  | _ => inr TypeError
  end.

(** The loop of [patchVolumesLibpod]: the array is updated in place, so
    when an exception is thrown the elements already visited keep their
    new source. *)
Fixpoint patchMounts (mounts : list jsval) : list jsval * option exception :=
  match mounts with
  | [] => ([], None)
  | mount :: rest =>
      match get mount "source" with
      | inr err => (mounts, Some err)
      | inl hostPath =>
          match translateHostPath hostPath with
          | inr err => (mounts, Some err)
          | inl newPath =>
              match set mount "source" (Str newPath) with
              | inr err => (mounts, Some err)
              | inl mount' =>
                  let '(rest', err) := patchMounts rest in
                  (mount' :: rest', err)
              end
          end
      end
  end.

(** [patchVolumesLibpod(body)]: the body after the call and the
    exception thrown, if any. *)
Definition patchVolumesLibpod (body : jsval) : jsval * option exception :=
  match get body "mounts" with
  | inr err => (body, Some err)
  | inl (Array mounts) =>
      let '(mounts', err) := patchMounts mounts in
      match set body "mounts" (Array mounts') with
      | inl body' => (body', err)
      | inr _ => (body, err)
      end
  | inl _ => (body, None)
  end.

(** The loop of [patchVolumesDocker]: [mounts[i].split] exists on a string
    only. *)
Fixpoint patchBinds (mounts : list jsval) : list jsval * option exception :=
  match mounts with
  | [] => ([], None)
  | Str bind :: rest =>
      let mount := Strings.Split bind ":" in
      let hostPath := default EmptyString (mount !! 0%nat) in
      match translateHostPath (Str hostPath) with
      | inr err => (mounts, Some err)
      | inl newPath =>
          let mount := <[0%nat := newPath]> mount in
          let '(rest', err) := patchBinds rest in
          (Str (Strings.Join mount ":") :: rest', err)
      end
  | _ :: _ => (mounts, Some TypeError)
  end.

(** [patchVolumesDocker(body)]: [body.HostConfig?.Binds] is [undefined] when
    [body.HostConfig] is [null] or [undefined]. *)
Definition patchVolumesDocker (body : jsval) : jsval * option exception :=
  match get body "HostConfig" with
  | inr err => (body, Some err)
  | inl hostConfig =>
      let mounts :=
        match hostConfig with
        | Undefined | Null => inl Undefined
        | _ => get hostConfig "Binds"
        end in
      match mounts with
      | inl (Array mounts) =>
          let '(mounts', err) := patchBinds mounts in
          match set hostConfig "Binds" (Array mounts') with
          | inl hostConfig' =>
              match set body "HostConfig" hostConfig' with
              | inl body' => (body', err)
              | inr _ => (body, err)
              end
          | inr _ => (body, err)
          end
      | _ => (body, None)
      end
  end.

End Patch.

(** *** The distribution name *)

(** How a function that may call [process.exit] ends. *)
Inductive ending : Type :=
| Returns (value : string)
| Exits (code : Z).

(** [parts.filter(Boolean)] on strings: the empty ones are dropped. *)
Definition filter_Boolean (parts : list string) : list string :=
  filter (fun part => part ≠ EmptyString) parts.

Section Distro.

(** [process.env.WSL_DISTRO_NAME]: [None] when the variable is not set. *)
Variable WSL_DISTRO_NAME : option string.
Variable execFileSync : string -> list string -> string + exception.
Variable trim : string -> string.

(** [getWslDistroName()]: whatever is thrown in the [try] block is caught,
    and the process exits with status 1. *)
Definition getWslDistroName : ending :=
  let detect :=
    match execFileSync "wslpath" ["-am"; "/"] with
    | inr _ => Exits 1
    | inl out =>
        let result := trim out in
        let parts := filter_Boolean (Strings.Split result "/") in
        if negb (List.length parts =? 2)%nat then Exits 1
        else Returns (default EmptyString (parts !! 1%nat))
    end in
  match WSL_DISTRO_NAME with
  | Some distroName =>
      if negb (bool_decide (distroName = EmptyString)) then Returns distroName
      else detect
  | None => detect
  end.

End Distro.

(** *** Routing *)

(** The expression /^\/v\d+\.(?:\d\.?)+\// of the request handler. *)
Definition versionRegex : Regexp.regex :=
  Regexp.Seq (Regexp.Lit "/")
    (Regexp.Seq (Regexp.Lit "v")
       (Regexp.Seq (Regexp.Plus Regexp.Digit)
          (Regexp.Seq (Regexp.Lit ".")
             (Regexp.Seq
                (Regexp.Plus
                   (Regexp.Seq Regexp.Digit (Regexp.Quest (Regexp.Lit "."))))
                (Regexp.Lit "/"))))).

(** [pathname.replace(versionRegex, '/')]: the first match is replaced, and
    the expression matches at the start only. *)
Definition pathWithoutVersion (pathname : string) : string :=
  Regexp.ReplaceAllString versionRegex pathname "/".

(** *** The active-connection counter and the shutdown timer *)

(** [parseInt(options.shutdownTimeout)]. *)
Inductive jsnum : Type :=
| NaN
| Num (z : Z).

(** [n > 0]. *)
Definition gt0 (n : jsnum) : bool :=
  match n with
  | NaN => false
  | Num z => 0 <? z
  end.

(** [n < 0]: the test of the start-up report, which prints the timeout as
    disabled when it holds and as a number of seconds otherwise. *)
Definition lt0 (n : jsnum) : bool :=
  match n with
  | NaN => false
  | Num z => z <? 0
  end.

(** The listener a connection has waiting: ['finish'] on the response of a
    plain request, ['close'] on the socket of an upgraded one. *)
Inductive listener : Type :=
| OnFinish
| OnClose.

(** [shutdownTimer] is [None] for [null], and otherwise the pending
    timeout with its delay in milliseconds. *)
Record state : Type := {
  activeConnections : Z;
  shutdownTimer : option Z;
  listeners : gmap nat listener;
  exited : bool
}.

Inductive event : Type :=
| Request (c : nat)      (* the handler given to http.createServer runs *)
| Finish (c : nat)       (* 'finish' on the response of request c *)
| Upgrade (c : nat)      (* the 'upgrade' handler runs *)
| Close (c : nat)        (* 'close' on the socket of upgrade c *)
| Timeout                (* the pending timeout fires: cleanup() *).

Section Lifecycle.

Variable shutdownTimeout : jsnum.

Definition delay : Z :=
  match shutdownTimeout with
  | NaN => 0
  | Num z => z * 1000
  end.

(** [let activeConnections = 0; let shutdownTimer = null;] *)
Definition initial : state :=
  {| activeConnections := 0; shutdownTimer := None;
     listeners := ∅; exited := false |}.

(** [if (shutdownTimer) { clearTimeout(shutdownTimer); shutdownTimer = null; }] *)
Definition clearShutdownTimer (s : state) : state :=
  match shutdownTimer s with
  | Some _ =>
      {| activeConnections := activeConnections s; shutdownTimer := None;
         listeners := listeners s; exited := exited s |}
  | None => s
  end.

Definition resetShutdownTimer (s : state) : state :=
  let s := clearShutdownTimer s in
  if gt0 shutdownTimeout then
    {| activeConnections := activeConnections s;
       shutdownTimer := Some delay;
       listeners := listeners s; exited := exited s |}
  else s.

(** The callback of [server.listen]. *)
Definition listening : state := resetShutdownTimer initial.

(** The first statements of both handlers: count the connection, clear
    the timer, register the listener. *)
Definition accept (c : nat) (l : listener) (s : state) : state :=
  let s :=
    {| activeConnections := activeConnections s + 1;
       shutdownTimer := shutdownTimer s;
       listeners := listeners s; exited := exited s |} in
  let s := clearShutdownTimer s in
  {| activeConnections := activeConnections s;
     shutdownTimer := shutdownTimer s;
     listeners := <[c := l]> (listeners s); exited := exited s |}.

(** The body of both listeners; a listener fires once. *)
Definition release (c : nat) (s : state) : state :=
  let s :=
    {| activeConnections := activeConnections s - 1;
       shutdownTimer := shutdownTimer s;
       listeners := delete c (listeners s); exited := exited s |} in
  if decide (activeConnections s = 0) then resetShutdownTimer s else s.

(** [cleanup()] ends the process. *)
Definition cleanup (s : state) : state :=
  {| activeConnections := activeConnections s;
     shutdownTimer := shutdownTimer s;
     listeners := listeners s; exited := true |}.

(** One event of the event loop, [None] when it cannot happen in [s]: a
    handler runs for a new connection, a listener fires only if it is
    registered, the timeout only if it is pending, and nothing happens
    after the process has exited. *)
Definition dispatch (s : state) (ev : event) : option state :=
  if exited s then None
  else
    match ev with
    | Request c =>
        match listeners s !! c with
        | None => Some (accept c OnFinish s)
        | Some _ => None
        end
    | Upgrade c =>
        match listeners s !! c with
        | None => Some (accept c OnClose s)
        | Some _ => None
        end
    | Finish c =>
        match listeners s !! c with
        | Some OnFinish => Some (release c s)
        | _ => None
        end
    | Close c =>
        match listeners s !! c with
        | Some OnClose => Some (release c s)
        | _ => None
        end
    | Timeout =>
        match shutdownTimer s with
        | Some _ => Some (cleanup s)
        | None => None
        end
    end.

Fixpoint run (s : state) (evs : list event) : option state :=
  match evs with
  | [] => Some s
  | ev :: evs' =>
      match dispatch s ev with
      | Some s' => run s' evs'
      | None => None
      end
  end.

(** The timer is armed. *)
Definition armed (s : state) : Prop := is_Some (shutdownTimer s).

(** The invariant as the specification words it. *)
Definition armed_iff_idle (s : state) : Prop :=
  armed s ↔ activeConnections s = 0.

End Lifecycle.
End IndexMjs.

(** ** A sample environment, used to run the definitions on concrete inputs *)
Module Sample.

Fixpoint backslashes (s : string) : string :=
  match s with
  | EmptyString => EmptyString
  | String c s' =>
      String (if Ascii.eqb c "/" then "\"%char else c) (backslashes s')
  end.

(** A [wslpath] that answers as on a distribution named Ubuntu: a path
    under /mnt/c/ is on drive C, the empty path is refused, any other path
    is under the distribution's network share (a relative one below the
    working directory /home/user). *)
Definition Output (name : string) (args : list string) : string * option error :=
  match args with
  | [flag; p] =>
      if decide (p = EmptyString) then (EmptyString, Some (ExitError 1))
      else if Strings.HasPrefix p "/mnt/c/"
      then ("C:\" +:+ backslashes (Strings.slice_from 7 p), None)
      else if Strings.HasPrefix p "/"
      then ("\\wsl.localhost\Ubuntu" +:+ backslashes p, None)
      else ("\\wsl.localhost\Ubuntu\home\user\" +:+ backslashes p, None)
  | _ => (EmptyString, Some (ExitError 2))
  end.

Definition proxy : Proxy.podmanProxy :=
  Proxy.NewPodmanProxy (Main.getSharedMountpoint "Ubuntu")
    "/mnt/wsl/podman-sockets/podman-machine-default/podman-root.sock"
    "/run/podman/podman.sock".

(** {"Image":"alpine","HostConfig":{"Binds":["/home/user/data:/data:ro",
    null,"/mnt/c/x:/x",7],"Memory":9007199254740993}} *)
Definition docker_binds : list json :=
  [JString "/home/user/data:/data:ro"; JNull; JString "/mnt/c/x:/x"; JNumber "7"].

Definition docker_hostConfig : list (string * json) :=
  [("Binds", JArray docker_binds); ("Memory", JNumber "9007199254740993")].

Definition docker_body : list (string * json) :=
  [("Image", JString "alpine"); ("HostConfig", JObject docker_hostConfig)].

(** {"image":"alpine","mounts":[{"destination":"/data","type":"bind",
    "source":"/home/user/data"}]} *)
Definition libpod_body : list (string * json) :=
  [("image", JString "alpine");
   ("mounts",
    JArray [JObject [("destination", JString "/data"); ("type", JString "bind");
                     ("source", JString "/home/user/data")]])].

(** A body holding a value of Go type [[]map[string]string], which no JSON
    text decodes to. *)
Definition typed_mounts : list (gmap string string) :=
  [ <["type" := "tmpfs"]> (<["source" := "/home/user/cache"]> ∅);
    <["type" := "bind"]> (<["source" := "/home/user/data"]> ∅) ].

Definition typed_body : gmap string any :=
  <["mounts" := VStringMapSlice typed_mounts]> ∅.

(** The same [wslpath] as the Node service sees it: the output ends with a
    line feed, a failure is thrown. *)
Definition execFileSync (file : string) (args : list string)
  : string + IndexMjs.exception :=
  match Output file args with
  | (out, None) => inl (out +:+ String "010" EmptyString)
  | (_, Some _) => inr (IndexMjs.ChildProcessError "Command failed")
  end.

Definition is_space (c : ascii) : bool :=
  let n := nat_of_ascii c in
  ((9 <=? n)%nat && (n <=? 13)%nat) || (n =? 32)%nat.

Fixpoint trim_end (s : string) : string :=
  match s with
  | EmptyString => EmptyString
  | String c s' =>
      match trim_end s' with
      | EmptyString => if is_space c then EmptyString else String c EmptyString
      | t => String c t
      end
  end.

Fixpoint trim_start (s : string) : string :=
  match s with
  | EmptyString => EmptyString
  | String c s' => if is_space c then trim_start s' else s
  end.

(** [String.prototype.trim] on ASCII text. *)
Definition trim (s : string) : string := trim_end (trim_start s).

(** Node's [path.join] agrees with Go's [path.Join] on the paths used here
    (no trailing slash). *)
Definition path_join (paths : list string) : string := Path.Join paths.

(** {"mounts":[{"destination":"/cache","type":"volume","source":"/mnt/c/cache"},
    {"destination":"/data","type":"bind","source":"/home/user/data"}]} *)
Definition js_libpod_body : IndexMjs.jsval :=
  IndexMjs.Object
    [("mounts",
      IndexMjs.Array
        [IndexMjs.Object [("destination", IndexMjs.Str "/cache");
                          ("type", IndexMjs.Str "volume");
                          ("source", IndexMjs.Str "/mnt/c/cache")];
         IndexMjs.Object [("destination", IndexMjs.Str "/data");
                          ("type", IndexMjs.Str "bind");
                          ("source", IndexMjs.Str "/home/user/data")]])].

(** {"mounts":[{"destination":"/run","type":"tmpfs","source":"tmpfs"}]} *)
Definition js_tmpfs_body : IndexMjs.jsval :=
  IndexMjs.Object
    [("mounts",
      IndexMjs.Array
        [IndexMjs.Object [("destination", IndexMjs.Str "/run");
                          ("type", IndexMjs.Str "tmpfs");
                          ("source", IndexMjs.Str "tmpfs")]])].

(** {"Image":"alpine","HostConfig":{"Binds":["/home/user/data:/data:ro",
    "/mnt/c/x:/x"]}} *)
Definition js_docker_body : IndexMjs.jsval :=
  IndexMjs.Object
    [("Image", IndexMjs.Str "alpine");
     ("HostConfig",
      IndexMjs.Object
        [("Binds",
          IndexMjs.Array [IndexMjs.Str "/home/user/data:/data:ro";
                          IndexMjs.Str "/mnt/c/x:/x"])])].

(** A scripted world for the forwarder: each connection has the results of
    its coming reads, and collects what is written to it; every descriptor
    is always ready and every write succeeds.  Connection [true] has
    descriptor 7, connection [false] descriptor 8. *)
Record world : Type := {
  reads_true : list (list Byte.byte * option error);
  reads_false : list (list Byte.byte * option error);
  written_true : list Byte.byte;
  written_false : list Byte.byte
}.

Definition File (c : bool) (w : world) : (Z * option error) * world :=
  ((if c then 7 else 8, None), w).

Definition FcntlInt (fd cmd arg : Z) (w : world) : (Z * option error) * world :=
  ((0, None), w).

Definition Select (nfd : Z) (readFds : gset Z) (w : world)
  : (gset Z * option error) * world :=
  ((readFds, None), w).

Definition Read (c : bool) (buffer : nat) (w : world)
  : (list Byte.byte * option error) * world :=
  match (if c then reads_true w else reads_false w) with
  | [] => (([], Some EOF), w)
  | r :: rest =>
      (r, {| reads_true := if c then rest else reads_true w;
             reads_false := if c then reads_false w else rest;
             written_true := written_true w;
             written_false := written_false w |})
  end.

Definition Write (c : bool) (data : list Byte.byte) (w : world)
  : option error * world :=
  (None, {| reads_true := reads_true w;
            reads_false := reads_false w;
            written_true := if c then written_true w ++ data else written_true w;
            written_false := if c then written_false w else written_false w ++ data |}).

(** Connection [true] first has nothing to read, then two bytes; connection
    [false] has one byte, then is reset by its peer. *)
Definition script : world :=
  {| reads_true :=
       [([], Some (OpError "read" (SyscallError "read" (Errno 11))));
        ([Byte.x68; Byte.x69], None)];
     reads_false :=
       [([Byte.x21], None);
        ([], Some (OpError "read" (SyscallError "read" (Errno 104))))];
     written_true := [];
     written_false := [] |}.

(** A decoder and an encoder that know the empty object and [null] only. *)
Definition parse (data : string) : json + error :=
  if decide (data = "{}") then inl (JObject [])
  else if decide (data = "null") then inl JNull
  else inr (ErrorString "invalid character").

Definition Marshal (b : gomap) : string * option error :=
  match b with
  | NilMap => ("null", None)
  | GoMap m =>
      if decide (size m = 0%nat) then ("{}", None)
      else (EmptyString, Some (ErrorString "unsupported value"))
  end.

(** POST /v1.41/containers/create, without any header, with the given body. *)
Definition create_request (body : string) : Proxy.Request :=
  {| Proxy.Method := "POST";
     Proxy.URL_Path := "/v1.41/containers/create";
     Proxy.Header := ∅;
     Proxy.Body := body;
     Proxy.BodyReadErr := None;
     Proxy.BodyCloseErr := None;
     Proxy.ContentLength := Z.of_nat (String.length body) |}.

(** [strings.ToLower] on ASCII text. *)
Definition lower (c : ascii) : ascii :=
  let n := nat_of_ascii c in
  if (65 <=? n)%nat && (n <=? 90)%nat then ascii_of_nat (n + 32) else c.

Fixpoint ToLower (s : string) : string :=
  match s with
  | EmptyString => EmptyString
  | String c s' => String (lower c) (ToLower s')
  end.

(** An upstream that can be reached and answers every request with 201
    and a JSON content type. *)
Definition Dial (address : string) : option error := None.

Definition WriteRequest (usReq : Proxy.ClientRequest) : option error := None.

Definition ReadResponse (usReq : Proxy.ClientRequest)
  : Proxy.UpstreamResponse + error :=
  inl {| Proxy.us_StatusCode := 201;
         Proxy.us_Header := <["Content-Type" := ["application/json"]]> ∅ |}.

(** An upstream that is gone. *)
Definition Dial_refused (address : string) : option error :=
  Some (OpError "dial" (SyscallError "connect" (Errno 111))).

End Sample.

(** ** Notions the properties are stated with *)
Module Spec.

(** What a Docker bind becomes: in a string the first colon-separated
    segment is replaced by its translation, any other value gives the empty
    string. *)
Definition rewritten_bind (translate : string -> string * option error) (v : any)
  : any :=
  match v with
  | VString s =>
      let parts := Strings.Split s ":" in
      VString (Strings.Join (fst (translate (hd EmptyString parts)) :: tl parts) ":")
  | _ => VString EmptyString
  end.

(** A read error that says the read would block. *)
Definition would_block (err : error) : bool :=
  Rawproxy.errors_Is err Rawproxy.EAGAIN
  || Rawproxy.errors_Is err Rawproxy.EWOULDBLOCK.

(** The request path with its version prefix replaced by a slash, as the
    handler routes on it. *)
Definition normalized (path : string) : string :=
  if Regexp.MatchString Proxy.versionRegex path
  then Regexp.ReplaceAllString Proxy.versionRegex path "/" else path.

(** The two container-creation endpoints. *)
Definition creation_endpoint (path : string) : Prop :=
  path = "/containers/create" \/ path = "/libpod/containers/create".

(** The rewrite the handler selects for an endpoint. *)
Definition rewrite (Output : string -> list string -> string * option error)
    (p : Proxy.podmanProxy) (path : string) (body : gomap)
  : gomap * option error :=
  if Strings.HasPrefix path "/libpod"
  then on_map (Proxy.mangleLibpodVolumes Output p) body
  else on_map (Proxy.mangleDockerVolumes Output p) body.

(** The request with its body replaced and its length set again. *)
Definition with_body (r : Proxy.Request) (newBody : string) : Proxy.Request :=
  {| Proxy.Method := Proxy.Method r;
     Proxy.URL_Path := Proxy.URL_Path r;
     Proxy.Header :=
       <["Content-Length" := [pretty (Z.of_nat (String.length newBody))]]>
         (Proxy.Header r);
     Proxy.Body := newBody;
     Proxy.BodyReadErr := None;
     Proxy.BodyCloseErr := None;
     Proxy.ContentLength := Z.of_nat (String.length newBody) |}.

(** What holds of the Node service's counter and timer between events: the
    counter counts the registered listeners, and the timer is pending
    exactly when the counter is zero and the configured timeout is
    positive. *)
Definition lifecycle_invariant (shutdownTimeout : IndexMjs.jsnum)
    (s : IndexMjs.state) : Prop :=
  IndexMjs.activeConnections s = Z.of_nat (size (IndexMjs.listeners s))
  /\ (IndexMjs.armed s
      <-> IndexMjs.activeConnections s = 0 /\ IndexMjs.gt0 shutdownTimeout = true).

(** A string of decimal digits, and one that is not empty. *)
Fixpoint all_digits (s : string) : bool :=
  match s with
  | EmptyString => true
  | String c t => Regexp.byte_in 48 57 c && all_digits t
  end.

Definition digits (s : string) : bool :=
  negb (bool_decide (s = EmptyString)) && all_digits s.

(** What may follow the first dot of a version: digits, each followed by at
    most one dot (41, 0.0, 41.5.). *)
Fixpoint version_body (s : string) : bool :=
  match s with
  | EmptyString => false
  | String d t =>
      Regexp.byte_in 48 57 d
      && match t with
         | EmptyString => true
         | String c t' =>
             if Ascii.eqb c "."
             then bool_decide (t' = EmptyString) || version_body t'
             else version_body t
         end
  end.

(** [s] is made of bytes of [cutset] only; [s] holds no byte [c]. *)
Fixpoint only_bytes (cutset s : string) : bool :=
  match s with
  | EmptyString => true
  | String c t => Strings.IndexByte cutset c && only_bytes cutset t
  end.

Definition free_of (c : ascii) (s : string) : bool :=
  negb (Strings.IndexByte s c).

(** [s] is not empty and its first, or its last, byte is not in [cutset]. *)
Definition starts_outside (cutset s : string) : bool :=
  match s with
  | EmptyString => false
  | String c _ => negb (Strings.IndexByte cutset c)
  end.

Fixpoint ends_outside (cutset s : string) : bool :=
  match s with
  | EmptyString => false
  | String c EmptyString => negb (Strings.IndexByte cutset c)
  | String _ t => ends_outside cutset t
  end.

(** In the scripted world: the bytes a read delivers (those of a failed read
    are not used), and the bytes a connection still has to deliver. *)
Definition payload (r : list Byte.byte * option error) : list Byte.byte :=
  match snd r with
  | None => fst r
  | Some _ => []
  end.

Definition pending (reads : list (list Byte.byte * option error))
  : list Byte.byte :=
  List.concat (map payload reads).

(** In the scripted world: what connection [c] still has to deliver, what
    has been written to it, and the bytes on their way from [c] to its peer,
    written already or still to be read. *)
Definition reads (c : bool) (w : Sample.world)
  : list (list Byte.byte * option error) :=
  if c then Sample.reads_true w else Sample.reads_false w.

Definition written (c : bool) (w : Sample.world) : list Byte.byte :=
  if c then Sample.written_true w else Sample.written_false w.

Definition in_flight (c : bool) (w : Sample.world) : list Byte.byte :=
  written (negb c) w ++ pending (reads c w).

(** The slash-separated elements of [s] are names: none is empty, "." or
    "..".  The elements of [s] hold no ".." (they may be empty or "."). *)
Definition plain_elements (s : string) : bool :=
  forallb (fun e => negb (bool_decide (e = EmptyString))
                    && negb (bool_decide (e = "."))
                    && negb (bool_decide (e = "..")))
    (Strings.Split s "/").

Definition no_dotdot (s : string) : bool :=
  forallb (fun e => negb (bool_decide (e = ".."))) (Strings.Split s "/").

(** [v] is a string whose host segment lies under the shared mount. *)
Definition translated_bind (v : any) : bool :=
  match v with
  | VString s =>
      Strings.HasPrefix (hd EmptyString (Strings.Split s ":")) "/mnt/wsl/"
  | _ => false
  end.

End Spec.

(** * Properties *)

(** ** Strings and paths *)

Lemma append_cons (x : ascii) (a b : string) :
  String x a +:+ b = String x (a +:+ b).
Proof. reflexivity. Qed.

Lemma append_assoc (a b c : string) : (a +:+ b) +:+ c = a +:+ (b +:+ c).
Proof.
  induction a as [|x a IH]; [reflexivity|].
  rewrite !append_cons. by rewrite IH.
Qed.

Lemma prefix_app (a t : string) : String.prefix a (a +:+ t) = true.
Proof.
  induction a as [|c a IH]; simpl.
  - by destruct t.
  - destruct (ascii_dec c c); [exact IH | congruence].
Qed.

Lemma prefix_elim (a b : string) :
  String.prefix a b = true -> exists t, b = a +:+ t.
Proof.
  revert b; induction a as [|c a IH]; intros b H.
  - exists b; reflexivity.
  - destruct b as [|d b]; simpl in H; [discriminate|].
    destruct (ascii_dec c d) as [->|]; [|discriminate].
    destruct (IH b H) as [t ->]. exists t; reflexivity.
Qed.

Lemma HasPrefix_trans (s a b : string) :
  Strings.HasPrefix a b = true -> Strings.HasPrefix s a = true ->
  Strings.HasPrefix s b = true.
Proof.
  unfold Strings.HasPrefix; intros Hab Hsa.
  destruct (prefix_elim _ _ Hab) as [t ->].
  destruct (prefix_elim _ _ Hsa) as [u ->].
  rewrite append_assoc. apply prefix_app.
Qed.

Lemma getSharedMountpoint_under_mnt_wsl (distroName : string) :
  Strings.HasPrefix (Main.getSharedMountpoint distroName) "/mnt/wsl/" = true.
Proof. reflexivity. Qed.

Lemma getSharedMountpoint_nonempty (distroName : string) :
  Main.getSharedMountpoint distroName ≠ EmptyString.
Proof. discriminate. Qed.

Lemma Split_nonempty (s : string) (sep : ascii) : Strings.Split s sep ≠ [].
Proof.
  destruct s as [|c s]; simpl; [discriminate|].
  destruct (Ascii.eqb c sep); [discriminate|].
  destruct (Strings.Split s sep); discriminate.
Qed.

Lemma Split_app (a b : string) (sep : ascii) :
  Strings.Split (a +:+ String sep b) sep
  = Strings.Split a sep ++ Strings.Split b sep.
Proof.
  induction a as [|c a IH]; [simpl; by rewrite Ascii.eqb_refl|].
  rewrite append_cons. simpl.
  - destruct (Ascii.eqb c sep); [by rewrite IH|].
    rewrite IH. pose proof (Split_nonempty a sep) as Hne.
    destruct (Strings.Split a sep); [done | reflexivity].
Qed.

Lemma TrimLeft_cons (c : ascii) (t cutset : string) :
  Strings.TrimLeft (String c t) cutset
  = if Strings.IndexByte cutset c then Strings.TrimLeft t cutset else String c t.
Proof. reflexivity. Qed.

Lemma IndexByte_one (d c : ascii) :
  Strings.IndexByte (String d EmptyString) c = Ascii.eqb c d.
Proof.
  cbn [Strings.IndexByte]. rewrite (Ascii.eqb_sym d c).
  by destruct (Ascii.eqb c d).
Qed.

Lemma Split_cons (c : ascii) (t : string) (sep : ascii) :
  Strings.Split (String c t) sep
  = if Ascii.eqb c sep then EmptyString :: Strings.Split t sep
    else match Strings.Split t sep with
         | [] => [String c EmptyString]
         | p :: ps => String c p :: ps
         end.
Proof. reflexivity. Qed.

(** Leading slashes only add empty elements, which [path.Clean] drops. *)
Lemma clean_fold_TrimLeft (rooted : bool) (t : string) (stack : list string) :
  fold_left (Path.clean_step rooted) (Strings.Split (Strings.TrimLeft t "/") "/") stack
  = fold_left (Path.clean_step rooted) (Strings.Split t "/") stack.
Proof.
  induction t as [|c t IH]; [reflexivity|].
  rewrite TrimLeft_cons, IndexByte_one.
  destruct (Ascii.eqb c "/") eqn:E; [|reflexivity].
  rewrite IH, (Split_cons c t), E. reflexivity.
Qed.

Lemma Clean_cons (c : ascii) (s : string) :
  Path.Clean (String c s)
  = let rooted := Ascii.eqb c "/" in
    let out := Strings.Join
                 (rev (fold_left (Path.clean_step rooted)
                         (Strings.Split (String c s) "/") [])) "/" in
    if rooted then "/" +:+ out
    else if decide (out = EmptyString) then "." else out.
Proof.
  unfold Path.Clean. rewrite decide_False by discriminate.
  assert (Strings.HasPrefix (String c s) "/" = Ascii.eqb c "/") as ->.
  { unfold Strings.HasPrefix. cbn [String.prefix].
    rewrite (Ascii.eqb_sym c "/").
    destruct (ascii_dec "/" c) as [<-|Hne].
    - rewrite Ascii.eqb_refl. by destruct s.
    - symmetry. by apply Ascii.eqb_neq. }
  reflexivity.
Qed.

Lemma Clean_TrimLeft (root t : string) :
  root ≠ EmptyString ->
  Path.Clean (root +:+ String "/" (Strings.TrimLeft t "/"))
  = Path.Clean (root +:+ String "/" t).
Proof.
  intros Hroot. destruct root as [|c root]; [done|].
  rewrite !append_cons, !Clean_cons. cbv zeta.
  rewrite <- !append_cons.
  rewrite !Split_app, !fold_left_app, clean_fold_TrimLeft.
  reflexivity.
Qed.

Lemma Join_root (root x : string) :
  root ≠ EmptyString ->
  Path.Join [root; x] = Path.Clean (root +:+ String "/" x).
Proof.
  intros Hroot. unfold Path.Join. simpl.
  rewrite (bool_decide_eq_false_2 _ Hroot). simpl.
  rewrite (bool_decide_eq_false_2 _ Hroot).
  by rewrite append_assoc.
Qed.

(** Under a non-empty root, stripping every leading slash and stripping one
    give the same joined path. *)
Lemma Join_TrimLeft_TrimPrefix (root hostPath : string) :
  root ≠ EmptyString ->
  Strings.HasPrefix hostPath "/" = true ->
  Path.Join [root; Strings.TrimLeft hostPath "/"]
  = Path.Join [root; Strings.TrimPrefix hostPath "/"].
Proof.
  intros Hroot Habs.
  unfold Strings.TrimPrefix. rewrite Habs.
  destruct (prefix_elim _ _ Habs) as [t ->]. simpl.
  rewrite !Join_root by done. apply Clean_TrimLeft; done.
Qed.

(** ** The path translator (proxy.go, [translateHostPath]) *)
Section TranslateFacts.

Variable Output : string -> list string -> string * option error.

Lemma translateHostPath_mnt_wsl (p : Proxy.podmanProxy) (hostPath : string) :
  Strings.HasPrefix hostPath "/mnt/wsl/" = true ->
  Proxy.translateHostPath Output p hostPath = (hostPath, None).
Proof. intros H. unfold Proxy.translateHostPath. by rewrite H. Qed.

(** C6.  A path that already begins with the shared-mount prefix
    "/mnt/wsl/" is returned unchanged and without an error, whatever the
    collaborator would answer; so is a path that begins with the proxy's
    shared root, the shared root lying under that prefix (as every root
    [main] builds does). *)
Theorem translateHostPath_already_translated
    (p : Proxy.podmanProxy) (hostPath : string) :
  Strings.HasPrefix hostPath "/mnt/wsl/" = true
  \/ (Strings.HasPrefix (Proxy.sharedRoot p) "/mnt/wsl/" = true
      /\ Strings.HasPrefix hostPath (Proxy.sharedRoot p) = true) ->
  Proxy.translateHostPath Output p hostPath = (hostPath, None).
Proof.
  intros [H | [Hroot H]]; apply translateHostPath_mnt_wsl; [done|].
  eapply HasPrefix_trans; eauto.
Qed.

(** C2.  For a host path outside the shared-mount prefix the translator
    asks the collaborator ([wslpath -aw]).  When the answer begins with
    \\wsl.localhost\ the result is the BadPathFormat error for a path that
    is not absolute, and otherwise the shared root joined with the path
    less one leading slash; when the answer does not begin with that
    prefix it is returned as it is, without an error.  The shared root is
    not empty ([main] builds it with [getSharedMountpoint]). *)
Theorem translateHostPath_converted
    (p : Proxy.podmanProxy) (hostPath winPath : string) :
  Proxy.sharedRoot p ≠ EmptyString ->
  Strings.HasPrefix hostPath "/mnt/wsl/" = false ->
  Output "wslpath" ["-aw"; hostPath] = (winPath, None) ->
  (Strings.HasPrefix winPath "\\wsl.localhost\" = true ->
     (Strings.HasPrefix hostPath "/" = false ->
        Proxy.translateHostPath Output p hostPath
        = (EmptyString, Some (Proxy.BadPathFormat hostPath)))
     /\ (Strings.HasPrefix hostPath "/" = true ->
           Proxy.translateHostPath Output p hostPath
           = (Path.Join [Proxy.sharedRoot p; Strings.TrimPrefix hostPath "/"],
              None)))
  /\ (Strings.HasPrefix winPath "\\wsl.localhost\" = false ->
        Proxy.translateHostPath Output p hostPath = (winPath, None)).
Proof.
  intros Hroot Hout Hwin.
  unfold Proxy.translateHostPath, Wslpath.ToWindows, Wslpath.runCommand.
  rewrite Hout, Hwin.
  split.
  - intros Hlocal; rewrite Hlocal. split; intros Habs; rewrite Habs; simpl.
    + reflexivity.
    + by rewrite Join_TrimLeft_TrimPrefix.
  - intros Hforeign; by rewrite Hforeign.
Qed.

(** The collaborator's failure is the translator's. *)
Lemma translateHostPath_collaborator_error
    (p : Proxy.podmanProxy) (hostPath out : string) (e : error) :
  Strings.HasPrefix hostPath "/mnt/wsl/" = false ->
  Output "wslpath" ["-aw"; hostPath] = (out, Some e) ->
  Proxy.translateHostPath Output p hostPath = (EmptyString, Some e).
Proof.
  intros Hout Hwin.
  unfold Proxy.translateHostPath, Wslpath.ToWindows, Wslpath.runCommand.
  by rewrite Hout, Hwin.
Qed.

End TranslateFacts.

Lemma translateHostPath_already_translated_witness :
  (Strings.HasPrefix "/mnt/wsl/distro-roots/Ubuntu/home/user/data" "/mnt/wsl/" = true
   \/ (Strings.HasPrefix (Proxy.sharedRoot Sample.proxy) "/mnt/wsl/" = true
       /\ Strings.HasPrefix "/mnt/wsl/distro-roots/Ubuntu/home/user/data"
            (Proxy.sharedRoot Sample.proxy) = true))
  /\ Proxy.translateHostPath Sample.Output Sample.proxy
       "/mnt/wsl/distro-roots/Ubuntu/home/user/data"
     = ("/mnt/wsl/distro-roots/Ubuntu/home/user/data", None).
Proof.
  assert (Strings.HasPrefix "/mnt/wsl/distro-roots/Ubuntu/home/user/data" "/mnt/wsl/" = true
   \/ (Strings.HasPrefix (Proxy.sharedRoot Sample.proxy) "/mnt/wsl/" = true
       /\ Strings.HasPrefix "/mnt/wsl/distro-roots/Ubuntu/home/user/data"
            (Proxy.sharedRoot Sample.proxy) = true)) as H
    by (right; split; reflexivity).
  split; [exact H|].
  exact (translateHostPath_already_translated Sample.Output Sample.proxy _ H).
Defined.

Lemma translateHostPath_converted_witness :
  (Proxy.sharedRoot Sample.proxy ≠ EmptyString
   /\ Strings.HasPrefix "//home/user/data" "/mnt/wsl/" = false
   /\ Sample.Output "wslpath" ["-aw"; "//home/user/data"]
      = ("\\wsl.localhost\Ubuntu\\home\user\data", None)
   /\ Strings.HasPrefix "\\wsl.localhost\Ubuntu\\home\user\data" "\\wsl.localhost\" = true
   /\ Strings.HasPrefix "//home/user/data" "/" = true)
  /\ Proxy.translateHostPath Sample.Output Sample.proxy "//home/user/data"
     = ("/mnt/wsl/distro-roots/Ubuntu/home/user/data", None).
Proof.
  split; [repeat split; discriminate|].
  apply (proj2 (proj1
    (translateHostPath_converted Sample.Output Sample.proxy "//home/user/data"
       "\\wsl.localhost\Ubuntu\\home\user\data"
       ltac:(discriminate) eq_refl eq_refl) eq_refl)).
  reflexivity.
Defined.

(** With an empty shared root, which [main] never passes, the two ways of
    stripping part: the code strips every leading slash. *)
Example translateHostPath_empty_root :
  Proxy.translateHostPath Sample.Output (Proxy.NewPodmanProxy "" "" "") "//srv"
  = ("srv", None)
  /\ Path.Join [EmptyString; Strings.TrimPrefix "//srv" "/"] = "/srv".
Proof. split; reflexivity. Qed.

(** ** The body rewriter (proxy.go) *)
Section RewriteFacts.

Variable Output : string -> list string -> string * option error.
Variable p : Proxy.podmanProxy.

(** *** [mangleDockerVolumes] *)

Lemma insert_head (parts : list string) (x : string) :
  parts ≠ [] -> <[0%nat := x]> parts = x :: tl parts.
Proof. by destruct parts. Qed.

Lemma head_lookup (parts : list string) :
  default EmptyString (parts !! 0%nat) = hd EmptyString parts.
Proof. by destruct parts. Qed.

(** When every host segment translates, the loop appends one element for each
    bind, in order: a string with its first segment translated, and the
    empty string for any other value. *)
Lemma mangleBinds_translated (binds acc : list any) :
  (forall s, VString s ∈ binds ->
     snd (Proxy.translateHostPath Output p
            (hd EmptyString (Strings.Split s ":"))) = None) ->
  Proxy.mangleBinds Output p binds acc
  = (acc ++ map (Spec.rewritten_bind (Proxy.translateHostPath Output p)) binds,
     None).
Proof.
  revert acc; induction binds as [|v rest IH]; intros acc Hok.
  - simpl. by rewrite app_nil_r.
  - assert (forall x, Proxy.mangleBinds Output p rest (acc ++ [x])
              = (acc ++ x :: map (Spec.rewritten_bind
                                    (Proxy.translateHostPath Output p)) rest,
                 None)) as Hnext.
    { intros x. rewrite IH, <- app_assoc; [done|].
      intros s Hs; apply Hok; by right. }
    destruct v as [ | b | lit | s | l | | m | l | l];
      try (by apply (Hnext (VString EmptyString))).
    pose proof (Hok s ltac:(by left)) as Hs.
    cbn [Proxy.mangleBinds map Spec.rewritten_bind]. rewrite head_lookup.
    destruct (Proxy.translateHostPath Output p
                (hd EmptyString (Strings.Split s ":"))) as [t err].
    simpl in Hs; subst err. cbn [fst].
    rewrite insert_head by apply Split_nonempty. apply Hnext.
Qed.

(** What the rewrite stores when every host segment translates: an array of
    the same length in which, position by position, a string is the original
    with its first colon-separated segment replaced by its translation, and
    the empty string stands where the original held any other value. *)
Lemma mangleDockerVolumes_rewrites_binds
    (body hostConfig : gmap string any) (binds : list any) :
  body !! "HostConfig" = Some (VMap hostConfig) ->
  hostConfig !! "Binds" = Some (VSlice binds) ->
  binds ≠ [] ->
  (forall s, VString s ∈ binds ->
     snd (Proxy.translateHostPath Output p
            (hd EmptyString (Strings.Split s ":"))) = None) ->
  exists newBinds : list any,
    Proxy.mangleDockerVolumes Output p body
    = (<["HostConfig" := VMap (<["Binds" := VSlice newBinds]> hostConfig)]> body,
       None)
    /\ List.length newBinds = List.length binds
    /\ forall (i : nat) (v : any), binds !! i = Some v ->
         match v with
         | VString s =>
             newBinds !! i
             = Some (VString
                 (Strings.Join
                    (fst (Proxy.translateHostPath Output p
                            (hd EmptyString (Strings.Split s ":")))
                       :: tl (Strings.Split s ":")) ":"))
         | _ => newBinds !! i = Some (VString EmptyString)
         end.
Proof.
  intros Hhc Hbinds Hne Hok.
  exists (map (Spec.rewritten_bind (Proxy.translateHostPath Output p)) binds).
  unfold Proxy.mangleDockerVolumes.
  rewrite Hhc. cbn [assert_map]. rewrite Hbinds. cbn [assert_slice].
  rewrite (mangleBinds_translated binds [] Hok). cbn [app].
  assert (appended (map (Spec.rewritten_bind (Proxy.translateHostPath Output p)) binds)
          = VSlice (map (Spec.rewritten_bind (Proxy.translateHostPath Output p)) binds))
    as -> by by destruct binds.
  repeat split; [by rewrite length_map|].
  intros i v Hi. rewrite list_lookup_fmap, Hi. by destruct v.
Qed.

(** A translation that fails makes the rewrite fail with that error, and the
    body is as it was. *)
Lemma mangleBinds_error (binds acc : list any) (e : error) :
  snd (Proxy.mangleBinds Output p binds acc) = Some e ->
  exists s, VString s ∈ binds
    /\ snd (Proxy.translateHostPath Output p
              (hd EmptyString (Strings.Split s ":"))) = Some e.
Proof.
  revert acc; induction binds as [|v rest IH]; intros acc H; [done|].
  assert (snd (Proxy.mangleBinds Output p rest (acc ++ [VString EmptyString]))
          = Some e ->
          exists s, VString s ∈ v :: rest
            /\ snd (Proxy.translateHostPath Output p
                      (hd EmptyString (Strings.Split s ":"))) = Some e) as Hskip.
  { intros H'. destruct (IH _ H') as (s & Hs & He). exists s; split; [by right|done]. }
  destruct v as [ | b | lit | s | l | | m | l | l]; try (by apply Hskip).
  cbn [Proxy.mangleBinds] in H. rewrite head_lookup in H.
  destruct (Proxy.translateHostPath Output p
              (hd EmptyString (Strings.Split s ":"))) as [t [e'|]] eqn:Et.
  - simpl in H. injection H as <-. exists s. rewrite Et. split; [by left|done].
  - destruct (IH _ H) as (s' & Hs' & He'). exists s'; split; [by right|done].
Qed.

(** C5.  When the body has no [HostConfig], or its [HostConfig] has no
    [Binds], the rewrite returns no error and the body is unchanged. *)
Theorem mangleDockerVolumes_missing_field (body : gmap string any) :
  body !! "HostConfig" = None
  \/ (exists hostConfig : gmap string any,
        body !! "HostConfig" = Some (VMap hostConfig)
        /\ hostConfig !! "Binds" = None) ->
  Proxy.mangleDockerVolumes Output p body = (body, None).
Proof.
  intros [H | (hostConfig & H & Hb)]; unfold Proxy.mangleDockerVolumes;
    rewrite H; [done|]. cbn [assert_map]. by rewrite Hb.
Qed.

(** The same holds when either field holds a value of another type. *)
Lemma mangleDockerVolumes_other_types (body : gmap string any) :
  (forall hostConfig, body !! "HostConfig" = Some (VMap hostConfig) ->
     assert_slice (hostConfig !! "Binds") = None) ->
  Proxy.mangleDockerVolumes Output p body = (body, None).
Proof.
  intros H. unfold Proxy.mangleDockerVolumes.
  destruct (body !! "HostConfig") as [[ | | | | | | hostConfig | | ]|]; try done.
  cbn [assert_map]. by rewrite (H hostConfig eq_refl).
Qed.

(** An empty [Binds] array is replaced by the nil slice [newBinds] still is
    after a loop without a turn. *)
Lemma mangleDockerVolumes_empty_binds (body hostConfig : gmap string any) :
  body !! "HostConfig" = Some (VMap hostConfig) ->
  hostConfig !! "Binds" = Some (VSlice []) ->
  Proxy.mangleDockerVolumes Output p body
  = (<["HostConfig" := VMap (<["Binds" := VNilSlice]> hostConfig)]> body, None).
Proof.
  intros Hhc Hbinds. unfold Proxy.mangleDockerVolumes.
  rewrite Hhc. cbn [assert_map]. by rewrite Hbinds.
Qed.

End RewriteFacts.

(** C4.  On the body
    {"Image":"alpine","HostConfig":{"Binds":["/home/user/data:/data:ro",
    null,"/mnt/c/x:/x",7],"Memory":9007199254740993}}
    the rewrite succeeds and the array keeps its length and the two strings
    their places, each with its host segment translated; but where the array
    held null and 7 it now holds the empty string: the [else] branch appends
    the string variable of the failed assertion, not the entry. *)
Theorem mangleDockerVolumes_blanks_other_entries :
  decoded_object Sample.docker_hostConfig !! "Binds"
  = Some (VSlice [VString "/home/user/data:/data:ro"; VNil;
                  VString "/mnt/c/x:/x"; VNumber "7"])
  /\ Proxy.mangleDockerVolumes Sample.Output Sample.proxy
       (decoded_object Sample.docker_body)
     = (<["HostConfig" :=
            VMap (<["Binds" :=
                      VSlice [VString "/mnt/wsl/distro-roots/Ubuntu/home/user/data:/data:ro";
                              VString EmptyString;
                              VString "C:\x:/x";
                              VString EmptyString]]>
                    (decoded_object Sample.docker_hostConfig))]>
          (decoded_object Sample.docker_body), None).
Proof. split; vm_compute; reflexivity. Qed.

Lemma mangleDockerVolumes_missing_field_witness :
  (decoded_object [("Image", JString "alpine")] !! "HostConfig" = None
   \/ exists hostConfig : gmap string any,
        decoded_object [("Image", JString "alpine")] !! "HostConfig"
        = Some (VMap hostConfig)
        /\ hostConfig !! "Binds" = None)
  /\ Proxy.mangleDockerVolumes Sample.Output Sample.proxy
       (decoded_object [("Image", JString "alpine")])
     = (decoded_object [("Image", JString "alpine")], None).
Proof.
  assert (decoded_object [("Image", JString "alpine")] !! "HostConfig" = None
   \/ exists hostConfig : gmap string any,
        decoded_object [("Image", JString "alpine")] !! "HostConfig"
        = Some (VMap hostConfig)
        /\ hostConfig !! "Binds" = None) as H by (left; reflexivity).
  split; [exact H|].
  exact (mangleDockerVolumes_missing_field Sample.Output Sample.proxy _ H).
Defined.

(** *** [mangleLibpodVolumes] *)
Section LibpodFacts.

Variable Output : string -> list string -> string * option error.
Variable p : Proxy.podmanProxy.

(** The decoder never stores a [[]map[string]string]. *)
Lemma decoded_not_mount_slice (j : json) (l : list (gmap string string)) :
  decoded j ≠ VStringMapSlice l.
Proof. destruct j; discriminate. Qed.

Lemma decoded_object_lookup (members : list (string * json)) (k : string) (v : any) :
  decoded_object members !! k = Some v -> exists j, v = decoded j.
Proof.
  unfold decoded_object.
  assert (forall m : gmap string any,
            (forall k v, m !! k = Some v -> exists j, v = decoded j) ->
            forall k v,
              fold_left (fun m kv => <[fst kv := decoded (snd kv)]> m) members m !! k
              = Some v ->
              exists j, v = decoded j) as Hfold.
  { induction members as [|[k0 j0] members IH]; intros m Hm k' v' H; simpl in H.
    - by apply (Hm k').
    - apply (IH (<[k0 := decoded j0]> m)) in H; [done|].
      intros k1 v1. rewrite lookup_insert. case_decide.
      + intros [= <-]. by exists j0.
      + apply Hm. }
  apply Hfold. intros k' v'. by rewrite lookup_empty.
Qed.

(** On a body decoded from JSON the assertion
    [body["mounts"].([]map[string]string)] fails, whatever [mounts] holds:
    the function returns at once, with the body as it was. *)
Lemma mangleLibpodVolumes_decoded (members : list (string * json)) :
  Proxy.mangleLibpodVolumes Output p (decoded_object members)
  = (decoded_object members, None).
Proof.
  unfold Proxy.mangleLibpodVolumes.
  destruct (decoded_object members !! "mounts") as [v|] eqn:E; [|done].
  destruct (decoded_object_lookup _ _ _ E) as [j ->].
  destruct j; done.
Qed.

(** On a value of the asserted type, the loop leaves every mount whose type
    is not "bind" as it was, also when it stops on an error. *)
Lemma mangleMounts_keeps_other_types (mounts : list (gmap string string)) :
  List.length (fst (Proxy.mangleMounts Output p mounts)) = List.length mounts
  /\ forall (i : nat) (mount : gmap string string),
       mounts !! i = Some mount ->
       Proxy.index mount "type" ≠ "bind" ->
       fst (Proxy.mangleMounts Output p mounts) !! i = Some mount.
Proof.
  induction mounts as [|m rest [IHlen IHget]]; [done|].
  cbn [Proxy.mangleMounts].
  destruct (Proxy.mangleMounts Output p rest) as [rest' err'].
  simpl in IHlen, IHget.
  destruct (decide (Proxy.index m "type" ≠ "bind")) as [Hm|Hm].
  - simpl. split; [by rewrite IHlen|].
    intros [|i] mount Hi Hty; simpl in *; [done | by apply IHget].
  - destruct (Proxy.translateHostPath Output p (Proxy.index m "source"))
      as [t [e|]]; simpl.
    + split; [done|]. intros [|i] mount Hi Hty; simpl in *; [|done].
      injection Hi as <-. done.
    + split; [by rewrite IHlen|].
      intros [|i] mount Hi Hty; simpl in *; [|by apply IHget].
      injection Hi as <-. done.
Qed.

(** In the Go service no mount whose type is not "bind" has its source
    changed: not in a decoded body, which is returned as it was, and not in
    a body holding a [[]map[string]string]. *)
Lemma mangleLibpodVolumes_keeps_other_types
    (body : gmap string any) (mounts : list (gmap string string)) :
  body !! "mounts" = Some (VStringMapSlice mounts) ->
  exists mounts' : list (gmap string string),
    fst (Proxy.mangleLibpodVolumes Output p body) !! "mounts"
    = Some (VStringMapSlice mounts')
    /\ List.length mounts' = List.length mounts
    /\ forall (i : nat) (mount : gmap string string),
         mounts !! i = Some mount ->
         Proxy.index mount "type" ≠ "bind" ->
         mounts' !! i = Some mount.
Proof.
  intros Hm. unfold Proxy.mangleLibpodVolumes. rewrite Hm.
  cbn [assert_map_slice].
  destruct (mangleMounts_keeps_other_types mounts) as [Hlen Hget].
  destruct (Proxy.mangleMounts Output p mounts) as [mounts' err].
  exists mounts'. simpl. by rewrite lookup_insert_eq.
Qed.

End LibpodFacts.

(** C1.  The Go service on the body
    {"image":"alpine","mounts":[{"destination":"/data","type":"bind",
    "source":"/home/user/data"}]}: the translator maps the source to
    /mnt/wsl/distro-roots/Ubuntu/home/user/data, and [mangleLibpodVolumes]
    returns no error and leaves the source as it was. *)
Theorem mangleLibpodVolumes_bind_source_kept :
  Proxy.translateHostPath Sample.Output Sample.proxy "/home/user/data"
  = ("/mnt/wsl/distro-roots/Ubuntu/home/user/data", None)
  /\ decoded_object Sample.libpod_body !! "mounts"
     = Some (VSlice
               [VMap (<["destination" := VString "/data"]>
                        (<["type" := VString "bind"]>
                           (<["source" := VString "/home/user/data"]> ∅)))])
  /\ Proxy.mangleLibpodVolumes Sample.Output Sample.proxy
       (decoded_object Sample.libpod_body)
     = (decoded_object Sample.libpod_body, None).
Proof.
  split; [reflexivity|]. split; [vm_compute; reflexivity|].
  apply mangleLibpodVolumes_decoded.
Qed.

(** The loop itself does translate bind mounts, when it is reached. *)
Example mangleLibpodVolumes_typed :
  Proxy.mangleLibpodVolumes Sample.Output Sample.proxy Sample.typed_body
  = (<["mounts" :=
         VStringMapSlice
           [ <["type" := "tmpfs"]> (<["source" := "/home/user/cache"]> ∅);
             <["type" := "bind"]>
               (<["source" := "/mnt/wsl/distro-roots/Ubuntu/home/user/data"]> ∅) ]]>
       ∅, None).
Proof. vm_compute. reflexivity. Qed.

(** *** The Node service's [patchVolumesLibpod] *)
Section PatchFacts.

Variable sharedRoot : string.
Variable execFileSync : string -> list string -> string + IndexMjs.exception.
Variable trim : string -> string.
Variable path_join : list string -> string.

Local Abbreviation translate :=
  (IndexMjs.translateHostPath sharedRoot execFileSync trim path_join).
Local Abbreviation patchMounts :=
  (IndexMjs.patchMounts sharedRoot execFileSync trim path_join).

(** When the loop ends without an exception, every element was an object
    whose source, a string, has been replaced by its translation: the type
    of the element is not read. *)
Lemma patchMounts_rewrites_every_source (mounts mounts' : list IndexMjs.jsval) :
  patchMounts mounts = (mounts', None) ->
  List.length mounts' = List.length mounts
  /\ forall (i : nat) (mount : IndexMjs.jsval),
       mounts !! i = Some mount ->
       exists (props : list (string * IndexMjs.jsval)) (src new : string),
         mount = IndexMjs.Object props
         /\ IndexMjs.lookup_prop props "source" = IndexMjs.Str src
         /\ translate (IndexMjs.Str src) = inl new
         /\ mounts' !! i
            = Some (IndexMjs.Object
                      (IndexMjs.assign_prop props "source" (IndexMjs.Str new))).
Proof.
  revert mounts'; induction mounts as [|m rest IH]; intros mounts' H.
  - injection H as <-. split; [done|]. intros i mount Hi. done.
  - cbn [IndexMjs.patchMounts] in H.
    destruct (IndexMjs.get m "source") as [hostPath|e] eqn:Eget; [|done].
    destruct (translate hostPath) as [new|e] eqn:Etr; [|done].
    destruct m as [ | | b | lit | s | elems | props]; try done.
    simpl in Eget. injection Eget as <-.
    destruct (IndexMjs.lookup_prop props "source")
      as [ | | b | lit | src | elems | props'] eqn:Esrc; try done.
    simpl in H.
    destruct (patchMounts rest) as [rest' err] eqn:Erest.
    injection H as <- ->.
    destruct (IH rest' eq_refl) as [Hlen Hget].
    split; [simpl; by rewrite Hlen|].
    intros [|i] mount Hi; simpl in Hi.
    + injection Hi as <-. exists props, src, new. by rewrite Esrc.
    + simpl. by apply Hget.
Qed.

End PatchFacts.

(** C7.  The Node service on a mounts array whose first element has type
    "volume": the loop ends without an exception and the source of that
    element, /mnt/c/cache, has become C:\cache.  On a tmpfs mount, whose
    source is the word tmpfs, the translator is called all the same and
    throws its path-format error. *)
Theorem patchVolumesLibpod_rewrites_other_types :
  IndexMjs.patchVolumesLibpod (IndexMjs.getSharedMountpoint "Ubuntu")
    Sample.execFileSync Sample.trim Sample.path_join Sample.js_libpod_body
  = (IndexMjs.Object
       [("mounts",
         IndexMjs.Array
           [IndexMjs.Object [("destination", IndexMjs.Str "/cache");
                             ("type", IndexMjs.Str "volume");
                             ("source", IndexMjs.Str "C:\cache")];
            IndexMjs.Object
              [("destination", IndexMjs.Str "/data");
               ("type", IndexMjs.Str "bind");
               ("source",
                IndexMjs.Str "/mnt/wsl/distro-roots/Ubuntu/home/user/data")]])],
     None)
  /\ IndexMjs.patchVolumesLibpod (IndexMjs.getSharedMountpoint "Ubuntu")
       Sample.execFileSync Sample.trim Sample.path_join Sample.js_tmpfs_body
     = (Sample.js_tmpfs_body, Some (IndexMjs.BadPathFormat "tmpfs")).
Proof. split; vm_compute; reflexivity. Qed.

(** ** The start-up probe (proxy.go [TestUpstreamSocket], main.go) *)
Section ProbeFacts.

Variable client_Get : string -> Proxy.get_result.
Variable Serve : Proxy.podmanProxy -> option error.

(** A probe that cannot be sent is an error, and [main] ends before
    [Serve]. *)
Lemma TestUpstreamSocket_get_failed
    (args : Main.Args) (mountPoint : string) (err : error) :
  client_Get "http://d/_ping" = Proxy.GetFailed err ->
  Main.main client_Get Serve args mountPoint = Main.FatalUpstream err
  /\ Main.served (Main.main client_Get Serve args mountPoint) = false.
Proof.
  intros H. unfold Main.main, Proxy.TestUpstreamSocket. by rewrite H.
Qed.

(** A response whose status is not 200 makes [TestUpstreamSocket] return
    [err], which is [nil] at that point: [main] goes on to [Serve]. *)
Lemma TestUpstreamSocket_status_not_ok
    (args : Main.Args) (mountPoint : string) (resp : Proxy.Response) :
  client_Get "http://d/_ping" = Proxy.GetResponse resp ->
  Proxy.StatusCode resp ≠ Proxy.StatusOK ->
  Proxy.TestUpstreamSocket client_Get
    (Proxy.NewPodmanProxy mountPoint (Main.UpstreamSocket args)
       (Main.DownstreamSocket args)) = None
  /\ Main.served (Main.main client_Get Serve args mountPoint) = true.
Proof.
  intros H Hst. unfold Main.main, Proxy.TestUpstreamSocket. rewrite H.
  rewrite decide_True by done. split; [done|].
  by destruct (Serve _).
Qed.

End ProbeFacts.

(** C3.  The upstream answers the probe with status 503: the test reports no
    error and [main] calls [Serve]. *)
Theorem TestUpstreamSocket_accepts_status_503 :
  let client_Get := fun _ : string =>
    Proxy.GetResponse {| Proxy.StatusCode := 503; Proxy.BodyClose := None |} in
  let args :=
    {| Main.LogLevel := "info";
       Main.UpstreamSocket :=
         "/mnt/wsl/podman-sockets/podman-machine-default/podman-root.sock";
       Main.DownstreamSocket := "/run/podman/podman.sock";
       Main.WslDistroName := "Ubuntu";
       Main.NoMountDistroRoot := false |} in
  Proxy.TestUpstreamSocket client_Get Sample.proxy = None
  /\ forall Serve : Proxy.podmanProxy -> option error,
       Main.served
         (Main.main client_Get Serve args (Main.getSharedMountpoint "Ubuntu"))
       = true.
Proof.
  split; [reflexivity|]. intros Serve.
  unfold Main.main. simpl. by destruct (Serve _).
Qed.

(** ** The raw byte forwarder (rawproxy.go) *)
Section ForwardFacts.

Variable world : Type.
Variable conn : Type.
Variable File : conn -> Rawproxy.io world (Z * option error).
Variable FcntlInt : Z -> Z -> Z -> Rawproxy.io world (Z * option error).
Variable Select : Z -> gset Z -> Rawproxy.io world (gset Z * option error).
Variable Read : conn -> nat -> Rawproxy.io world (list Byte.byte * option error).
Variable Write : conn -> list Byte.byte -> Rawproxy.io world (option error).

Local Abbreviation forwardData := (Rawproxy.forwardData world conn Read Write).
Local Abbreviation turn := (Rawproxy.turn world conn Select Read Write).
Local Abbreviation forward := (Rawproxy.forward world conn Select Read Write).

Local Abbreviation would_block := Spec.would_block.

Lemma forwardData_not_ready (readFds : gset Z) (buffer : nat) (fd : Z)
    (src dst : conn) (w : world) :
  fd ∉ readFds -> forwardData readFds buffer fd src dst w = (None, w).
Proof.
  intros H. unfold Rawproxy.forwardData, Rawproxy.FdSet_IsSet.
  by rewrite bool_decide_eq_false_2.
Qed.

Lemma forwardData_read_error (readFds : gset Z) (buffer : nat) (fd : Z)
    (src dst : conn) (w w' : world) (data : list Byte.byte) (err : error) :
  fd ∈ readFds ->
  Read src buffer w = ((data, Some err), w') ->
  forwardData readFds buffer fd src dst w
  = (if would_block err then None else Some err, w').
Proof.
  intros Hfd Hread.
  unfold Rawproxy.forwardData, Rawproxy.FdSet_IsSet, Rawproxy.bind, Spec.would_block.
  rewrite bool_decide_eq_true_2 by done. rewrite Hread. simpl.
  by destruct (_ || _).
Qed.

Lemma forwardData_write_error (readFds : gset Z) (buffer : nat) (fd : Z)
    (src dst : conn) (w w' w'' : world) (data : list Byte.byte) (err : error) :
  fd ∈ readFds ->
  Read src buffer w = ((data, None), w') ->
  data ≠ [] ->
  Write dst data w' = (Some err, w'') ->
  forwardData readFds buffer fd src dst w = (Some err, w'').
Proof.
  intros Hfd Hread Hdata Hwrite.
  unfold Rawproxy.forwardData, Rawproxy.FdSet_IsSet, Rawproxy.bind.
  rewrite bool_decide_eq_true_2 by done. rewrite Hread. simpl.
  destruct data as [|b data]; [done|]. simpl. by rewrite Hwrite.
Qed.

(** What a turn of the loop returns, from what [forwardData] returns for
    each side. *)
Lemma turn_unfold (fd1 fd2 : Z) (c1 c2 : conn) (buffer : nat)
    (w w1 : world) (readFds : gset Z) :
  Select (Z.max fd1 fd2 + 1)
    (Rawproxy.FdSet_Set (Rawproxy.FdSet_Set ∅ fd1) fd2) w
  = ((readFds, None), w1) ->
  turn fd1 fd2 c1 c2 buffer w
  = match forwardData readFds buffer fd1 c1 c2 w1 with
    | (Some err, w2) => (Some err, w2)
    | (None, w2) => forwardData readFds buffer fd2 c2 c1 w2
    end.
Proof.
  intros Hsel. unfold Rawproxy.turn, Rawproxy.bind. rewrite Hsel. simpl.
  destruct (forwardData readFds buffer fd1 c1 c2 w1) as [[e1|] w2]; [done|].
  unfold Rawproxy.ret.
  by destruct (forwardData readFds buffer fd2 c2 c1 w2) as [[e2|] w3].
Qed.

Lemma forward_unfold (turns : nat) (fd1 fd2 : Z) (c1 c2 : conn) (buffer : nat)
    (w : world) :
  forward (S turns) fd1 fd2 c1 c2 buffer w
  = match turn fd1 fd2 c1 c2 buffer w with
    | (Some err, w') => (Some err, w')
    | (None, w') => forward turns fd1 fd2 c1 c2 buffer w'
    end.
Proof.
  cbn [Rawproxy.forward]. unfold Rawproxy.bind.
  by destruct (turn fd1 fd2 c1 c2 buffer w) as [[e|] w'].
Qed.

(** C8.  In a turn of the loop in which [Select] has succeeded:
    - for a ready descriptor, on either side, a read that fails makes
      [forwardData] return no error when the error is EAGAIN or EWOULDBLOCK
      and that error otherwise, and a write that fails makes it return the
      write's error;
    - an error [forwardData] returns for either side ends the loop, which
      returns that error;
    - when [forwardData] returns no error for both sides the loop goes
      round again. *)
Theorem forwardData_error_policy
    (turns : nat) (fd1 fd2 : Z) (c1 c2 : conn) (buffer : nat)
    (w w1 : world) (readFds : gset Z) :
  Select (Z.max fd1 fd2 + 1)
    (Rawproxy.FdSet_Set (Rawproxy.FdSet_Set ∅ fd1) fd2) w
  = ((readFds, None), w1) ->
  (forall (fd : Z) (src dst : conn) (wa wb : world)
          (data : list Byte.byte) (err : error),
     fd ∈ readFds ->
     Read src buffer wa = ((data, Some err), wb) ->
     forwardData readFds buffer fd src dst wa
     = (if would_block err then None else Some err, wb))
  /\ (forall (fd : Z) (src dst : conn) (wa wb wc : world)
             (data : list Byte.byte) (err : error),
        fd ∈ readFds ->
        Read src buffer wa = ((data, None), wb) ->
        data ≠ [] ->
        Write dst data wb = (Some err, wc) ->
        forwardData readFds buffer fd src dst wa = (Some err, wc))
  /\ (forall (err : error) (w2 : world),
        forwardData readFds buffer fd1 c1 c2 w1 = (Some err, w2) ->
        forward (S turns) fd1 fd2 c1 c2 buffer w = (Some err, w2))
  /\ (forall (err : error) (w2 w3 : world),
        forwardData readFds buffer fd1 c1 c2 w1 = (None, w2) ->
        forwardData readFds buffer fd2 c2 c1 w2 = (Some err, w3) ->
        forward (S turns) fd1 fd2 c1 c2 buffer w = (Some err, w3))
  /\ (forall w2 w3 : world,
        forwardData readFds buffer fd1 c1 c2 w1 = (None, w2) ->
        forwardData readFds buffer fd2 c2 c1 w2 = (None, w3) ->
        forward (S turns) fd1 fd2 c1 c2 buffer w
        = forward turns fd1 fd2 c1 c2 buffer w3).
Proof.
  intros Hsel. rewrite forward_unfold, (turn_unfold _ _ _ _ _ _ _ _ Hsel).
  split; [|split; [|split; [|split]]].
  - intros fd src dst wa wb data err Hfd Hread.
    by apply forwardData_read_error with (data := data).
  - intros fd src dst wa wb wc data err Hfd Hread Hdata Hwrite.
    by apply forwardData_write_error with (w' := wb) (data := data).
  - by intros err w2 ->.
  - by intros err w2 w3 -> ->.
  - by intros w2 w3 -> ->.
Qed.

(** [ProxyFileConn] returns to its caller what the loop returns. *)
Lemma ProxyFileConn_returns_loop_error
    (turns : nat) (c1 c2 : conn) (fd1 fd2 flags1 flags2 x1 x2 : Z)
    (w0 w1 w2 w3 w4 w5 w6 : world) :
  File c1 w0 = ((fd1, None), w1) ->
  File c2 w1 = ((fd2, None), w2) ->
  FcntlInt fd1 Rawproxy.F_GETFL 0 w2 = ((flags1, None), w3) ->
  FcntlInt fd1 Rawproxy.F_SETFL (Z.lor flags1 Rawproxy.O_NONBLOCK) w3
  = ((x1, None), w4) ->
  FcntlInt fd2 Rawproxy.F_GETFL 0 w4 = ((flags2, None), w5) ->
  FcntlInt fd2 Rawproxy.F_SETFL (Z.lor flags2 Rawproxy.O_NONBLOCK) w5
  = ((x2, None), w6) ->
  Rawproxy.ProxyFileConn world conn File FcntlInt Select Read Write turns c1 c2 w0
  = forward turns fd1 fd2 c1 c2 4096 w6.
Proof.
  intros H1 H2 H3 H4 H5 H6.
  unfold Rawproxy.ProxyFileConn, Rawproxy.getConnFd, Rawproxy.setNonBlocking,
    Rawproxy.bind, Rawproxy.ret.
  rewrite H1; simpl. rewrite H2; simpl. rewrite H3; simpl. rewrite H4; simpl.
  rewrite H5; simpl. by rewrite H6.
Qed.

End ForwardFacts.

(** On the scripted world: in the first turn connection [true] would block
    and the byte of connection [false] is forwarded; in the second turn the
    two bytes of connection [true] are forwarded and the read on connection
    [false] fails with ECONNRESET, which the loop returns. *)
Lemma forwardData_error_policy_witness :
  Sample.Select (Z.max 7 8 + 1)
    (Rawproxy.FdSet_Set (Rawproxy.FdSet_Set ∅ 7) 8) Sample.script
  = ((Rawproxy.FdSet_Set (Rawproxy.FdSet_Set ∅ 7) 8, None), Sample.script)
  /\ Rawproxy.forwardData Sample.world bool Sample.Read Sample.Write
       (Rawproxy.FdSet_Set (Rawproxy.FdSet_Set ∅ 7) 8) 4096 7 true false
       Sample.script
     = (None,
        {| Sample.reads_true := [([Byte.x68; Byte.x69], None)];
           Sample.reads_false := Sample.reads_false Sample.script;
           Sample.written_true := [];
           Sample.written_false := [] |}).
Proof.
  split; [reflexivity|].
  apply (proj1 (forwardData_error_policy Sample.world bool Sample.Select
                  Sample.Read Sample.Write 1 7 8 true false 4096
                  Sample.script Sample.script
                  (Rawproxy.FdSet_Set (Rawproxy.FdSet_Set ∅ 7) 8) eq_refl)
           7 true false Sample.script _ []
           (OpError "read" (SyscallError "read" (Errno 11)))).
  - unfold Rawproxy.FdSet_Set. set_solver.
  - reflexivity.
Defined.

Example ProxyFileConn_script :
  Rawproxy.ProxyFileConn Sample.world bool Sample.File Sample.FcntlInt
    Sample.Select Sample.Read Sample.Write 5 true false Sample.script
  = (Some (OpError "read" (SyscallError "read" (Errno 104))),
     {| Sample.reads_true := [];
        Sample.reads_false := [];
        Sample.written_true := [Byte.x21];
        Sample.written_false := [Byte.x68; Byte.x69] |}).
Proof. vm_compute. reflexivity. Qed.

(** ** The request handler (proxy.go [ServeHTTP]) *)
Section HandlerFacts.

Variable Output : string -> list string -> string * option error.
Variable parse : string -> json + error.
Variable Marshal : gomap -> string * option error.
Variable p : Proxy.podmanProxy.

Local Abbreviation ServeHTTP := (Proxy.ServeHTTP Output parse Marshal p).

Lemma Header_Get_absent (h : gmap string (list string)) (key : string) :
  h !! key = None -> Proxy.Header_Get h key = EmptyString.
Proof. intros H. unfold Proxy.Header_Get. by rewrite H. Qed.

(** Past the two tests: what the handler does once it has decided to
    rewrite. *)
Lemma ServeHTTP_rewrites (r : Proxy.Request) :
  Proxy.Method r = "POST" ->
  Spec.creation_endpoint (Spec.normalized (Proxy.URL_Path r)) ->
  Proxy.Header_Get (Proxy.Header r) "Content-Type" = "application/json"
  \/ Proxy.Header_Get (Proxy.Header r) "Content-Type" = EmptyString ->
  ServeHTTP r
  = match Proxy.BodyReadErr r with
    | Some err => Proxy.HttpError err Proxy.StatusInternalServerError
    | None =>
    match Proxy.BodyCloseErr r with
    | Some err => Proxy.HttpError err Proxy.StatusInternalServerError
    | None =>
    match Proxy.Decode parse (Proxy.Body r) with
    | (_, Some err) => Proxy.HttpError err Proxy.StatusBadRequest
    | (bodyObj, None) =>
    match Spec.rewrite Output p (Spec.normalized (Proxy.URL_Path r)) bodyObj with
    | (_, Some err) => Proxy.HttpError err Proxy.StatusBadRequest
    | (bodyObj', None) =>
    match Marshal bodyObj' with
    | (_, Some err) => Proxy.HttpError err Proxy.StatusInternalServerError
    | (newBody, None) => Proxy.Forwarded (Spec.with_body r newBody)
    end end end end end.
Proof.
  intros Hpost Hpath Hct. unfold Proxy.ServeHTTP.
  fold (Spec.normalized (Proxy.URL_Path r)).
  rewrite Hpost.
  assert (bool_decide ("POST" ≠ "POST") = false) as -> by (by vm_compute).
  assert (bool_decide (Spec.normalized (Proxy.URL_Path r) ≠ "/containers/create")
          && bool_decide (Spec.normalized (Proxy.URL_Path r)
                          ≠ "/libpod/containers/create") = false) as ->.
  { destruct Hpath as [-> | ->]; by vm_compute. }
  assert (bool_decide (Proxy.Header_Get (Proxy.Header r) "Content-Type"
                       ≠ "application/json")
          && bool_decide (Proxy.Header_Get (Proxy.Header r) "Content-Type"
                          ≠ EmptyString) = false) as ->.
  { destruct Hct as [-> | ->]; by vm_compute. }
  cbn [orb].
  destruct (Proxy.BodyReadErr r); [done|].
  destruct (Proxy.BodyCloseErr r); [done|].
  destruct (Proxy.Decode parse (Proxy.Body r)) as [bodyObj [e|]]; [done|].
  unfold Spec.rewrite.
  destruct (if Strings.HasPrefix (Spec.normalized (Proxy.URL_Path r)) "/libpod"
            then on_map (Proxy.mangleLibpodVolumes Output p) bodyObj
            else on_map (Proxy.mangleDockerVolumes Output p) bodyObj)
    as [bodyObj' [e|]]; [done|].
  destruct (Marshal bodyObj') as [newBody [e|]]; [done|].
  unfold Spec.with_body. by rewrite Hpost.
Qed.

(** C10.  A POST to a container-creation endpoint without a Content-Type
    header is handled as JSON.  When the body is read and closed without an
    error: a body the decoder rejects is answered with status 400 and the
    decoder's error; a decoded body is rewritten, and the request is forwarded
    with the encoded rewritten body and its length, a failing rewrite being
    answered with status 400.  The content-type test lets a request through
    as it is only for a content type that is neither empty nor
    application/json. *)
Theorem ServeHTTP_missing_content_type (r : Proxy.Request) :
  Proxy.Method r = "POST" ->
  Spec.creation_endpoint (Spec.normalized (Proxy.URL_Path r)) ->
  (Proxy.Header r !! "Content-Type" = None ->
   Proxy.BodyReadErr r = None ->
   Proxy.BodyCloseErr r = None ->
   (forall (bodyObj : gomap) (err : error),
      Proxy.Decode parse (Proxy.Body r) = (bodyObj, Some err) ->
      ServeHTTP r = Proxy.HttpError err Proxy.StatusBadRequest)
   /\ (forall bodyObj bodyObj' : gomap,
         Proxy.Decode parse (Proxy.Body r) = (bodyObj, None) ->
         (forall err : error,
            Spec.rewrite Output p (Spec.normalized (Proxy.URL_Path r)) bodyObj
            = (bodyObj', Some err) ->
            ServeHTTP r = Proxy.HttpError err Proxy.StatusBadRequest)
         /\ (forall newBody : string,
               Spec.rewrite Output p (Spec.normalized (Proxy.URL_Path r)) bodyObj
               = (bodyObj', None) ->
               Marshal bodyObj' = (newBody, None) ->
               ServeHTTP r = Proxy.Forwarded (Spec.with_body r newBody))))
  /\ (forall contentType : string,
        Proxy.Header_Get (Proxy.Header r) "Content-Type" = contentType ->
        contentType ≠ "application/json" ->
        contentType ≠ EmptyString ->
        ServeHTTP r = Proxy.Forwarded r).
Proof.
  intros Hpost Hpath. split.
  - intros Hct Hread Hclose.
    rewrite ServeHTTP_rewrites
      by (try done; right; by apply Header_Get_absent).
    rewrite Hread, Hclose. split.
    + intros bodyObj err ->. done.
    + intros bodyObj bodyObj' ->. split.
      * intros err ->. done.
      * intros newBody -> ->. done.
  - intros contentType Hct Hjson Hempty. unfold Proxy.ServeHTTP.
    fold (Spec.normalized (Proxy.URL_Path r)).
    rewrite Hpost, Hct.
    assert (bool_decide ("POST" ≠ "POST") = false) as -> by (by vm_compute).
    assert (bool_decide (Spec.normalized (Proxy.URL_Path r) ≠ "/containers/create")
            && bool_decide (Spec.normalized (Proxy.URL_Path r)
                            ≠ "/libpod/containers/create") = false) as ->.
    { destruct Hpath as [-> | ->]; by vm_compute. }
    by rewrite !bool_decide_eq_true_2.
Qed.

End HandlerFacts.

Lemma ServeHTTP_missing_content_type_witness :
  (Proxy.Method (Sample.create_request "{}") = "POST"
   /\ Spec.creation_endpoint
        (Spec.normalized (Proxy.URL_Path (Sample.create_request "{}")))
   /\ Proxy.Header (Sample.create_request "{}") !! "Content-Type" = None)
  /\ Proxy.ServeHTTP Sample.Output Sample.parse Sample.Marshal Sample.proxy
       (Sample.create_request "{}")
     = Proxy.Forwarded (Spec.with_body (Sample.create_request "{}") "{}").
Proof.
  assert (Spec.creation_endpoint
            (Spec.normalized (Proxy.URL_Path (Sample.create_request "{}"))))
    as Hpath by (left; reflexivity).
  split; [repeat split; done|].
  apply (proj2 (proj1 (ServeHTTP_missing_content_type Sample.Output Sample.parse
                  Sample.Marshal Sample.proxy (Sample.create_request "{}")
                  eq_refl Hpath) eq_refl eq_refl eq_refl) (GoMap ∅) (GoMap ∅)
           eq_refl);
    reflexivity.
Defined.

(** The same request with a body that is not JSON, and with a content type
    the handler does not know. *)
Example ServeHTTP_samples :
  Proxy.ServeHTTP Sample.Output Sample.parse Sample.Marshal Sample.proxy
    (Sample.create_request "image=alpine")
  = Proxy.HttpError (ErrorString "invalid character") Proxy.StatusBadRequest
  /\ (let r :=
        {| Proxy.Method := "POST";
           Proxy.URL_Path := "/v4.0.0/libpod/containers/create";
           Proxy.Header := <["Content-Type" := ["application/x-tar"]]> ∅;
           Proxy.Body := "image=alpine";
           Proxy.BodyReadErr := None;
           Proxy.BodyCloseErr := None;
           Proxy.ContentLength := 12 |} in
      Proxy.ServeHTTP Sample.Output Sample.parse Sample.Marshal Sample.proxy r
      = Proxy.Forwarded r).
Proof. split; vm_compute; reflexivity. Qed.

(** ** The connection counter and the shutdown timer (index.mjs) *)
Section LifecycleFacts.

Variable shutdownTimeout : IndexMjs.jsnum.

Local Abbreviation dispatch := (IndexMjs.dispatch shutdownTimeout).
Local Abbreviation run := (IndexMjs.run shutdownTimeout).

Local Abbreviation lifecycle_invariant := (Spec.lifecycle_invariant shutdownTimeout).

Lemma listening_invariant :
  lifecycle_invariant (IndexMjs.listening shutdownTimeout).
Proof.
  unfold Spec.lifecycle_invariant, IndexMjs.listening, IndexMjs.resetShutdownTimer,
    IndexMjs.armed.
  destruct (IndexMjs.gt0 shutdownTimeout) eqn:E; simpl.
  - split; [done|]. split; [done | by eexists].
  - split; [done|]. split; [by intros [? ?] | by intros [_ ?]].
Qed.

Lemma accept_invariant (c : nat) (l : IndexMjs.listener) (s : IndexMjs.state) :
  IndexMjs.listeners s !! c = None ->
  lifecycle_invariant s ->
  lifecycle_invariant (IndexMjs.accept c l s).
Proof.
  intros Hfresh [Hcount Htimer].
  unfold Spec.lifecycle_invariant, IndexMjs.accept, IndexMjs.clearShutdownTimer,
    IndexMjs.armed in *.
  assert (size (<[c := l]> (IndexMjs.listeners s))
          = S (size (IndexMjs.listeners s))) as Hsize
    by by apply map_size_insert_None.
  destruct (IndexMjs.shutdownTimer s); simpl; rewrite Hsize; split;
    try lia; (split; [by intros [? ?] | intros [? _]; lia]).
Qed.

Lemma release_invariant (c : nat) (l : IndexMjs.listener) (s : IndexMjs.state) :
  IndexMjs.listeners s !! c = Some l ->
  lifecycle_invariant s ->
  lifecycle_invariant (IndexMjs.release shutdownTimeout c s).
Proof.
  intros Hc [Hcount Htimer].
  assert (size (IndexMjs.listeners s)
          = S (size (delete c (IndexMjs.listeners s)))) as Hsize.
  { rewrite <- (insert_delete_id (IndexMjs.listeners s) c l Hc) at 1.
    apply map_size_insert_None, lookup_delete_eq. }
  assert (IndexMjs.shutdownTimer s = None) as Hnone.
  { destruct (IndexMjs.shutdownTimer s) eqn:E; [|done].
    destruct Htimer as [Hz _]. unfold IndexMjs.armed in Hz. rewrite E in Hz.
    destruct Hz as [Hz _]; [by eexists | lia]. }
  unfold IndexMjs.armed in Htimer.
  destruct s as [n timer ls ex]; simpl in *; subst timer.
  unfold Spec.lifecycle_invariant, IndexMjs.release, IndexMjs.resetShutdownTimer,
    IndexMjs.clearShutdownTimer, IndexMjs.armed; simpl.
  destruct (decide (n - 1 = 0)) as [Hzero|Hpos]; simpl.
  - destruct (IndexMjs.gt0 shutdownTimeout) eqn:E; simpl; (split; [lia|]).
    + split; [done | by eexists].
    + split; [by intros [? ?] | by intros [_ ?]].
  - split; [lia|]. split; [by intros [? ?] | by intros [? _]].
Qed.

Lemma dispatch_invariant (s s' : IndexMjs.state) (ev : IndexMjs.event) :
  dispatch s ev = Some s' -> lifecycle_invariant s -> lifecycle_invariant s'.
Proof.
  unfold IndexMjs.dispatch. intros H Hinv.
  destruct (IndexMjs.exited s); [done|].
  destruct ev as [c | c | c | c | ].
  - destruct (IndexMjs.listeners s !! c) eqn:E; [done|].
    injection H as <-. by apply accept_invariant.
  - destruct (IndexMjs.listeners s !! c) as [[|]|] eqn:E; try done.
    injection H as <-. by eapply release_invariant.
  - destruct (IndexMjs.listeners s !! c) eqn:E; [done|].
    injection H as <-. by apply accept_invariant.
  - destruct (IndexMjs.listeners s !! c) as [[|]|] eqn:E; try done.
    injection H as <-. by eapply release_invariant.
  - destruct (IndexMjs.shutdownTimer s) eqn:E; [|done].
    injection H as <-. exact Hinv.
Qed.

Lemma run_invariant (evs : list IndexMjs.event) (s s' : IndexMjs.state) :
  run s evs = Some s' -> lifecycle_invariant s -> lifecycle_invariant s'.
Proof.
  revert s; induction evs as [|ev evs IH]; intros s H Hinv; simpl in H.
  - by injection H as <-.
  - destruct (dispatch s ev) as [s1|] eqn:E; [|done].
    eapply IH; [exact H|]. by eapply dispatch_invariant.
Qed.

(** What the code keeps.  After any sequence of requests, upgrades and
    their ends, the counter is not negative, and the timer is pending if and
    only if the counter is zero and the configured timeout is greater than
    zero. *)
Theorem counter_and_timer (evs : list IndexMjs.event) (s : IndexMjs.state) :
  run (IndexMjs.listening shutdownTimeout) evs = Some s ->
  0 <= IndexMjs.activeConnections s
  /\ (IndexMjs.armed s
      <-> IndexMjs.activeConnections s = 0 /\ IndexMjs.gt0 shutdownTimeout = true).
Proof.
  intros H.
  destruct (run_invariant evs _ _ H listening_invariant) as [Hcount Htimer].
  split; [lia | exact Htimer].
Qed.

(** With a positive timeout the invariant is the specification's. *)
Corollary armed_iff_idle_when_enabled
    (evs : list IndexMjs.event) (s : IndexMjs.state) :
  IndexMjs.gt0 shutdownTimeout = true ->
  run (IndexMjs.listening shutdownTimeout) evs = Some s ->
  IndexMjs.armed_iff_idle s.
Proof.
  intros Hpos H.
  destruct (run_invariant evs _ _ H listening_invariant) as [_ Htimer].
  unfold IndexMjs.armed_iff_idle. rewrite Htimer. tauto.
Qed.

End LifecycleFacts.

Lemma counter_and_timer_witness :
  IndexMjs.run (IndexMjs.Num 30) (IndexMjs.listening (IndexMjs.Num 30))
    [IndexMjs.Request 1; IndexMjs.Upgrade 2; IndexMjs.Finish 1; IndexMjs.Close 2]
  = Some {| IndexMjs.activeConnections := 0;
            IndexMjs.shutdownTimer := Some 30000;
            IndexMjs.listeners := ∅;
            IndexMjs.exited := false |}
  /\ (0 <= 0
      /\ (IndexMjs.armed
            {| IndexMjs.activeConnections := 0;
               IndexMjs.shutdownTimer := Some 30000;
               IndexMjs.listeners := ∅;
               IndexMjs.exited := false |}
          <-> 0 = 0 /\ IndexMjs.gt0 (IndexMjs.Num 30) = true)).
Proof.
  assert (IndexMjs.run (IndexMjs.Num 30) (IndexMjs.listening (IndexMjs.Num 30))
            [IndexMjs.Request 1; IndexMjs.Upgrade 2; IndexMjs.Finish 1;
             IndexMjs.Close 2]
          = Some {| IndexMjs.activeConnections := 0;
                    IndexMjs.shutdownTimer := Some 30000;
                    IndexMjs.listeners := ∅;
                    IndexMjs.exited := false |}) as H
    by (vm_compute; reflexivity).
  split; [exact H|].
  exact (counter_and_timer (IndexMjs.Num 30) _ _ H).
Defined.

(** With a negative timeout, which disables the shutdown (the default is
    -1), no timer is pending when the counter is zero. *)
Lemma armed_iff_idle_fails_when_disabled :
  IndexMjs.run (IndexMjs.Num (-1)) (IndexMjs.listening (IndexMjs.Num (-1)))
    [IndexMjs.Request 1; IndexMjs.Finish 1]
  = Some {| IndexMjs.activeConnections := 0;
            IndexMjs.shutdownTimer := None;
            IndexMjs.listeners := ∅;
            IndexMjs.exited := false |}
  /\ ~ IndexMjs.armed_iff_idle
         {| IndexMjs.activeConnections := 0;
            IndexMjs.shutdownTimer := None;
            IndexMjs.listeners := ∅;
            IndexMjs.exited := false |}.
Proof.
  split; [vm_compute; reflexivity|].
  unfold IndexMjs.armed_iff_idle, IndexMjs.armed. simpl.
  intros [_ H]. destruct (H eq_refl) as [? ?]. discriminate.
Qed.

(** C9.  With a shutdown timeout of 0, which the start-up report prints as
    0 seconds and not as disabled, no timer is pending when listening
    starts, and after a request and its end the counter is zero and still
    no timer is pending: [resetShutdownTimer] arms the timer only under
    [shutdownTimeout > 0]. *)
Theorem timer_not_armed_at_timeout_zero :
  IndexMjs.lt0 (IndexMjs.Num 0) = false
  /\ IndexMjs.shutdownTimer (IndexMjs.listening (IndexMjs.Num 0)) = None
  /\ IndexMjs.run (IndexMjs.Num 0) (IndexMjs.listening (IndexMjs.Num 0))
       [IndexMjs.Request 1; IndexMjs.Finish 1]
     = Some {| IndexMjs.activeConnections := 0;
               IndexMjs.shutdownTimer := None;
               IndexMjs.listeners := ∅;
               IndexMjs.exited := false |}
  /\ ~ IndexMjs.armed_iff_idle
         {| IndexMjs.activeConnections := 0;
            IndexMjs.shutdownTimer := None;
            IndexMjs.listeners := ∅;
            IndexMjs.exited := false |}.
Proof.
  split; [reflexivity|]. split; [reflexivity|].
  split; [vm_compute; reflexivity|].
  unfold IndexMjs.armed_iff_idle, IndexMjs.armed. simpl.
  intros [_ H]. destruct (H eq_refl) as [? ?]. discriminate.
Qed.

(** ** The earlier revision of [mangleDockerVolumes] (src/unnamed/part_001) *)
Section Part001Facts.

Variable Output : string -> list string -> string * option error.
Variable p : Proxy.podmanProxy.

Lemma decoded_map (j : json) (m : gmap string any) :
  decoded j = VMap m -> exists members, m = decoded_object members.
Proof. destruct j; try discriminate. intros [= <-]. by eexists. Qed.

(** The earlier revision asserted [hostConfig["Binds"].([]string)], which no
    decoded body satisfies, and treated a failed assertion as an error: it
    answered every decoded body with one of its two errors.  proxy.go
    replaced both with the lenient tests modelled in [Proxy]. *)
Lemma Part001_rejects_decoded (members : list (string * json)) :
  exists e : error,
    Part001.mangleDockerVolumes Output p (decoded_object members)
    = (decoded_object members, Some e).
Proof.
  unfold Part001.mangleDockerVolumes.
  destruct (decoded_object members !! "HostConfig") as [v|] eqn:E;
    [|by eexists].
  destruct (decoded_object_lookup _ _ _ E) as [j ->].
  destruct (decoded j) as [ | | | | | | hostConfig | | ] eqn:Ej; try by eexists.
  destruct (decoded_map _ _ Ej) as [ms ->]. cbn [assert_map].
  destruct (decoded_object ms !! "Binds") as [v|] eqn:Eb; [|by eexists].
  destruct (decoded_object_lookup _ _ _ Eb) as [j' ->].
  destruct j'; by eexists.
Qed.

End Part001Facts.

(** ** More on the start-up (main.go [getWslDistroName]) *)

Lemma only_bytes_TrimLeft (cutset pre y : string) :
  Spec.only_bytes cutset pre = true ->
  Strings.TrimLeft (pre +:+ y) cutset = Strings.TrimLeft y cutset.
Proof.
  induction pre as [|c pre IH]; intros H; [reflexivity|].
  simpl in H. apply andb_true_iff in H as [Hc Hpre].
  rewrite append_cons, TrimLeft_cons, Hc. by apply IH.
Qed.

Lemma starts_outside_TrimLeft (cutset y : string) :
  Spec.starts_outside cutset y = true -> Strings.TrimLeft y cutset = y.
Proof.
  destruct y as [|c y]; [done|]. simpl. intros H.
  apply negb_true_iff in H. by rewrite H.
Qed.

Lemma starts_outside_app (cutset y z : string) :
  Spec.starts_outside cutset y = true ->
  Spec.starts_outside cutset (y +:+ z) = true.
Proof. by destruct y. Qed.

Lemma TrimRight_cons (c : ascii) (s cutset : string) :
  Strings.TrimRight (String c s) cutset
  = match Strings.TrimRight s cutset with
    | EmptyString =>
        if Strings.IndexByte cutset c then EmptyString else String c EmptyString
    | t => String c t
    end.
Proof. reflexivity. Qed.

Lemma only_bytes_TrimRight (cutset post : string) :
  Spec.only_bytes cutset post = true ->
  Strings.TrimRight post cutset = EmptyString.
Proof.
  induction post as [|c post IH]; intros H; [reflexivity|].
  simpl in H. apply andb_true_iff in H as [Hc Hpost].
  by rewrite TrimRight_cons, IH, Hc.
Qed.

Lemma only_bytes_TrimRight_app (cutset a post : string) :
  Spec.only_bytes cutset post = true ->
  Strings.TrimRight (a +:+ post) cutset = Strings.TrimRight a cutset.
Proof.
  intros H. induction a as [|c a IH].
  - by apply only_bytes_TrimRight.
  - by rewrite append_cons, !TrimRight_cons, IH.
Qed.

Lemma ends_outside_TrimRight (cutset s : string) :
  Spec.ends_outside cutset s = true -> Strings.TrimRight s cutset = s.
Proof.
  induction s as [|c s IH]; [done|]. intros H.
  rewrite TrimRight_cons. destruct s as [|d s].
  - simpl in *. apply negb_true_iff in H. by rewrite H.
  - by rewrite IH.
Qed.

Lemma ends_outside_app (cutset x d : string) :
  Spec.ends_outside cutset d = true ->
  Spec.ends_outside cutset (x +:+ d) = true.
Proof.
  intros H. induction x as [|c x IH]; [done|].
  rewrite append_cons. destruct d as [|e d]; [done|].
  destruct x as [|c' x]; done.
Qed.

Lemma free_of_Split (s : string) (sep : ascii) :
  Spec.free_of sep s = true -> Strings.Split s sep = [s].
Proof.
  unfold Spec.free_of. induction s as [|c s IH]; [done|].
  cbn [Strings.IndexByte]. destruct (Ascii.eqb c sep) eqn:E; [done|].
  intros H. rewrite Split_cons, E, IH; done.
Qed.

(** X1.  With WSL_DISTRO_NAME unset, the distribution name is read from the
    answer of [wslpath -am /]: when the answer is a host and a name joined by
    one slash, with slashes, blanks and line ends around them, the name is
    returned.  (For //wsl.localhost/Ubuntu and a line feed: Ubuntu.) *)
Theorem getWslDistroName_parses_root
    (Getenv : string -> string)
    (Output : string -> list string -> string * option error)
    (pre host distro post : string) :
  Getenv "WSL_DISTRO_NAME" = EmptyString ->
  Output "wslpath" ["-am"; "/"]
  = (pre +:+ (host +:+ String "/" distro) +:+ post, None) ->
  Spec.only_bytes Main.cutset pre = true ->
  Spec.only_bytes Main.cutset post = true ->
  Spec.starts_outside Main.cutset host = true ->
  Spec.free_of "/" host = true ->
  Spec.free_of "/" distro = true ->
  Spec.ends_outside Main.cutset distro = true ->
  Main.getWslDistroName Getenv Output = (distro, None).
Proof.
  intros Henv Hout Hpre Hpost Hhost Hfh Hfd Hd.
  unfold Main.getWslDistroName, Wslpath.ToWindowsForwardSlashes, Wslpath.runCommand.
  rewrite Henv, Hout. cbn [negb bool_decide decide_rel].
  assert (Strings.Trim (pre +:+ (host +:+ String "/" distro) +:+ post) Main.cutset
          = host +:+ String "/" distro) as ->.
  { unfold Strings.Trim.
    rewrite <- append_assoc, only_bytes_TrimRight_app by done.
    rewrite ends_outside_TrimRight.
    - rewrite only_bytes_TrimLeft by done.
      apply starts_outside_TrimLeft. by apply starts_outside_app.
    - apply ends_outside_app.
      change (String "/" distro) with ("/" +:+ distro).
      by do 2 apply ends_outside_app. }
  by rewrite Split_app, !free_of_Split.
Qed.

Lemma getWslDistroName_parses_root_witness :
  Main.getWslDistroName (fun _ => EmptyString)
    (fun _ _ => ("//wsl.localhost/Ubuntu" +:+ String "010" EmptyString, None))
  = ("Ubuntu", None).
Proof.
  apply (getWslDistroName_parses_root (fun _ => EmptyString)
           (fun _ _ => ("//wsl.localhost/Ubuntu" +:+ String "010" EmptyString, None))
           "//" "wsl.localhost" "Ubuntu" (String "010" EmptyString));
    reflexivity.
Defined.

(** The environment variable, when set, is the answer and [wslpath] is not
    asked. *)
Lemma getWslDistroName_env
    (Getenv : string -> string)
    (Output : string -> list string -> string * option error) :
  Getenv "WSL_DISTRO_NAME" ≠ EmptyString ->
  Main.getWslDistroName Getenv Output = (Getenv "WSL_DISTRO_NAME", None).
Proof.
  intros H. unfold Main.getWslDistroName.
  by rewrite (bool_decide_eq_false_2 _ H).
Qed.

(** ** More on routing: the version prefix (proxy.go and index.mjs) *)

Lemma run_ext (r : Regexp.regex) (s : string) (k k' : string -> option string) :
  (forall s', k s' = k' s') -> Regexp.run r s k = Regexp.run r s k'.
Proof.
  revert s k k'. induction r as [c | | | r1 IH1 r2 IH2 | r1 IH1 | r1 IH1];
    intros s k k' Hk; cbn [Regexp.run].
  - destruct s as [|d s]; [done|]. by rewrite Hk.
  - destruct s as [|d s]; [done|]. by rewrite Hk.
  - destruct s as [|d s]; [done|]. by rewrite Hk.
  - apply IH1. intros s'. by apply IH2.
  - rewrite (IH1 s k k' Hk). by rewrite Hk.
  - apply IH1. intros s'. generalize (String.length s). clear s.
    intros fuel. revert s'.
    induction fuel as [|fuel IHf]; intros s'; [simpl; apply Hk|].
    simpl. rewrite (IH1 s' _ _ IHf). by rewrite Hk.
Qed.

Lemma run_Plus (r : Regexp.regex) (s : string) (k : string -> option string) :
  Regexp.run (Regexp.Plus r) s k
  = Regexp.plus_loop r k (S (String.length s)) s.
Proof.
  cbn [Regexp.run Regexp.plus_loop]. apply run_ext. intros s'.
  generalize (String.length s). clear s. intros fuel. revert s'.
  induction fuel as [|fuel IHf]; intros s'; [reflexivity|].
  simpl. by rewrite (run_ext r s' _ _ IHf).
Qed.

Lemma plus_loop_stuck (r : Regexp.regex) (k : string -> option string)
    (fuel : nat) (s : string) :
  (forall k', Regexp.run r s k' = None) -> Regexp.plus_loop r k fuel s = None.
Proof. intros H. destruct fuel; [done|]. apply H. Qed.

Lemma length_append (a b : string) :
  String.length (a +:+ b) = (String.length a + String.length b)%nat.
Proof. induction a as [|c a IH]; [done|]. rewrite append_cons. simpl. by rewrite IH. Qed.

(** The greedy loop over digits takes them all, when what follows is
    accepted. *)
Lemma plus_loop_digits (k : string -> option string) (x : string)
    (ds : string) (c : ascii) (t : string) (fuel : nat) :
  Spec.digits ds = true ->
  Regexp.byte_in 48 57 c = false ->
  (String.length ds <= fuel)%nat ->
  k (String c t) = Some x ->
  Regexp.plus_loop Regexp.Digit k fuel (ds +:+ String c t) = Some x.
Proof.
  unfold Spec.digits. revert fuel.
  induction ds as [|d ds IH]; intros fuel Hds Hc Hfuel Hk; [done|].
  simpl in Hds. apply andb_true_iff in Hds as [Hd Hds].
  destruct fuel as [|fuel]; [simpl in Hfuel; lia|].
  rewrite append_cons. cbn [Regexp.plus_loop Regexp.run]. rewrite Hd.
  destruct ds as [|d' ds].
  - change (EmptyString +:+ String c t) with (String c t).
    rewrite plus_loop_stuck; [exact Hk|].
    intros k'. cbn [Regexp.run]. by rewrite Hc.
  - rewrite IH; [done | | done | simpl in *; lia | done].
    simpl. simpl in Hds. by rewrite Hds.
Qed.

(** So does the loop over the rest of the version. *)
Lemma plus_loop_version_body (k : string -> option string) (x : string)
    (c : ascii) (t : string) (fuel : nat) (body : string) :
  Spec.version_body body = true ->
  Regexp.byte_in 48 57 c = false ->
  c ≠ "."%char ->
  (String.length body <= fuel)%nat ->
  k (String c t) = Some x ->
  Regexp.plus_loop
    (Regexp.Seq Regexp.Digit (Regexp.Quest (Regexp.Lit "."))) k fuel
    (body +:+ String c t) = Some x.
Proof.
  intros Hbody Hc Hdot Hfuel Hk. revert body Hbody Hfuel.
  induction fuel as [|fuel IH]; intros body Hbody Hfuel.
  - destruct body; [done | simpl in Hfuel; lia].
  - destruct body as [|d body]; [done|].
    cbn [Spec.version_body] in Hbody.
    apply andb_true_iff in Hbody as [Hd Hbody].
    rewrite append_cons. cbn [Regexp.plus_loop Regexp.run]. rewrite Hd.
    assert (Regexp.plus_loop
              (Regexp.Seq Regexp.Digit (Regexp.Quest (Regexp.Lit "."))) k fuel
              (String c t) = None) as Hstuck.
    { apply plus_loop_stuck. intros k'. cbn [Regexp.run]. by rewrite Hc. }
    destruct body as [|e body].
    + change (EmptyString +:+ String c t) with (String c t). cbn [Regexp.run].
      rewrite (proj2 (Ascii.eqb_neq "." c)) by done.
      by rewrite Hstuck.
    + rewrite append_cons. cbn [Regexp.run].
      destruct (Ascii.eqb e ".") eqn:Ee.
      * apply Ascii.eqb_eq in Ee as ->. rewrite Ascii.eqb_refl.
        apply orb_true_iff in Hbody as [Hnil | Hbody].
        -- apply bool_decide_eq_true_1 in Hnil as ->.
           change (EmptyString +:+ String c t) with (String c t).
           by rewrite Hstuck, Hk.
        -- rewrite IH; [done | done | simpl in *; lia].
      * rewrite (Ascii.eqb_sym "." e), Ee.
        rewrite <- append_cons.
        rewrite IH; [done | done | simpl in *; lia].
Qed.

Lemma run_AnyNotNL_ascii (c : ascii) (s : string)
    (k : string -> option string) :
  Regexp.byte_in 0 127 c = true ->
  Regexp.byte_in 10 10 c = false ->
  Regexp.run Regexp.AnyNotNL (String c s) k = k s.
Proof. intros Hascii Hnl. cbn [Regexp.run Regexp.rune_width]. by rewrite Hnl, Hascii. Qed.

(** The shape both version expressions have, with the separator [sepR]
    between the major version and the rest. *)
Lemma version_match (sepR : Regexp.regex) (sep : ascii)
    (major body rest : string) :
  (forall s k, Regexp.run sepR (String sep s) k = k s) ->
  Regexp.byte_in 48 57 sep = false ->
  Spec.digits major = true ->
  Spec.version_body body = true ->
  Regexp.match_start
    (Regexp.Seq (Regexp.Lit "/")
       (Regexp.Seq (Regexp.Lit "v")
          (Regexp.Seq (Regexp.Plus Regexp.Digit)
             (Regexp.Seq sepR
                (Regexp.Seq
                   (Regexp.Plus
                      (Regexp.Seq Regexp.Digit
                         (Regexp.Quest (Regexp.Lit "."))))
                   (Regexp.Lit "/"))))))
    ("/v" +:+ major +:+ String sep (body +:+ String "/" rest))
  = Some rest.
Proof.
  intros Hsep Hnodigit Hmajor Hbody. unfold Regexp.match_start.
  change ("/v" +:+ major +:+ String sep (body +:+ String "/" rest))
    with (String "/" (String "v"
            (major +:+ String sep (body +:+ String "/" rest)))).
  change (Regexp.run (Regexp.Seq ?a ?b) ?s ?k)
    with (Regexp.run a s (fun s' => Regexp.run b s' k)).
  change (Regexp.run (Regexp.Lit "/") (String "/" ?s) ?k) with (k s).
  cbv beta.
  change (Regexp.run (Regexp.Seq ?a ?b) ?s ?k)
    with (Regexp.run a s (fun s' => Regexp.run b s' k)).
  change (Regexp.run (Regexp.Lit "v") (String "v" ?s) ?k) with (k s).
  cbv beta.
  change (Regexp.run (Regexp.Seq ?a ?b) ?s ?k)
    with (Regexp.run a s (fun s' => Regexp.run b s' k)).
  rewrite run_Plus.
  apply plus_loop_digits; [done | done | rewrite length_append; lia |].
  change (Regexp.run (Regexp.Seq ?a ?b) ?s ?k)
    with (Regexp.run a s (fun s' => Regexp.run b s' k)).
  rewrite Hsep.
  change (Regexp.run (Regexp.Seq ?a ?b) ?s ?k)
    with (Regexp.run a s (fun s' => Regexp.run b s' k)).
  rewrite run_Plus.
  apply plus_loop_version_body; [done | done | done | rewrite length_append; lia |].
  reflexivity.
Qed.

(** X2.  A path that begins with /v, digits, one separator byte, and a
    version body (digits, each followed by at most one dot), then a slash, is
    routed as the path from that slash on: POST /v1.41/containers/create and
    POST /v4.0.0/libpod/containers/create are intercepted like the paths
    without a version.  The separator is the expression's unescaped dot: any
    ASCII byte but a newline or a digit. *)
Theorem normalized_strips_version (major body rest : string) (sep : ascii) :
  Regexp.byte_in 0 127 sep = true ->
  Regexp.byte_in 10 10 sep = false ->
  Regexp.byte_in 48 57 sep = false ->
  Spec.digits major = true ->
  Spec.version_body body = true ->
  Spec.normalized
    ("/v" +:+ major +:+ String sep (body +:+ String "/" rest))
  = String "/" rest.
Proof.
  intros Hascii Hnl Hnodigit Hmajor Hbody.
  unfold Spec.normalized, Regexp.MatchString, Regexp.ReplaceAllString.
  unfold Proxy.versionRegex.
  rewrite (version_match Regexp.AnyNotNL sep major body rest);
    [by rewrite bool_decide_eq_true_2 | | done..].
  intros s k. by apply run_AnyNotNL_ascii.
Qed.

Lemma normalized_strips_version_witness :
  Spec.normalized "/v1.41/containers/create" = "/containers/create".
Proof.
  by apply (normalized_strips_version "1" "41" "containers/create" ".").
Defined.

(** X3.  The server of index.mjs, whose expression escapes the dot, strips
    the same prefix when the separator is a dot. *)
Theorem pathWithoutVersion_strips_version (major body rest : string) :
  Spec.digits major = true ->
  Spec.version_body body = true ->
  IndexMjs.pathWithoutVersion
    ("/v" +:+ major +:+ String "." (body +:+ String "/" rest))
  = String "/" rest.
Proof.
  intros Hmajor Hbody.
  unfold IndexMjs.pathWithoutVersion, Regexp.ReplaceAllString.
  unfold IndexMjs.versionRegex.
  by rewrite (version_match (Regexp.Lit ".") "." major body rest).
Qed.

Lemma pathWithoutVersion_strips_version_witness :
  IndexMjs.pathWithoutVersion "/v4.0.0/libpod/containers/create"
  = "/libpod/containers/create".
Proof.
  by apply (pathWithoutVersion_strips_version "4" "0.0"
              "libpod/containers/create").
Defined.

Lemma slice_from_suffix (n : nat) (s : string) :
  exists pre, s = pre +:+ Strings.slice_from n s.
Proof.
  revert s. induction n as [|n IH]; intros s; [by exists EmptyString|].
  destruct s as [|c s]; [by exists EmptyString|].
  destruct (IH s) as [pre Hpre]. exists (String c pre).
  rewrite append_cons. cbn [Strings.slice_from]. by rewrite <- Hpre.
Qed.

(** The matcher consumes a prefix of its input and hands the rest to its
    continuation. *)
Lemma run_suffix (r : Regexp.regex) (s : string)
    (k : string -> option string) (x : string) :
  Regexp.run r s k = Some x ->
  exists pre s', s = pre +:+ s' /\ k s' = Some x.
Proof.
  revert s k x.
  induction r as [c | | | r1 IH1 r2 IH2 | r1 IH1 | r1 IH1]; intros s k x H.
  - cbn [Regexp.run] in H. destruct s as [|d s]; [done|].
    destruct (Ascii.eqb c d); [|done]. by exists (String d EmptyString), s.
  - cbn [Regexp.run] in H. destruct s as [|d s]; [done|].
    destruct (Regexp.byte_in 48 57 d); [|done].
    by exists (String d EmptyString), s.
  - cbn [Regexp.run] in H. destruct s as [|d s]; [done|].
    destruct (Regexp.byte_in 10 10 d); [done|].
    destruct (slice_from_suffix (Regexp.rune_width (String d s)) (String d s))
      as [pre Hpre].
    by exists pre, (Strings.slice_from (Regexp.rune_width (String d s)) (String d s)).
  - cbn [Regexp.run] in H.
    destruct (IH1 _ _ _ H) as (pre1 & s1 & -> & H1).
    destruct (IH2 _ _ _ H1) as (pre2 & s2 & -> & H2).
    exists (pre1 +:+ pre2), s2. by rewrite append_assoc.
  - cbn [Regexp.run] in H.
    destruct (Regexp.run r1 s k) as [y|] eqn:E.
    + injection H as ->. by apply IH1.
    + by exists EmptyString, s.
  - rewrite run_Plus in H.
    remember (S (String.length s)) as fuel eqn:Hfuel. clear Hfuel. revert s H.
    induction fuel as [|fuel IHf]; intros s H; [done|].
    cbn [Regexp.plus_loop] in H.
    destruct (IH1 _ _ _ H) as (pre1 & s1 & -> & H1).
    destruct (Regexp.plus_loop r1 k fuel s1) as [y|] eqn:E.
    + injection H1 as ->. destruct (IHf _ E) as (pre2 & s2 & -> & H2).
      exists (pre1 +:+ pre2), s2. by rewrite append_assoc.
    + by exists pre1, s1.
Qed.

Lemma run_Lit_inv (c : ascii) (s : string) (k : string -> option string)
    (x : string) :
  Regexp.run (Regexp.Lit c) s k = Some x ->
  exists s', s = String c s' /\ k s' = Some x.
Proof.
  cbn [Regexp.run]. destruct s as [|d s]; [done|].
  destruct (Ascii.eqb c d) eqn:E; [|done].
  apply Ascii.eqb_eq in E as ->. by exists s.
Qed.

(** What either version expression leaves of a path it matches. *)
Lemma version_match_inv (sepR : Regexp.regex) (path rest : string) :
  Regexp.match_start
    (Regexp.Seq (Regexp.Lit "/")
       (Regexp.Seq (Regexp.Lit "v")
          (Regexp.Seq (Regexp.Plus Regexp.Digit)
             (Regexp.Seq sepR
                (Regexp.Seq
                   (Regexp.Plus
                      (Regexp.Seq Regexp.Digit
                         (Regexp.Quest (Regexp.Lit "."))))
                   (Regexp.Lit "/"))))))
    path = Some rest ->
  exists version, path = "/v" +:+ version +:+ String "/" rest.
Proof.
  unfold Regexp.match_start. intros H.
  change (Regexp.run (Regexp.Seq ?a ?b) ?s ?k)
    with (Regexp.run a s (fun s' => Regexp.run b s' k)) in H.
  apply run_Lit_inv in H as (s1 & -> & H).
  change (Regexp.run (Regexp.Seq ?a ?b) ?s ?k)
    with (Regexp.run a s (fun s' => Regexp.run b s' k)) in H.
  apply run_Lit_inv in H as (s2 & -> & H).
  change (Regexp.run (Regexp.Seq ?a ?b) ?s ?k)
    with (Regexp.run a s (fun s' => Regexp.run b s' k)) in H.
  apply run_suffix in H as (pre1 & s3 & -> & H).
  change (Regexp.run (Regexp.Seq ?a ?b) ?s ?k)
    with (Regexp.run a s (fun s' => Regexp.run b s' k)) in H.
  apply run_suffix in H as (pre2 & s4 & -> & H).
  change (Regexp.run (Regexp.Seq ?a ?b) ?s ?k)
    with (Regexp.run a s (fun s' => Regexp.run b s' k)) in H.
  apply run_suffix in H as (pre3 & s5 & -> & H).
  apply run_Lit_inv in H as (s6 & -> & H). injection H as ->.
  exists (pre1 +:+ pre2 +:+ pre3).
  change ("/v" +:+ ?x) with (String "/" (String "v" x)).
  by rewrite !append_assoc.
Qed.

(** X4.  Routing never invents a path: the path the handler routes on is the
    request path itself, or what the request path holds from a later slash
    on, the request path then beginning with /v. *)
Theorem normalized_is_suffix (path : string) :
  Spec.normalized path = path
  \/ exists version rest,
       path = "/v" +:+ version +:+ String "/" rest
       /\ Spec.normalized path = String "/" rest.
Proof.
  unfold Spec.normalized, Regexp.MatchString, Regexp.ReplaceAllString.
  destruct (Regexp.match_start Proxy.versionRegex path) as [rest|] eqn:E.
  - right. apply version_match_inv in E as [version ->].
    exists version, rest. split; [done|].
    by rewrite bool_decide_eq_true_2.
  - left. by rewrite bool_decide_eq_false_2 by (by intros [? ?]).
Qed.

(** ** More on the request handler (proxy.go [ServeHTTP],
    [forwardRequest]) *)
Section HandlerShape.

Variable ToLower : string -> string.
Variable Dial : string -> option error.
Variable Write : Proxy.ClientRequest -> option error.
Variable ReadResponse : Proxy.ClientRequest -> Proxy.UpstreamResponse + error.
Variable File : option error.
Variable FileConn : option error.
Variable Output : string -> list string -> string * option error.
Variable parse : string -> json + error.
Variable Marshal : gomap -> string * option error.
Variable p : Proxy.podmanProxy.

Local Abbreviation ServeHTTP := (Proxy.ServeHTTP Output parse Marshal p).
Local Abbreviation client_request := (Proxy.client_request ToLower).
Local Abbreviation forwardRequest :=
  (Proxy.forwardRequest ToLower Dial Write ReadResponse File FileConn p).
Local Abbreviation handle :=
  (Proxy.handle ToLower Dial Write ReadResponse File FileConn
     Output parse Marshal p).

(** The handler either lets the request through as it is, or goes past its
    two tests. *)
Lemma ServeHTTP_cases (r : Proxy.Request) :
  ServeHTTP r = Proxy.Forwarded r
  \/ (Proxy.Method r = "POST"
      /\ Spec.creation_endpoint (Spec.normalized (Proxy.URL_Path r))
      /\ (Proxy.Header_Get (Proxy.Header r) "Content-Type" = "application/json"
          \/ Proxy.Header_Get (Proxy.Header r) "Content-Type" = EmptyString)).
Proof.
  unfold Proxy.ServeHTTP. fold (Spec.normalized (Proxy.URL_Path r)).
  destruct (decide (Proxy.Method r = "POST")) as [Hm|Hm];
    [|rewrite (bool_decide_eq_true_2 _ Hm); by left].
  rewrite bool_decide_eq_false_2 by (by intros ?).
  destruct (decide (Spec.normalized (Proxy.URL_Path r) = "/containers/create"))
    as [Hd|Hd].
  - rewrite (bool_decide_eq_false_2
               (Spec.normalized (Proxy.URL_Path r) ≠ "/containers/create"))
      by (by intros ?).
    cbn [orb andb].
    destruct (decide (Proxy.Header_Get (Proxy.Header r) "Content-Type"
                      = "application/json")) as [Hj|Hj].
    + right. repeat split; [done | by left | by left].
    + rewrite (bool_decide_eq_true_2 _ Hj). cbn [andb].
      destruct (decide (Proxy.Header_Get (Proxy.Header r) "Content-Type"
                        = EmptyString)) as [He|He].
      * right. repeat split; [done | by left | by right].
      * rewrite (bool_decide_eq_true_2 _ He). by left.
  - rewrite (bool_decide_eq_true_2 _ Hd). cbn [orb andb].
    destruct (decide (Spec.normalized (Proxy.URL_Path r)
                      = "/libpod/containers/create")) as [Hl|Hl];
      [|rewrite (bool_decide_eq_true_2 _ Hl); by left].
    rewrite (bool_decide_eq_false_2
               (Spec.normalized (Proxy.URL_Path r) ≠ "/libpod/containers/create"))
      by (by intros ?).
    destruct (decide (Proxy.Header_Get (Proxy.Header r) "Content-Type"
                      = "application/json")) as [Hj|Hj].
    + right. repeat split; [done | by right | by left].
    + rewrite (bool_decide_eq_true_2 _ Hj). cbn [andb].
      destruct (decide (Proxy.Header_Get (Proxy.Header r) "Content-Type"
                        = EmptyString)) as [He|He].
      * right. repeat split; [done | by right | by right].
      * rewrite (bool_decide_eq_true_2 _ He). by left.
Qed.

(** What [ServeHTTP] hands to [forwardRequest]: the request as it came, or
    the request with the encoding of the rewritten body. *)
Lemma ServeHTTP_hands_over (r r' : Proxy.Request) :
  ServeHTTP r = Proxy.Forwarded r' ->
  r' = r
  \/ (Proxy.Method r = "POST"
      /\ Spec.creation_endpoint (Spec.normalized (Proxy.URL_Path r))
      /\ exists (bodyObj bodyObj' : gomap) (newBody : string),
           Proxy.Decode parse (Proxy.Body r) = (bodyObj, None)
           /\ Spec.rewrite Output p (Spec.normalized (Proxy.URL_Path r)) bodyObj
              = (bodyObj', None)
           /\ Marshal bodyObj' = (newBody, None)
           /\ r' = Spec.with_body r newBody).
Proof.
  intros H. destruct (ServeHTTP_cases r) as [Hsame | (Hpost & Hpath & Hct)].
  - rewrite Hsame in H. injection H as <-. by left.
  - rewrite ServeHTTP_rewrites in H by done.
    destruct (Proxy.BodyReadErr r); [done|].
    destruct (Proxy.BodyCloseErr r); [done|].
    destruct (Proxy.Decode parse (Proxy.Body r)) as [bodyObj [e|]]; [done|].
    destruct (Spec.rewrite Output p (Spec.normalized (Proxy.URL_Path r)) bodyObj)
      as [bodyObj' [e|]] eqn:HR; [done|].
    destruct (Marshal bodyObj') as [newBody [e|]] eqn:HM; [done|].
    injection H as <-. right. split; [done|]. split; [done|].
    exists bodyObj, bodyObj', newBody. by repeat split.
Qed.

(** The errors [ServeHTTP] answers with before it calls [forwardRequest]. *)
Lemma ServeHTTP_own_error (r : Proxy.Request) (err : error) (code : Z) :
  ServeHTTP r = Proxy.HttpError err code ->
  Proxy.Method r = "POST"
  /\ Spec.creation_endpoint (Spec.normalized (Proxy.URL_Path r))
  /\ (Proxy.Header_Get (Proxy.Header r) "Content-Type" = "application/json"
      \/ Proxy.Header_Get (Proxy.Header r) "Content-Type" = EmptyString)
  /\ ((code = 500
       /\ (Proxy.BodyReadErr r = Some err
           \/ Proxy.BodyCloseErr r = Some err
           \/ exists bodyObj bodyObj' : gomap,
                Proxy.Decode parse (Proxy.Body r) = (bodyObj, None)
                /\ Spec.rewrite Output p (Spec.normalized (Proxy.URL_Path r))
                     bodyObj = (bodyObj', None)
                /\ snd (Marshal bodyObj') = Some err))
      \/ (code = 400
          /\ (snd (Proxy.Decode parse (Proxy.Body r)) = Some err
              \/ exists bodyObj : gomap,
                   Proxy.Decode parse (Proxy.Body r) = (bodyObj, None)
                   /\ snd (Spec.rewrite Output p
                             (Spec.normalized (Proxy.URL_Path r)) bodyObj)
                      = Some err))).
Proof.
  intros H. destruct (ServeHTTP_cases r) as [Hsame | (Hpost & Hpath & Hct)];
    [by rewrite Hsame in H|].
  rewrite ServeHTTP_rewrites in H by done.
  repeat split; [done..|].
  destruct (Proxy.BodyReadErr r) as [e|].
  { injection H as <- <-. left. split; [done | by left]. }
  destruct (Proxy.BodyCloseErr r) as [e|].
  { injection H as <- <-. left. split; [done | right; by left]. }
  destruct (Proxy.Decode parse (Proxy.Body r)) as [bodyObj [e|]].
  { injection H as <- <-. right. split; [done | by left]. }
  destruct (Spec.rewrite Output p (Spec.normalized (Proxy.URL_Path r)) bodyObj)
    as [bodyObj' [e|]] eqn:HR.
  { injection H as <- <-. right. split; [done|]. right. exists bodyObj.
    rewrite HR. by split. }
  destruct (Marshal bodyObj') as [newBody [e|]] eqn:HM; [|done].
  injection H as <- <-. left. split; [done|]. right. right.
  exists bodyObj, bodyObj'. rewrite HM. by repeat split.
Qed.

(** A request that reached the upstream is the client request made of what
    [ServeHTTP] handed over. *)
Lemma handle_reached (r : Proxy.Request) (usReq : Proxy.ClientRequest) :
  handle r = Proxy.Tunnelled usReq
  \/ (exists (code : Z) (header : gmap string (list string)),
        handle r = Proxy.Relayed usReq code header) ->
  exists r' : Proxy.Request,
    ServeHTTP r = Proxy.Forwarded r' /\ usReq = client_request r'.
Proof.
  unfold Proxy.handle.
  destruct (ServeHTTP r) as [r'|err code];
    [|by intros [? | (? & ? & ?)]].
  intros H. exists r'. split; [done|]. revert H.
  unfold Proxy.forwardRequest.
  destruct (Dial (Proxy.upstream p)); [by intros [? | (? & ? & ?)]|].
  destruct (Write (client_request r')); [by intros [? | (? & ? & ?)]|].
  destruct (ReadResponse (client_request r')) as [usResp|e];
    [|by intros [? | (? & ? & ?)]].
  destruct (bool_decide _).
  - intros [? | (? & ? & H)]; [done | by injection H as <-].
  - destruct File; [by intros [? | (? & ? & ?)]|].
    destruct FileConn; [by intros [? | (? & ? & ?)]|].
    intros [H | (? & ? & ?)]; [by injection H as <- | done].
Qed.

Lemma Header_Get_insert_ne (h : gmap string (list string))
    (key key' : string) (values : list string) :
  key ≠ key' ->
  Proxy.Header_Get (<[key := values]> h) key' = Proxy.Header_Get h key'.
Proof. intros H. unfold Proxy.Header_Get. by rewrite lookup_insert_ne. Qed.

(** X5.  The client request [forwardRequest] builds and gives to
    [usReq.Write] (its fields, not the bytes [Write] makes of them), when
    the upstream's answer is relayed or the connection tunnelled, keeps the
    method and the path with its version; its scheme is http, its protocol
    HTTP/1.1, its RequestURI empty, and its URL host the Host header, or d
    without one.  Every header but Content-Length and Connection is the
    request's; Connection is close, unless its value in lower case is
    upgrade, and then it is the request's.  The body, its length and the
    Content-Length header are the request's, or, for a POST to a creation
    endpoint, the encoding of the decoded and rewritten body, its length,
    and that length in decimal. *)
Theorem ServeHTTP_forwarded (r : Proxy.Request) (usReq : Proxy.ClientRequest) :
  handle r = Proxy.Tunnelled usReq
  \/ (exists (code : Z) (header : gmap string (list string)),
        handle r = Proxy.Relayed usReq code header) ->
  Proxy.Method (Proxy.Req usReq) = Proxy.Method r
  /\ Proxy.URL_Path (Proxy.Req usReq) = Proxy.URL_Path r
  /\ Proxy.URL_Scheme usReq = "http"
  /\ Proxy.Proto usReq = "HTTP/1.1"
  /\ Proxy.RequestURI usReq = EmptyString
  /\ Proxy.URL_Host usReq
     = (if bool_decide (Proxy.Header_Get (Proxy.Header r) "Host" = EmptyString)
        then "d" else Proxy.Header_Get (Proxy.Header r) "Host")
  /\ (forall key : string,
        key ≠ "Content-Length" -> key ≠ "Connection" ->
        Proxy.Header (Proxy.Req usReq) !! key = Proxy.Header r !! key)
  /\ Proxy.Header (Proxy.Req usReq) !! "Connection"
     = (if bool_decide
             (ToLower (Proxy.Header_Get (Proxy.Header r) "Connection")
              ≠ "upgrade")
        then Some ["close"] else Proxy.Header r !! "Connection")
  /\ ((Proxy.Body (Proxy.Req usReq) = Proxy.Body r
       /\ Proxy.ContentLength (Proxy.Req usReq) = Proxy.ContentLength r
       /\ Proxy.Header (Proxy.Req usReq) !! "Content-Length"
          = Proxy.Header r !! "Content-Length")
      \/ (Proxy.Method r = "POST"
          /\ Spec.creation_endpoint (Spec.normalized (Proxy.URL_Path r))
          /\ (exists bodyObj bodyObj' : gomap,
                Proxy.Decode parse (Proxy.Body r) = (bodyObj, None)
                /\ Spec.rewrite Output p (Spec.normalized (Proxy.URL_Path r))
                     bodyObj = (bodyObj', None)
                /\ Marshal bodyObj' = (Proxy.Body (Proxy.Req usReq), None))
          /\ Proxy.ContentLength (Proxy.Req usReq)
             = Z.of_nat (String.length (Proxy.Body (Proxy.Req usReq)))
          /\ Proxy.Header (Proxy.Req usReq) !! "Content-Length"
             = Some [pretty (Z.of_nat
                       (String.length (Proxy.Body (Proxy.Req usReq))))])).
Proof.
  intros H. destruct (handle_reached r usReq H) as (r' & Hr' & ->).
  assert (Proxy.Header_Get (Proxy.Header r') "Host"
          = Proxy.Header_Get (Proxy.Header r) "Host"
          /\ Proxy.Header_Get (Proxy.Header r') "Connection"
             = Proxy.Header_Get (Proxy.Header r) "Connection"
          /\ Proxy.Header r' !! "Connection" = Proxy.Header r !! "Connection"
          /\ forall key : string,
               key ≠ "Content-Length" ->
               Proxy.Header r' !! key = Proxy.Header r !! key)
    as (HHost & HConn & HConn' & Hother).
  { destruct (ServeHTTP_hands_over r r' Hr')
      as [-> | (_ & _ & bodyObj & bodyObj' & newBody & _ & _ & _ & ->)];
      [done|].
    cbn [Spec.with_body Proxy.Header].
    rewrite !Header_Get_insert_ne by done.
    repeat split; [by rewrite lookup_insert_ne|].
    intros key Hkey. by rewrite lookup_insert_ne. }
  unfold Proxy.client_request.
  cbn [Proxy.Req Proxy.Method Proxy.URL_Path Proxy.Header Proxy.Body
       Proxy.ContentLength Proxy.URL_Scheme Proxy.Proto Proxy.RequestURI
       Proxy.URL_Host].
  rewrite HHost, HConn.
  assert (forall key : string,
            key ≠ "Connection" ->
            (if bool_decide
                  (ToLower (Proxy.Header_Get (Proxy.Header r) "Connection")
                   ≠ "upgrade")
             then Proxy.Header_Set (Proxy.Header r') "Connection" "close"
             else Proxy.Header r') !! key = Proxy.Header r' !! key) as Hkeep.
  { intros key Hkey. destruct (bool_decide _); [|done].
    unfold Proxy.Header_Set. by rewrite lookup_insert_ne. }
  split; [|split; [|split; [done|split; [done|split; [done|split; [done|]]]]]].
  - by destruct (ServeHTTP_hands_over r r' Hr')
      as [-> | (_ & _ & ? & ? & ? & _ & _ & _ & ->)].
  - by destruct (ServeHTTP_hands_over r r' Hr')
      as [-> | (_ & _ & ? & ? & ? & _ & _ & _ & ->)].
  - split; [|split].
    + intros key Hcl Hc. rewrite Hkeep by done. by apply Hother.
    + destruct (bool_decide _); [|done].
      unfold Proxy.Header_Set. by rewrite lookup_insert.
    + rewrite (Hkeep "Content-Length") by done.
      destruct (ServeHTTP_hands_over r r' Hr')
        as [-> | (Hpost & Hpath & bodyObj & bodyObj' & newBody
                  & HD & HR & HM & ->)]; [by left|].
      right. cbn [Spec.with_body Proxy.Header Proxy.Body Proxy.ContentLength].
      repeat split; [done | done | | by rewrite lookup_insert].
      by exists bodyObj, bodyObj'.
Qed.

(** X6.  The handler answers with an error in these cases only.  With
    status 400: to a POST to a creation endpoint whose content type is JSON
    or absent, for the error of decoding the body or of rewriting the
    decoded body.  With status 500: to such a POST, for the error of
    reading or closing the body or of encoding the rewritten body; and to
    any request it forwards, for the error of reading the upstream's answer
    or of getting the downstream connection's file.  With status 502: to
    any request it forwards, for the error of dialling the upstream or of
    writing the request to it. *)
Theorem ServeHTTP_error (r : Proxy.Request) (err : error) (code : Z) :
  handle r = Proxy.Answered err code ->
  (code = 400
   /\ Proxy.Method r = "POST"
   /\ Spec.creation_endpoint (Spec.normalized (Proxy.URL_Path r))
   /\ (Proxy.Header_Get (Proxy.Header r) "Content-Type" = "application/json"
       \/ Proxy.Header_Get (Proxy.Header r) "Content-Type" = EmptyString)
   /\ (snd (Proxy.Decode parse (Proxy.Body r)) = Some err
       \/ exists bodyObj : gomap,
            Proxy.Decode parse (Proxy.Body r) = (bodyObj, None)
            /\ snd (Spec.rewrite Output p
                      (Spec.normalized (Proxy.URL_Path r)) bodyObj)
               = Some err))
  \/ (code = 500
      /\ ((Proxy.Method r = "POST"
           /\ Spec.creation_endpoint (Spec.normalized (Proxy.URL_Path r))
           /\ (Proxy.Header_Get (Proxy.Header r) "Content-Type"
               = "application/json"
               \/ Proxy.Header_Get (Proxy.Header r) "Content-Type"
                  = EmptyString)
           /\ (Proxy.BodyReadErr r = Some err
               \/ Proxy.BodyCloseErr r = Some err
               \/ exists bodyObj bodyObj' : gomap,
                    Proxy.Decode parse (Proxy.Body r) = (bodyObj, None)
                    /\ Spec.rewrite Output p
                         (Spec.normalized (Proxy.URL_Path r)) bodyObj
                       = (bodyObj', None)
                    /\ snd (Marshal bodyObj') = Some err))
          \/ exists r' : Proxy.Request,
               ServeHTTP r = Proxy.Forwarded r'
               /\ Dial (Proxy.upstream p) = None
               /\ Write (client_request r') = None
               /\ (ReadResponse (client_request r') = inr err
                   \/ (exists usResp : Proxy.UpstreamResponse,
                         ReadResponse (client_request r') = inl usResp
                         /\ Proxy.us_StatusCode usResp = 101)
                      /\ File = Some err)))
  \/ (code = 502
      /\ exists r' : Proxy.Request,
           ServeHTTP r = Proxy.Forwarded r'
           /\ (Dial (Proxy.upstream p) = Some err
               \/ Dial (Proxy.upstream p) = None
                  /\ Write (client_request r') = Some err)).
Proof.
  unfold Proxy.handle. destruct (ServeHTTP r) as [r'|e c] eqn:HS.
  - unfold Proxy.forwardRequest.
    destruct (Dial (Proxy.upstream p)) as [e|] eqn:HD.
    { intros [= <- <-]. right. right. split; [done|]. exists r'.
      split; [done | by left]. }
    destruct (Write (client_request r')) as [e|] eqn:HW.
    { intros [= <- <-]. right. right. split; [done|]. exists r'.
      split; [done | by right]. }
    destruct (ReadResponse (client_request r')) as [usResp|e] eqn:HR.
    2:{ intros [= <- <-]. right. left. split; [done|]. right. exists r'.
        repeat split; [done..|]. by left. }
    destruct (bool_decide (Proxy.us_StatusCode usResp
                           ≠ Proxy.StatusSwitchingProtocols)) eqn:Hst; [done|].
    apply bool_decide_eq_false_1 in Hst.
    assert (Proxy.us_StatusCode usResp = 101) as H101.
    { destruct (decide (Proxy.us_StatusCode usResp = 101)); [done|].
      by destruct Hst. }
    destruct File as [e|] eqn:HF.
    2:{ by destruct FileConn. }
    intros [= <- <-]. right. left. split; [done|]. right. exists r'.
    repeat split; [done..|]. right. split; [|done]. by exists usResp.
  - intros [= <- <-].
    destruct (ServeHTTP_own_error r e c HS)
      as (Hpost & Hpath & Hct & [[-> Hwhy] | [-> Hwhy]]).
    + right. left. split; [done|]. by left.
    + by left.
Qed.

End HandlerShape.

Lemma ServeHTTP_forwarded_witness :
  Proxy.handle Sample.ToLower Sample.Dial Sample.WriteRequest
    Sample.ReadResponse None None
    Sample.Output Sample.parse Sample.Marshal Sample.proxy
    (Sample.create_request "{}")
  = Proxy.Relayed
      (Proxy.client_request Sample.ToLower
         (Spec.with_body (Sample.create_request "{}") "{}"))
      201
      (<["Connection" := ["close"]]>
         (<["Content-Type" := ["application/json"]]> ∅))
  /\ Proxy.Header
       (Proxy.Req
          (Proxy.client_request Sample.ToLower
             (Spec.with_body (Sample.create_request "{}") "{}")))
     !! "Connection" = Some ["close"].
Proof.
  assert (Proxy.handle Sample.ToLower Sample.Dial Sample.WriteRequest
            Sample.ReadResponse None None
            Sample.Output Sample.parse Sample.Marshal Sample.proxy
            (Sample.create_request "{}")
          = Proxy.Relayed
              (Proxy.client_request Sample.ToLower
                 (Spec.with_body (Sample.create_request "{}") "{}"))
              201
              (<["Connection" := ["close"]]>
                 (<["Content-Type" := ["application/json"]]> ∅))) as H
    by reflexivity.
  split; [exact H|].
  exact (proj1 (proj2 (proj2 (proj2 (proj2 (proj2 (proj2 (proj2
           (ServeHTTP_forwarded Sample.ToLower Sample.Dial Sample.WriteRequest
              Sample.ReadResponse None None
              Sample.Output Sample.parse Sample.Marshal Sample.proxy
              (Sample.create_request "{}") _
              (or_intror (ex_intro _ 201 (ex_intro _ _ H)))))))))))).
Defined.

Lemma ServeHTTP_error_witness :
  Proxy.handle Sample.ToLower Sample.Dial_refused Sample.WriteRequest
    Sample.ReadResponse None None
    Sample.Output Sample.parse Sample.Marshal Sample.proxy
    {| Proxy.Method := "GET";
       Proxy.URL_Path := "/v1.41/containers/json";
       Proxy.Header := ∅;
       Proxy.Body := EmptyString;
       Proxy.BodyReadErr := None;
       Proxy.BodyCloseErr := None;
       Proxy.ContentLength := 0 |}
  = Proxy.Answered (OpError "dial" (SyscallError "connect" (Errno 111))) 502
  /\ Proxy.handle Sample.ToLower Sample.Dial Sample.WriteRequest
       Sample.ReadResponse None None
       Sample.Output Sample.parse Sample.Marshal Sample.proxy
       (Sample.create_request "image=alpine")
     = Proxy.Answered (ErrorString "invalid character") 400
  /\ Proxy.Method (Sample.create_request "image=alpine") = "POST".
Proof.
  split; [reflexivity|]. split; [reflexivity|].
  destruct (ServeHTTP_error Sample.ToLower Sample.Dial Sample.WriteRequest
              Sample.ReadResponse None None
              Sample.Output Sample.parse Sample.Marshal Sample.proxy
              (Sample.create_request "image=alpine")
              (ErrorString "invalid character") 400 eq_refl)
    as [(_ & Hpost & _) | [(Hcode & _) | (Hcode & _)]];
    [exact Hpost | discriminate Hcode | discriminate Hcode].
Defined.

(** ** More on the path translator (proxy.go [translateHostPath]) *)

Lemma Join_Split (s : string) (c : ascii) :
  Strings.Join (Strings.Split s c) (String c EmptyString) = s.
Proof.
  induction s as [|d s IH]; [reflexivity|].
  rewrite Split_cons. pose proof (Split_nonempty s c) as Hne.
  destruct (Strings.Split s c) as [|q qs] eqn:E; [done|].
  destruct (Ascii.eqb d c) eqn:Edc.
  - apply Ascii.eqb_eq in Edc as ->.
    change (Strings.Join (EmptyString :: q :: qs) (String c EmptyString))
      with (String c (Strings.Join (q :: qs) (String c EmptyString))).
    by rewrite IH.
  - destruct qs as [|q' qs]; cbn [Strings.Join] in *; [by rewrite IH|].
    rewrite append_cons. by rewrite IH.
Qed.

Lemma Join_app (l1 l2 : list string) (sep : string) :
  l1 ≠ [] ->
  Strings.Join (l1 ++ l2) sep
  = Strings.Join l1 sep
      +:+ match l2 with [] => EmptyString | _ => sep +:+ Strings.Join l2 sep end.
Proof.
  intros Hne. induction l1 as [|a l1 IH]; [done|].
  destruct l1 as [|b l1].
  - destruct l2 as [|c l2]; cbn [app Strings.Join].
    + clear. induction a as [|x a IHa]; [done|]. by rewrite append_cons, <- IHa.
    + reflexivity.
  - change (Strings.Join ((a :: b :: l1) ++ l2) sep)
      with (a +:+ sep +:+ Strings.Join ((b :: l1) ++ l2) sep).
    rewrite IH by done.
    change (Strings.Join (a :: b :: l1) sep)
      with (a +:+ sep +:+ Strings.Join (b :: l1) sep).
    by rewrite !append_assoc.
Qed.

Lemma fold_plain (rooted : bool) (l stack : list string) :
  forallb (fun e => negb (bool_decide (e = EmptyString))
                    && negb (bool_decide (e = "."))
                    && negb (bool_decide (e = ".."))) l = true ->
  fold_left (Path.clean_step rooted) l stack = rev l ++ stack.
Proof.
  revert stack. induction l as [|e l IH]; intros stack H; [done|].
  cbn [forallb] in H. apply andb_true_iff in H as [He H].
  apply andb_true_iff in He as [He Hdd]. apply andb_true_iff in He as [He Hd].
  apply negb_true_iff, bool_decide_eq_false_1 in He, Hd, Hdd.
  cbn [fold_left rev]. rewrite IH by done. rewrite <- app_assoc.
  unfold Path.clean_step. by rewrite !decide_False by done.
Qed.

Lemma fold_no_dotdot (rooted : bool) (l stack : list string) :
  forallb (fun e => negb (bool_decide (e = ".."))) l = true ->
  exists kept, fold_left (Path.clean_step rooted) l stack = kept ++ stack.
Proof.
  revert stack. induction l as [|e l IH]; intros stack H; [by exists []|].
  cbn [forallb] in H. apply andb_true_iff in H as [He H].
  apply negb_true_iff, bool_decide_eq_false_1 in He.
  cbn [fold_left]. unfold Path.clean_step at 2.
  destruct (decide (e = EmptyString)); [by apply IH|].
  destruct (decide (e = ".")); [by apply IH|].
  rewrite decide_False by done.
  destruct (IH (e :: stack) H) as [kept ->].
  exists (kept ++ [e]). by rewrite <- app_assoc.
Qed.

(** Joining a path without ".." under a clean rooted path stays under it. *)
Lemma Clean_under_root (r t : string) :
  Spec.plain_elements r = true ->
  Spec.no_dotdot t = true ->
  exists tail,
    Path.Clean (String "/" r +:+ String "/" t) = String "/" r +:+ tail
    /\ (tail = EmptyString \/ Strings.HasPrefix tail "/" = true).
Proof.
  unfold Spec.plain_elements, Spec.no_dotdot. intros Hr Ht.
  rewrite append_cons, Clean_cons. cbv zeta.
  rewrite Ascii.eqb_refl, Split_cons, Ascii.eqb_refl, Split_app.
  cbn [fold_left]. unfold Path.clean_step at 2.
  rewrite decide_True by done.
  rewrite fold_left_app, (fold_plain _ _ _ Hr), app_nil_r.
  destruct (fold_no_dotdot true _ (rev (Strings.Split r "/")) Ht) as [kept ->].
  rewrite rev_app_distr, rev_involutive.
  rewrite Join_app by apply Split_nonempty. rewrite Join_Split.
  exists (match rev kept with
          | [] => EmptyString
          | _ => "/" +:+ Strings.Join (rev kept) "/"
          end).
  split; [reflexivity|]. destruct (rev kept); [by left | right; apply (prefix_app "/")].
Qed.

Section TranslateUnderRoot.

Variable Output : string -> list string -> string * option error.

(** X7.  Under a shared root that is a clean absolute path, a local absolute
    host path with no ".." element is translated to the root itself or to a
    path below it; when the root lies under /mnt/wsl/, as every root [main]
    builds does, translating the result again returns it unchanged. *)
Theorem translateHostPath_under_root
    (p : Proxy.podmanProxy) (root hostPath winPath : string) :
  Proxy.sharedRoot p = String "/" root ->
  Spec.plain_elements root = true ->
  Strings.HasPrefix hostPath "/mnt/wsl/" = false ->
  Output "wslpath" ["-aw"; hostPath] = (winPath, None) ->
  Strings.HasPrefix winPath "\\wsl.localhost\" = true ->
  Strings.HasPrefix hostPath "/" = true ->
  Spec.no_dotdot hostPath = true ->
  exists tail : string,
    Proxy.translateHostPath Output p hostPath
    = (Proxy.sharedRoot p +:+ tail, None)
    /\ (tail = EmptyString \/ Strings.HasPrefix tail "/" = true)
    /\ (Strings.HasPrefix (Proxy.sharedRoot p) "/mnt/wsl/" = true ->
        Proxy.translateHostPath Output p (Proxy.sharedRoot p +:+ tail)
        = (Proxy.sharedRoot p +:+ tail, None)).
Proof.
  intros Hroot Hplain Hout Hcmd Hwin Habs Hdd.
  destruct (Clean_under_root root hostPath Hplain Hdd) as (tail & Hclean & Htail).
  exists tail. rewrite Hroot. split; [|split; [done|]].
  - unfold Proxy.translateHostPath, Wslpath.ToWindows, Wslpath.runCommand.
    rewrite Hout, Hcmd, Hwin, Habs, Hroot. cbn [negb].
    rewrite Join_root by done. rewrite Clean_TrimLeft by done.
    by rewrite Hclean.
  - intros Hunder. apply translateHostPath_mnt_wsl.
    eapply HasPrefix_trans; [exact Hunder|]. apply prefix_app.
Qed.

End TranslateUnderRoot.

Lemma translateHostPath_under_root_witness :
  exists tail : string,
    Proxy.translateHostPath Sample.Output Sample.proxy "/home//user/./data"
    = (Proxy.sharedRoot Sample.proxy +:+ tail, None)
    /\ (tail = EmptyString \/ Strings.HasPrefix tail "/" = true)
    /\ (Strings.HasPrefix (Proxy.sharedRoot Sample.proxy) "/mnt/wsl/" = true ->
        Proxy.translateHostPath Sample.Output Sample.proxy
          (Proxy.sharedRoot Sample.proxy +:+ tail)
        = (Proxy.sharedRoot Sample.proxy +:+ tail, None)).
Proof.
  apply (translateHostPath_under_root Sample.Output Sample.proxy
           "mnt/wsl/distro-roots/Ubuntu" "/home//user/./data"
           "\\wsl.localhost\Ubuntu\home\\user\.\data"); reflexivity.
Defined.

(** A ".." element, which [path.Join] resolves, leads out of the shared
    root. *)
Example translateHostPath_dotdot :
  Proxy.translateHostPath Sample.Output Sample.proxy "/../../../etc"
  = ("/mnt/etc", None).
Proof. reflexivity. Qed.

(** ** More on the body rewriter (proxy.go [mangleDockerVolumes]) *)
Section DockerFacts.

Variable Output : string -> list string -> string * option error.
Variable p : Proxy.podmanProxy.

(** X8.  [mangleDockerVolumes] touches nothing but [HostConfig.Binds]: every
    other key of the body, and every other key of [HostConfig], holds after
    the call what it held before, whether the call fails or not. *)
Theorem mangleDockerVolumes_frame (body : gmap string any) :
  (forall key : string,
     key ≠ "HostConfig" ->
     fst (Proxy.mangleDockerVolumes Output p body) !! key = body !! key)
  /\ (fst (Proxy.mangleDockerVolumes Output p body) !! "HostConfig"
      = body !! "HostConfig"
      \/ exists hostConfig hostConfig' : gmap string any,
           body !! "HostConfig" = Some (VMap hostConfig)
           /\ fst (Proxy.mangleDockerVolumes Output p body) !! "HostConfig"
              = Some (VMap hostConfig')
           /\ forall key : string,
                key ≠ "Binds" -> hostConfig' !! key = hostConfig !! key).
Proof.
  unfold Proxy.mangleDockerVolumes.
  destruct (assert_map (body !! "HostConfig")) as [hostConfig|] eqn:Ehc;
    [|split; [done | by left]].
  destruct (assert_slice (hostConfig !! "Binds")) as [binds|];
    [|split; [done | by left]].
  destruct (Proxy.mangleBinds Output p binds []) as [newBinds [e|]];
    [split; [done | by left]|].
  cbn [fst]. split.
  - intros key Hkey. by rewrite lookup_insert_ne.
  - right. exists hostConfig, (<["Binds" := appended newBinds]> hostConfig).
    repeat split.
    + destruct (body !! "HostConfig") as [[ | | | | | | m | | ]|]; try done.
      cbn [assert_map] in Ehc. by injection Ehc as ->.
    + by rewrite lookup_insert.
    + intros key Hkey. by rewrite lookup_insert_ne.
Qed.

(** X9.  When [mangleDockerVolumes] fails the body is as it was, and the
    error is the translator's error for the host segment of one of the
    strings of [HostConfig.Binds]. *)
Theorem mangleDockerVolumes_error (body : gmap string any) (e : error) :
  snd (Proxy.mangleDockerVolumes Output p body) = Some e ->
  fst (Proxy.mangleDockerVolumes Output p body) = body
  /\ exists (hostConfig : gmap string any) (binds : list any) (s : string),
       body !! "HostConfig" = Some (VMap hostConfig)
       /\ hostConfig !! "Binds" = Some (VSlice binds)
       /\ VString s ∈ binds
       /\ snd (Proxy.translateHostPath Output p
                 (hd EmptyString (Strings.Split s ":"))) = Some e.
Proof.
  unfold Proxy.mangleDockerVolumes.
  destruct (body !! "HostConfig") as [[ | | | | | | hostConfig | | ]|]; try done.
  cbn [assert_map].
  destruct (hostConfig !! "Binds") as [[ | | | | binds | | | | ]|] eqn:Eb;
    try done.
  cbn [assert_slice].
  destruct (Proxy.mangleBinds Output p binds []) as [newBinds [e'|]] eqn:E;
    [|done].
  cbn [fst snd]. intros [= ->]. split; [done|].
  exists hostConfig, binds.
  destruct (mangleBinds_error Output p binds [] e) as (s & Hs & He);
    [by rewrite E|].
  exists s. by repeat split.
Qed.

Lemma forallb_elem_of (f : any -> bool) (l : list any) :
  forallb f l = true -> forall x, x ∈ l -> f x = true.
Proof.
  induction l as [|v rest IH]; intros Hall x Hx; [by apply elem_of_nil in Hx|].
  cbn [forallb] in Hall. apply andb_true_iff in Hall as [Hv Hrest].
  apply elem_of_cons in Hx as [-> | Hx]; [done | by apply IH].
Qed.

Lemma rewritten_bind_translated (v : any) :
  Spec.translated_bind v = true ->
  Spec.rewritten_bind (Proxy.translateHostPath Output p) v = v.
Proof.
  destruct v as [ | b | lit | s | l | | m | l | l]; try done.
  cbn [Spec.translated_bind Spec.rewritten_bind]. intros H.
  rewrite (translateHostPath_mnt_wsl Output p _ H). cbn [fst].
  pose proof (Split_nonempty s ":") as Hne.
  pose proof (Join_Split s ":") as HJ.
  destruct (Strings.Split s ":") as [|q qs]; [done|].
  cbn [hd tl]. by rewrite HJ.
Qed.

(** X10.  A body whose binds are already translated is left as it is: when
    [HostConfig.Binds] is an array that is not empty, of strings only, and
    the host segment of each lies under /mnt/wsl/, the rewrite returns the
    body unchanged, without an error and without asking [wslpath]. *)
Theorem mangleDockerVolumes_translated
    (body hostConfig : gmap string any) (binds : list any) :
  body !! "HostConfig" = Some (VMap hostConfig) ->
  hostConfig !! "Binds" = Some (VSlice binds) ->
  binds ≠ [] ->
  forallb Spec.translated_bind binds = true ->
  Proxy.mangleDockerVolumes Output p body = (body, None).
Proof.
  intros Hhc Hbinds Hne Hall.
  assert (forall v, v ∈ binds -> Spec.translated_bind v = true) as Hin.
  { by apply forallb_elem_of. }
  unfold Proxy.mangleDockerVolumes.
  rewrite Hhc. cbn [assert_map]. rewrite Hbinds. cbn [assert_slice].
  rewrite mangleBinds_translated.
  - cbn [app].
    assert (map (Spec.rewritten_bind (Proxy.translateHostPath Output p)) binds
            = binds) as ->.
    { clear Hbinds Hne Hall. induction binds as [|v rest IH]; [done|].
      cbn [map]. rewrite rewritten_bind_translated by (apply Hin; by left).
      rewrite IH; [done|]. intros v' Hv'. apply Hin. by right. }
    assert (appended binds = VSlice binds) as -> by by destruct binds.
    by rewrite (insert_id hostConfig), (insert_id body).
  - intros s Hs. apply Hin in Hs. cbn [Spec.translated_bind] in Hs.
    by rewrite (translateHostPath_mnt_wsl Output p _ Hs).
Qed.

End DockerFacts.

Lemma mangleDockerVolumes_error_witness :
  snd (Proxy.mangleDockerVolumes Sample.Output Sample.proxy
         (decoded_object
            [("HostConfig", JObject [("Binds", JArray [JString ":/data"])])]))
  = Some (ExitError 1)
  /\ fst (Proxy.mangleDockerVolumes Sample.Output Sample.proxy
            (decoded_object
               [("HostConfig", JObject [("Binds", JArray [JString ":/data"])])]))
     = decoded_object
         [("HostConfig", JObject [("Binds", JArray [JString ":/data"])])].
Proof.
  split; [reflexivity|].
  exact (proj1 (mangleDockerVolumes_error Sample.Output Sample.proxy
                  (decoded_object
                     [("HostConfig",
                       JObject [("Binds", JArray [JString ":/data"])])])
                  (ExitError 1) eq_refl)).
Defined.

Lemma mangleDockerVolumes_translated_witness :
  Proxy.mangleDockerVolumes Sample.Output Sample.proxy
    (decoded_object
       [("HostConfig",
         JObject [("Binds",
                   JArray [JString "/mnt/wsl/distro-roots/Ubuntu/srv:/srv:ro";
                           JString "/mnt/wsl/shared:/shared"])])])
  = (decoded_object
       [("HostConfig",
         JObject [("Binds",
                   JArray [JString "/mnt/wsl/distro-roots/Ubuntu/srv:/srv:ro";
                           JString "/mnt/wsl/shared:/shared"])])], None).
Proof.
  apply (mangleDockerVolumes_translated Sample.Output Sample.proxy _
           (decoded_object
              [("Binds",
                JArray [JString "/mnt/wsl/distro-roots/Ubuntu/srv:/srv:ro";
                        JString "/mnt/wsl/shared:/shared"])])
           [VString "/mnt/wsl/distro-roots/Ubuntu/srv:/srv:ro";
            VString "/mnt/wsl/shared:/shared"]);
    [reflexivity | reflexivity | discriminate | reflexivity].
Defined.

(** ** The handler and the libpod endpoint (proxy.go [ServeHTTP],
    [mangleLibpodVolumes]) *)

(** What the decoder leaves in [bodyObj] without an error the libpod
    rewrite leaves as it is. *)
Lemma Decode_libpod (parse : string -> json + error) (data : string)
    (bodyObj : gomap)
    (Output : string -> list string -> string * option error)
    (p : Proxy.podmanProxy) :
  Proxy.Decode parse data = (bodyObj, None) ->
  on_map (Proxy.mangleLibpodVolumes Output p) bodyObj = (bodyObj, None).
Proof.
  unfold Proxy.Decode. destruct (parse data) as [[ | b | n | s | l | members]|e];
    intros [= <-]; [reflexivity|].
  cbn [on_map]. by rewrite mangleLibpodVolumes_decoded.
Qed.

(** X11.  On the libpod endpoint the handler never asks for a translation:
    whatever [wslpath] would answer and whatever the shared root is, the
    request is answered or forwarded in the same way, the forwarded body
    being the encoding of the decoded body as it was. *)
Theorem ServeHTTP_libpod_without_translation
    (Output Output' : string -> list string -> string * option error)
    (parse : string -> json + error)
    (Marshal : gomap -> string * option error)
    (p p' : Proxy.podmanProxy) (r : Proxy.Request) :
  Spec.normalized (Proxy.URL_Path r) = "/libpod/containers/create" ->
  Proxy.ServeHTTP Output parse Marshal p r
  = Proxy.ServeHTTP Output' parse Marshal p' r
  /\ forall r' : Proxy.Request,
       Proxy.ServeHTTP Output parse Marshal p r = Proxy.Forwarded r' ->
       r' = r
       \/ exists bodyObj : gomap,
            Proxy.Decode parse (Proxy.Body r) = (bodyObj, None)
            /\ Marshal bodyObj = (Proxy.Body r', None).
Proof.
  intros Hpath.
  assert (forall O q,
            Proxy.ServeHTTP O parse Marshal q r
            = if bool_decide (Proxy.Method r ≠ "POST") then Proxy.Forwarded r
              else if bool_decide (Proxy.Header_Get (Proxy.Header r) "Content-Type"
                                   ≠ "application/json")
                      && bool_decide (Proxy.Header_Get (Proxy.Header r)
                                        "Content-Type" ≠ EmptyString)
              then Proxy.Forwarded r
              else
                match Proxy.BodyReadErr r with
                | Some err => Proxy.HttpError err Proxy.StatusInternalServerError
                | None =>
                match Proxy.BodyCloseErr r with
                | Some err => Proxy.HttpError err Proxy.StatusInternalServerError
                | None =>
                match Proxy.Decode parse (Proxy.Body r) with
                | (_, Some err) => Proxy.HttpError err Proxy.StatusBadRequest
                | (bodyObj, None) =>
                match Marshal bodyObj with
                | (_, Some err) =>
                    Proxy.HttpError err Proxy.StatusInternalServerError
                | (newBody, None) => Proxy.Forwarded (Spec.with_body r newBody)
                end end end end) as Heq.
  { intros O q. unfold Proxy.ServeHTTP.
    fold (Spec.normalized (Proxy.URL_Path r)). rewrite Hpath.
    change (bool_decide ("/libpod/containers/create" ≠ "/containers/create")
            && bool_decide ("/libpod/containers/create"
                            ≠ "/libpod/containers/create")) with false.
    rewrite orb_false_r.
    change (Strings.HasPrefix "/libpod/containers/create" "/libpod") with true.
    cbv iota.
    destruct (bool_decide (Proxy.Method r ≠ "POST")); [done|]. cbv iota.
    destruct (bool_decide (Proxy.Header_Get (Proxy.Header r) "Content-Type"
                           ≠ "application/json")
              && bool_decide (Proxy.Header_Get (Proxy.Header r) "Content-Type"
                              ≠ EmptyString)); [done|].
    destruct (Proxy.BodyReadErr r); [done|].
    destruct (Proxy.BodyCloseErr r); [done|].
    destruct (Proxy.Decode parse (Proxy.Body r)) as [bodyObj [e|]] eqn:ED;
      [done|].
    rewrite (Decode_libpod _ _ _ O q ED).
    by destruct (Marshal bodyObj) as [newBody [e|]]. }
  split; [by rewrite !Heq|].
  intros r'. rewrite Heq.
  destruct (bool_decide (Proxy.Method r ≠ "POST")); [intros [= <-]; by left|].
  destruct (bool_decide (Proxy.Header_Get (Proxy.Header r) "Content-Type"
                         ≠ "application/json")
            && bool_decide (Proxy.Header_Get (Proxy.Header r) "Content-Type"
                            ≠ EmptyString)); [intros [= <-]; by left|].
  destruct (Proxy.BodyReadErr r); [done|].
  destruct (Proxy.BodyCloseErr r); [done|].
  destruct (Proxy.Decode parse (Proxy.Body r)) as [bodyObj [e|]]; [done|].
  destruct (Marshal bodyObj) as [newBody [e|]] eqn:HM; [done|].
  intros [= <-]. right. by exists bodyObj.
Qed.

Lemma ServeHTTP_libpod_without_translation_witness :
  Proxy.ServeHTTP Sample.Output Sample.parse Sample.Marshal Sample.proxy
    {| Proxy.Method := "POST";
       Proxy.URL_Path := "/v4.0.0/libpod/containers/create";
       Proxy.Header := ∅;
       Proxy.Body := "{}";
       Proxy.BodyReadErr := None;
       Proxy.BodyCloseErr := None;
       Proxy.ContentLength := 2 |}
  = Proxy.ServeHTTP (fun _ _ => (EmptyString, Some (ExitError 127)))
      Sample.parse Sample.Marshal (Proxy.NewPodmanProxy "" "" "")
      {| Proxy.Method := "POST";
         Proxy.URL_Path := "/v4.0.0/libpod/containers/create";
         Proxy.Header := ∅;
         Proxy.Body := "{}";
         Proxy.BodyReadErr := None;
         Proxy.BodyCloseErr := None;
         Proxy.ContentLength := 2 |}.
Proof.
  exact (proj1 (ServeHTTP_libpod_without_translation Sample.Output
                  (fun _ _ => (EmptyString, Some (ExitError 127)))
                  Sample.parse Sample.Marshal Sample.proxy
                  (Proxy.NewPodmanProxy "" "" "")
                  {| Proxy.Method := "POST";
                     Proxy.URL_Path := "/v4.0.0/libpod/containers/create";
                     Proxy.Header := ∅;
                     Proxy.Body := "{}";
                     Proxy.BodyReadErr := None;
                     Proxy.BodyCloseErr := None;
                     Proxy.ContentLength := 2 |} eq_refl)).
Defined.

(** ** More on the raw byte forwarder (rawproxy.go) *)
Section ForwardConserves.

(** Any [Select] that leaves the connections alone: it may report any
    descriptors as ready, or fail. *)
Variable Select : Z -> gset Z
                  -> Rawproxy.io Sample.world (gset Z * option error).
Hypothesis Select_pure :
  forall (nfd : Z) (fds : gset Z) (w : Sample.world), snd (Select nfd fds w) = w.

Lemma forwardData_conserves (readFds : gset Z) (buffer : nat) (fd : Z)
    (src : bool) (w : Sample.world) (c : bool) :
  Spec.in_flight c
    (snd (Rawproxy.forwardData Sample.world bool Sample.Read Sample.Write
            readFds buffer fd src (negb src) w))
  = Spec.in_flight c w.
Proof.
  unfold Rawproxy.forwardData, Rawproxy.bind, Rawproxy.ret.
  destruct (Rawproxy.FdSet_IsSet readFds fd); [|done].
  unfold Sample.Read.
  destruct w as [rt rf wt wf].
  destruct src; cbn [Sample.reads_true Sample.reads_false negb].
  - destruct rt as [|[data [err|]] rt]; cbn [fst snd].
    + by destruct (_ || _).
    + destruct (_ || _); destruct c; done.
    + destruct (0 <? List.length data)%nat eqn:En.
      * destruct c; unfold Spec.in_flight, Spec.written, Spec.reads,
          Spec.pending, Sample.Write; cbn; [by rewrite <- app_assoc | done].
      * apply Nat.ltb_ge in En. destruct data; [|simpl in En; lia].
        by destruct c.
  - destruct rf as [|[data [err|]] rf]; cbn [fst snd].
    + by destruct (_ || _).
    + destruct (_ || _); destruct c; done.
    + destruct (0 <? List.length data)%nat eqn:En.
      * destruct c; unfold Spec.in_flight, Spec.written, Spec.reads,
          Spec.pending, Sample.Write; cbn; [done | by rewrite <- app_assoc].
      * apply Nat.ltb_ge in En. destruct data; [|simpl in En; lia].
        by destruct c.
Qed.

Lemma turn_conserves (fd1 fd2 : Z) (buffer : nat) (w : Sample.world)
    (c : bool) :
  Spec.in_flight c
    (snd (Rawproxy.turn Sample.world bool Select Sample.Read Sample.Write
            fd1 fd2 true false buffer w))
  = Spec.in_flight c w.
Proof.
  unfold Rawproxy.turn, Rawproxy.bind, Rawproxy.ret.
  pose proof (Select_pure (Z.max fd1 fd2 + 1)
                (Rawproxy.FdSet_Set (Rawproxy.FdSet_Set ∅ fd1) fd2) w) as Hs.
  destruct (Select (Z.max fd1 fd2 + 1)
              (Rawproxy.FdSet_Set (Rawproxy.FdSet_Set ∅ fd1) fd2) w)
    as [[readFds [e|]] w1]; cbn [fst snd] in *; subst w1; [done|].
  pose proof (forwardData_conserves readFds buffer fd1 true w c) as H1.
  cbn [negb] in H1.
  destruct (Rawproxy.forwardData Sample.world bool Sample.Read Sample.Write
              readFds buffer fd1 true false w) as [[e1|] w2];
    cbn [snd] in *; [done|].
  pose proof (forwardData_conserves readFds buffer fd2 false w2 c) as H2.
  cbn [negb] in H2.
  destruct (Rawproxy.forwardData Sample.world bool Sample.Read Sample.Write
              readFds buffer fd2 false true w2) as [[e2|] w3];
    cbn [snd] in *; by rewrite H2.
Qed.

(** X13.  The forwarder neither drops, repeats nor reorders a byte.  With
    reads that deliver what a script says and writes that succeed, and any
    [Select] that leaves the connections alone, after any number of turns the
    bytes written to one connection, followed by the bytes its peer still has
    to deliver, are what they were at the start: each byte read without an
    error from one side has been written, once and in order, to the other. *)
Theorem forward_conserves (turns : nat) (fd1 fd2 : Z) (buffer : nat)
    (w : Sample.world) (c : bool) :
  Spec.in_flight c
    (snd (Rawproxy.forward Sample.world bool Select Sample.Read Sample.Write
            turns fd1 fd2 true false buffer w))
  = Spec.in_flight c w.
Proof.
  revert w. induction turns as [|turns IH]; intros w; [done|].
  rewrite forward_unfold.
  pose proof (turn_conserves fd1 fd2 buffer w c) as Ht.
  destruct (Rawproxy.turn Sample.world bool Select Sample.Read Sample.Write
              fd1 fd2 true false buffer w) as [[e|] w']; cbn [snd] in *;
    [done|].
  by rewrite IH.
Qed.

End ForwardConserves.

Lemma forward_conserves_witness :
  Spec.in_flight true
    (snd (Rawproxy.forward Sample.world bool Sample.Select Sample.Read
            Sample.Write 5 7 8 true false 4096 Sample.script))
  = [Byte.x68; Byte.x69].
Proof.
  exact (forward_conserves Sample.Select (fun _ _ _ => eq_refl)
           5 7 8 4096 Sample.script true).
Defined.

(** ** More on the Node service's body rewriters (index.mjs) *)
Section PatchShape.

Variable sharedRoot : string.
Variable execFileSync : string -> list string -> string + IndexMjs.exception.
Variable trim : string -> string.
Variable path_join : list string -> string.

Local Abbreviation translate :=
  (IndexMjs.translateHostPath sharedRoot execFileSync trim path_join).
Local Abbreviation patchBinds :=
  (IndexMjs.patchBinds sharedRoot execFileSync trim path_join).
Local Abbreviation patchVolumesDocker :=
  (IndexMjs.patchVolumesDocker sharedRoot execFileSync trim path_join).
Local Abbreviation patchVolumesLibpod :=
  (IndexMjs.patchVolumesLibpod sharedRoot execFileSync trim path_join).

Lemma patchBinds_rewrites_every_bind (mounts mounts' : list IndexMjs.jsval) :
  patchBinds mounts = (mounts', None) ->
  List.length mounts' = List.length mounts
  /\ forall (i : nat) (v : IndexMjs.jsval),
       mounts !! i = Some v ->
       exists bind new : string,
         v = IndexMjs.Str bind
         /\ translate (IndexMjs.Str (hd EmptyString (Strings.Split bind ":")))
            = inl new
         /\ mounts' !! i
            = Some (IndexMjs.Str
                      (Strings.Join (new :: tl (Strings.Split bind ":")) ":")).
Proof.
  revert mounts'; induction mounts as [|m rest IH]; intros mounts' H.
  - injection H as <-. split; [done|]. intros i v Hi. done.
  - destruct m as [ | | b | lit | bind | elems | props]; try done.
    cbn [IndexMjs.patchBinds] in H. rewrite head_lookup in H.
    destruct (translate (IndexMjs.Str (hd EmptyString (Strings.Split bind ":"))))
      as [new|e] eqn:Etr; [|done].
    rewrite insert_head in H by apply Split_nonempty.
    destruct (patchBinds rest) as [rest' err] eqn:Erest.
    injection H as <- ->.
    destruct (IH rest' eq_refl) as [Hlen Hget].
    split; [simpl; by rewrite Hlen|].
    intros [|i] v Hi; simpl in Hi.
    + injection Hi as <-. by exists bind, new.
    + simpl. by apply Hget.
Qed.

(** X14.  When [patchVolumesDocker] ends without an exception on a body whose
    [HostConfig.Binds] is an array, every element of the array was a string,
    and the body is as it was but for that array, in which each string has
    its first colon-separated segment replaced by its translation.  (An
    element that is not a string has no [split]: the call throws.) *)
Theorem patchVolumesDocker_rewrites_binds
    (props hostConfig : list (string * IndexMjs.jsval))
    (mounts : list IndexMjs.jsval) (body' : IndexMjs.jsval) :
  IndexMjs.lookup_prop props "HostConfig" = IndexMjs.Object hostConfig ->
  IndexMjs.lookup_prop hostConfig "Binds" = IndexMjs.Array mounts ->
  patchVolumesDocker (IndexMjs.Object props) = (body', None) ->
  exists mounts' : list IndexMjs.jsval,
    body'
    = IndexMjs.Object
        (IndexMjs.assign_prop props "HostConfig"
           (IndexMjs.Object
              (IndexMjs.assign_prop hostConfig "Binds" (IndexMjs.Array mounts'))))
    /\ List.length mounts' = List.length mounts
    /\ forall (i : nat) (v : IndexMjs.jsval),
         mounts !! i = Some v ->
         exists bind new : string,
           v = IndexMjs.Str bind
           /\ translate (IndexMjs.Str (hd EmptyString (Strings.Split bind ":")))
              = inl new
           /\ mounts' !! i
              = Some (IndexMjs.Str
                        (Strings.Join (new :: tl (Strings.Split bind ":")) ":")).
Proof.
  intros Hhc Hbinds. unfold IndexMjs.patchVolumesDocker.
  cbn [IndexMjs.get]. rewrite Hhc. cbn [IndexMjs.get]. rewrite Hbinds.
  destruct (patchBinds mounts) as [mounts' err] eqn:E.
  cbn [IndexMjs.set]. intros [= <- ->].
  exists mounts'. split; [done|]. by apply patchBinds_rewrites_every_bind.
Qed.

(** X15.  When [patchVolumesLibpod] ends without an exception on a body whose
    [mounts] is an array, every element of the array was an object whose
    [source] is a string, and the body is as it was but for these sources,
    each replaced by its translation.  (A mount without a [source], or one
    that is not an object, makes the call throw.) *)
Theorem patchVolumesLibpod_rewrites_sources
    (props : list (string * IndexMjs.jsval))
    (mounts : list IndexMjs.jsval) (body' : IndexMjs.jsval) :
  IndexMjs.lookup_prop props "mounts" = IndexMjs.Array mounts ->
  patchVolumesLibpod (IndexMjs.Object props) = (body', None) ->
  exists mounts' : list IndexMjs.jsval,
    body'
    = IndexMjs.Object (IndexMjs.assign_prop props "mounts" (IndexMjs.Array mounts'))
    /\ List.length mounts' = List.length mounts
    /\ forall (i : nat) (mount : IndexMjs.jsval),
         mounts !! i = Some mount ->
         exists (mprops : list (string * IndexMjs.jsval)) (src new : string),
           mount = IndexMjs.Object mprops
           /\ IndexMjs.lookup_prop mprops "source" = IndexMjs.Str src
           /\ translate (IndexMjs.Str src) = inl new
           /\ mounts' !! i
              = Some (IndexMjs.Object
                        (IndexMjs.assign_prop mprops "source" (IndexMjs.Str new))).
Proof.
  intros Hmounts. unfold IndexMjs.patchVolumesLibpod.
  cbn [IndexMjs.get]. rewrite Hmounts.
  destruct (IndexMjs.patchMounts sharedRoot execFileSync trim path_join mounts)
    as [mounts' err] eqn:E.
  cbn [IndexMjs.set]. intros [= <- ->].
  exists mounts'. split; [done|].
  by apply patchMounts_rewrites_every_source.
Qed.

End PatchShape.

Lemma patchVolumesDocker_rewrites_binds_witness :
  exists mounts' : list IndexMjs.jsval,
    fst (IndexMjs.patchVolumesDocker (IndexMjs.getSharedMountpoint "Ubuntu")
           Sample.execFileSync Sample.trim Sample.path_join
           Sample.js_docker_body)
    = IndexMjs.Object
        [("Image", IndexMjs.Str "alpine");
         ("HostConfig", IndexMjs.Object [("Binds", IndexMjs.Array mounts')])]
    /\ List.length mounts' = 2%nat.
Proof.
  destruct (patchVolumesDocker_rewrites_binds
              (IndexMjs.getSharedMountpoint "Ubuntu")
              Sample.execFileSync Sample.trim Sample.path_join
              [("Image", IndexMjs.Str "alpine");
               ("HostConfig",
                IndexMjs.Object
                  [("Binds",
                    IndexMjs.Array [IndexMjs.Str "/home/user/data:/data:ro";
                                    IndexMjs.Str "/mnt/c/x:/x"])])]
              _ _ _ eq_refl eq_refl eq_refl) as (mounts' & Hbody & Hlen & _).
  exists mounts'. split; [exact Hbody | exact Hlen].
Defined.

Lemma patchVolumesLibpod_rewrites_sources_witness :
  exists mounts' : list IndexMjs.jsval,
    fst (IndexMjs.patchVolumesLibpod (IndexMjs.getSharedMountpoint "Ubuntu")
           Sample.execFileSync Sample.trim Sample.path_join
           Sample.js_libpod_body)
    = IndexMjs.Object [("mounts", IndexMjs.Array mounts')]
    /\ List.length mounts' = 2%nat.
Proof.
  destruct (patchVolumesLibpod_rewrites_sources
              (IndexMjs.getSharedMountpoint "Ubuntu")
              Sample.execFileSync Sample.trim Sample.path_join
              [("mounts",
                IndexMjs.Array
                  [IndexMjs.Object [("destination", IndexMjs.Str "/cache");
                                    ("type", IndexMjs.Str "volume");
                                    ("source", IndexMjs.Str "/mnt/c/cache")];
                   IndexMjs.Object [("destination", IndexMjs.Str "/data");
                                    ("type", IndexMjs.Str "bind");
                                    ("source", IndexMjs.Str "/home/user/data")]])]
              _ _ eq_refl eq_refl) as (mounts' & Hbody & Hlen & _).
  exists mounts'. split; [exact Hbody | exact Hlen].
Defined.

(** ** More on the shutdown timer (index.mjs) *)
Section ShutdownFacts.

Variable shutdownTimeout : IndexMjs.jsnum.

Lemma dispatch_exited (s s' : IndexMjs.state) (ev : IndexMjs.event) :
  IndexMjs.dispatch shutdownTimeout s ev = Some s' ->
  IndexMjs.exited s' = true -> IndexMjs.armed s'.
Proof.
  unfold IndexMjs.dispatch. destruct (IndexMjs.exited s) eqn:Ex; [done|].
  assert (forall c, IndexMjs.exited (IndexMjs.release shutdownTimeout c s) = false)
    as Hrel.
  { intros c. unfold IndexMjs.release, IndexMjs.resetShutdownTimer,
      IndexMjs.clearShutdownTimer. cbn.
    destruct (decide _); [|done].
    destruct (IndexMjs.gt0 shutdownTimeout);
      by destruct (IndexMjs.shutdownTimer s). }
  assert (forall c l, IndexMjs.exited (IndexMjs.accept c l s) = false) as Hacc.
  { intros c l. unfold IndexMjs.accept, IndexMjs.clearShutdownTimer. cbn.
    by destruct (IndexMjs.shutdownTimer s). }
  destruct ev as [c | c | c | c | ].
  - destruct (IndexMjs.listeners s !! c); [done|].
    intros [= <-]. by rewrite Hacc.
  - destruct (IndexMjs.listeners s !! c) as [[|]|]; try done.
    intros [= <-]. by rewrite Hrel.
  - destruct (IndexMjs.listeners s !! c); [done|].
    intros [= <-]. by rewrite Hacc.
  - destruct (IndexMjs.listeners s !! c) as [[|]|]; try done.
    intros [= <-]. by rewrite Hrel.
  - destruct (IndexMjs.shutdownTimer s) as [d|] eqn:Et; [|done].
    intros [= <-] _. unfold IndexMjs.armed. cbn. rewrite Et. by eexists.
Qed.

Lemma run_exited (evs : list IndexMjs.event) (s s' : IndexMjs.state) :
  IndexMjs.run shutdownTimeout s evs = Some s' ->
  (IndexMjs.exited s = true -> IndexMjs.armed s) ->
  IndexMjs.exited s' = true -> IndexMjs.armed s'.
Proof.
  revert s; induction evs as [|ev evs IH]; intros s H Hs; simpl in H.
  - by injection H as <-.
  - destruct (IndexMjs.dispatch shutdownTimeout s ev) as [s1|] eqn:E; [|done].
    eapply IH; [exact H|]. by eapply dispatch_exited.
Qed.

(** X16.  The shutdown timer ends the process only when it is idle.  In a
    run of requests, upgrades, their ends and expiries of the timer from the
    start of listening (signals, which call [cleanup] too, apart): if the
    process has exited, then the configured timeout is positive, no
    connection is counted and no listener is left waiting.  With the default
    timeout of -1 the timer never ends the process. *)
Theorem exits_only_when_idle (evs : list IndexMjs.event) (s : IndexMjs.state) :
  IndexMjs.run shutdownTimeout (IndexMjs.listening shutdownTimeout) evs
  = Some s ->
  IndexMjs.exited s = true ->
  IndexMjs.gt0 shutdownTimeout = true
  /\ IndexMjs.activeConnections s = 0
  /\ IndexMjs.listeners s = ∅.
Proof.
  intros Hrun Hex.
  destruct (run_invariant shutdownTimeout evs _ _ Hrun
              (listening_invariant shutdownTimeout)) as [Hcount Htimer].
  assert (IndexMjs.armed s) as Harmed.
  { eapply run_exited; [exact Hrun | | exact Hex].
    unfold IndexMjs.listening, IndexMjs.resetShutdownTimer. cbn.
    by destruct (IndexMjs.gt0 shutdownTimeout). }
  apply Htimer in Harmed as [Hzero Hpos].
  repeat split; [done..|].
  apply map_size_empty_iff. lia.
Qed.

End ShutdownFacts.

Lemma exits_only_when_idle_witness :
  IndexMjs.exited
    {| IndexMjs.activeConnections := 0;
       IndexMjs.shutdownTimer := Some 30000;
       IndexMjs.listeners := ∅;
       IndexMjs.exited := true |} = true
  /\ IndexMjs.gt0 (IndexMjs.Num 30) = true.
Proof.
  split; [reflexivity|].
  assert (IndexMjs.run (IndexMjs.Num 30) (IndexMjs.listening (IndexMjs.Num 30))
            [IndexMjs.Request 1; IndexMjs.Finish 1; IndexMjs.Timeout]
          = Some {| IndexMjs.activeConnections := 0;
                    IndexMjs.shutdownTimer := Some 30000;
                    IndexMjs.listeners := ∅;
                    IndexMjs.exited := true |}) as H
    by (vm_compute; reflexivity).
  exact (proj1 (exits_only_when_idle (IndexMjs.Num 30) _ _ H eq_refl)).
Defined.

(** ** More on the distribution name (main.go [getWslDistroName]) *)

Lemma Split_free (s : string) (c : ascii) (piece : string) :
  piece ∈ Strings.Split s c -> Spec.free_of c piece = true.
Proof.
  revert piece. induction s as [|d s IH]; intros piece H.
  - apply list_elem_of_singleton in H as ->. reflexivity.
  - rewrite Split_cons in H. destruct (Ascii.eqb d c) eqn:E.
    + apply elem_of_cons in H as [-> | H]; [reflexivity | by apply IH].
    + pose proof (Split_nonempty s c) as Hne.
      destruct (Strings.Split s c) as [|q qs]; [done|].
      apply elem_of_cons in H as [-> | H].
      * unfold Spec.free_of. cbn [Strings.IndexByte]. rewrite E.
        apply (IH q). by left.
      * apply IH. by right.
Qed.

Section DistroFacts.

Variable Getenv : string -> string.
Variable Output : string -> list string -> string * option error.

(** X17.  A name [getWslDistroName] gets from [wslpath] is what follows the
    one slash left in the output once the slashes, blanks and line ends
    around it are removed; it holds no slash. *)
Theorem getWslDistroName_detected (name : string) :
  Getenv "WSL_DISTRO_NAME" = EmptyString ->
  Main.getWslDistroName Getenv Output = (name, None) ->
  exists out host : string,
    Output "wslpath" ["-am"; "/"] = (out, None)
    /\ Strings.Trim out Main.cutset = host +:+ String "/" name
    /\ Spec.free_of "/" host = true
    /\ Spec.free_of "/" name = true.
Proof.
  intros Henv. unfold Main.getWslDistroName, Wslpath.ToWindowsForwardSlashes,
    Wslpath.runCommand.
  rewrite Henv. cbn [negb bool_decide decide_rel].
  destruct (Output "wslpath" ["-am"; "/"]) as [out [e|]]; [done|].
  pose proof (Join_Split (Strings.Trim out Main.cutset) "/") as HJ.
  pose proof (Split_free (Strings.Trim out Main.cutset) "/") as HF.
  destruct (Strings.Split (Strings.Trim out Main.cutset) "/")
    as [|host [|name' [|x rest]]]; try done.
  cbn. intros [= <-]. exists out, host. repeat split.
  - by rewrite <- HJ.
  - apply HF. by left.
  - apply HF. right. by left.
Qed.

(** X18.  [getWslDistroName] fails only when WSL_DISTRO_NAME is not set; the
    name is then empty, and the error is the one of the [wslpath] command,
    or, when the command succeeded, the error for an output that does not
    split in two. *)
Theorem getWslDistroName_failure (e : error) :
  snd (Main.getWslDistroName Getenv Output) = Some e ->
  fst (Main.getWslDistroName Getenv Output) = EmptyString
  /\ Getenv "WSL_DISTRO_NAME" = EmptyString
  /\ (snd (Output "wslpath" ["-am"; "/"]) = Some e
      \/ exists out : string,
           Output "wslpath" ["-am"; "/"] = (out, None)
           /\ List.length (Strings.Split (Strings.Trim out Main.cutset) "/")
              ≠ 2%nat
           /\ e = ErrorString "'wslpath -am /' returned an unexpected value").
Proof.
  unfold Main.getWslDistroName, Wslpath.ToWindowsForwardSlashes,
    Wslpath.runCommand.
  destruct (decide (Getenv "WSL_DISTRO_NAME" = EmptyString)) as [Henv|Henv];
    [|by rewrite (bool_decide_eq_false_2 _ Henv)].
  rewrite (bool_decide_eq_true_2 _ Henv). cbn [negb].
  destruct (Output "wslpath" ["-am"; "/"]) as [out [e'|]].
  - cbn. intros [= ->]. repeat split; [done.. | by left].
  - destruct (List.length (Strings.Split (Strings.Trim out Main.cutset) "/")
              =? 2)%nat eqn:El; [done|].
    cbn. intros [= <-]. repeat split; [done|]. right. exists out.
    repeat split. by apply Nat.eqb_neq.
Qed.

End DistroFacts.

Lemma getWslDistroName_detected_witness :
  exists out host : string,
    ("//wsl.localhost/Ubuntu" +:+ String "010" EmptyString, @None error)
    = (out, None)
    /\ Strings.Trim out Main.cutset = host +:+ String "/" "Ubuntu"
    /\ Spec.free_of "/" host = true
    /\ Spec.free_of "/" "Ubuntu" = true.
Proof.
  exact (getWslDistroName_detected (fun _ => EmptyString)
           (fun _ _ => ("//wsl.localhost/Ubuntu" +:+ String "010" EmptyString,
                        None))
           "Ubuntu" eq_refl eq_refl).
Defined.

Lemma getWslDistroName_failure_witness :
  fst (Main.getWslDistroName (fun _ => EmptyString)
         (fun _ _ => ("C:/Users/me" +:+ String "010" EmptyString, None)))
  = EmptyString.
Proof.
  exact (proj1 (getWslDistroName_failure (fun _ => EmptyString)
                  (fun _ _ => ("C:/Users/me" +:+ String "010" EmptyString, None))
                  (ErrorString "'wslpath -am /' returned an unexpected value")
                  eq_refl)).
Defined.

(** ** The translator's errors (proxy.go [translateHostPath]) *)
Section TranslateErrors.

Variable Output : string -> list string -> string * option error.

(** X19.  [translateHostPath] fails in two ways only, and returns the empty
    path when it does: with the error of the [wslpath] command, or, for a
    path that is not absolute and that [wslpath] places under
    \\wsl.localhost\, with the path-format error.  A path under /mnt/wsl/
    never fails. *)
Theorem translateHostPath_failure
    (p : Proxy.podmanProxy) (hostPath : string) (e : error) :
  snd (Proxy.translateHostPath Output p hostPath) = Some e ->
  fst (Proxy.translateHostPath Output p hostPath) = EmptyString
  /\ Strings.HasPrefix hostPath "/mnt/wsl/" = false
  /\ (snd (Output "wslpath" ["-aw"; hostPath]) = Some e
      \/ exists winPath : string,
           Output "wslpath" ["-aw"; hostPath] = (winPath, None)
           /\ Strings.HasPrefix winPath "\\wsl.localhost\" = true
           /\ Strings.HasPrefix hostPath "/" = false
           /\ e = Proxy.BadPathFormat hostPath).
Proof.
  unfold Proxy.translateHostPath, Wslpath.ToWindows, Wslpath.runCommand.
  destruct (Strings.HasPrefix hostPath "/mnt/wsl/"); [done|].
  destruct (Output "wslpath" ["-aw"; hostPath]) as [winPath [e'|]].
  - cbn. intros [= ->]. repeat split; [done.. | by left].
  - destruct (Strings.HasPrefix winPath "\\wsl.localhost\") eqn:Ew; [|done].
    destruct (Strings.HasPrefix hostPath "/") eqn:Ea; [done|].
    cbn. intros [= <-]. split; [done|]. split; [done|]. right.
    by exists winPath.
Qed.

End TranslateErrors.

Lemma translateHostPath_failure_witness :
  fst (Proxy.translateHostPath Sample.Output Sample.proxy "data") = EmptyString
  /\ snd (Proxy.translateHostPath Sample.Output Sample.proxy "data")
     = Some (Proxy.BadPathFormat "data").
Proof.
  split; [|reflexivity].
  exact (proj1 (translateHostPath_failure Sample.Output Sample.proxy "data"
                  (Proxy.BadPathFormat "data") eq_refl)).
Defined.

(** ** The two version expressions compared (proxy.go and index.mjs) *)

(** What the greedy loop over digits has consumed when it succeeds. *)
Lemma plus_loop_digits_inv (k : string -> option string) (fuel : nat)
    (s x : string) :
  Regexp.plus_loop Regexp.Digit k fuel s = Some x ->
  exists ds s', s = ds +:+ s' /\ Spec.digits ds = true /\ k s' = Some x.
Proof.
  revert s. induction fuel as [|fuel IH]; intros s H; [done|].
  cbn [Regexp.plus_loop Regexp.run] in H.
  destruct s as [|d s]; [done|].
  destruct (Regexp.byte_in 48 57 d) eqn:Ed; [|done].
  destruct (Regexp.plus_loop Regexp.Digit k fuel s) as [y|] eqn:E.
  - injection H as ->. destruct (IH _ E) as (ds & s' & -> & Hds & Hk).
    exists (String d ds), s'. repeat split; [|done].
    unfold Spec.digits in *. apply andb_true_iff in Hds as [_ Hds].
    cbn. by rewrite Ed, Hds.
  - exists (String d EmptyString), s. repeat split; [|done].
    unfold Spec.digits. cbn. by rewrite Ed.
Qed.

(** X20.  The server of index.mjs and the proxy of proxy.go route alike every
    path in which the Node server finds a version: the Go expression, whose
    dot is not escaped, matches there too and leaves the same path. *)
Theorem normalized_agrees_with_pathWithoutVersion (path : string) :
  Regexp.MatchString IndexMjs.versionRegex path = true ->
  Spec.normalized path = IndexMjs.pathWithoutVersion path.
Proof.
  unfold Regexp.MatchString. intros H.
  apply bool_decide_eq_true_1 in H as [rest H].
  assert (Regexp.match_start Proxy.versionRegex path = Some rest) as HGo.
  { revert H. unfold Regexp.match_start, IndexMjs.versionRegex,
      Proxy.versionRegex. intros H.
    change (Regexp.run (Regexp.Seq ?a ?b) ?s ?k)
      with (Regexp.run a s (fun s' => Regexp.run b s' k)) in H.
    apply run_Lit_inv in H as (s1 & -> & H).
    change (Regexp.run (Regexp.Seq ?a ?b) ?s ?k)
      with (Regexp.run a s (fun s' => Regexp.run b s' k)) in H.
    apply run_Lit_inv in H as (s2 & -> & H).
    change (Regexp.run (Regexp.Seq ?a ?b) ?s ?k)
      with (Regexp.run a s (fun s' => Regexp.run b s' k)) in H.
    rewrite run_Plus in H.
    apply plus_loop_digits_inv in H as (ds & s3 & -> & Hds & H).
    change (Regexp.run (Regexp.Seq ?a ?b) ?s ?k)
      with (Regexp.run a s (fun s' => Regexp.run b s' k)) in H.
    apply run_Lit_inv in H as (s4 & -> & H).
    change (Regexp.run (Regexp.Seq ?a ?b) ?s ?k)
      with (Regexp.run a s (fun s' => Regexp.run b s' k)).
    change (Regexp.run (Regexp.Lit "/") (String "/" ?s) ?k) with (k s).
    cbv beta.
    change (Regexp.run (Regexp.Seq ?a ?b) ?s ?k)
      with (Regexp.run a s (fun s' => Regexp.run b s' k)).
    change (Regexp.run (Regexp.Lit "v") (String "v" ?s) ?k) with (k s).
    cbv beta.
    change (Regexp.run (Regexp.Seq ?a ?b) ?s ?k)
      with (Regexp.run a s (fun s' => Regexp.run b s' k)).
    rewrite run_Plus.
    apply plus_loop_digits; [done | done | rewrite length_append; lia |].
    change (Regexp.run (Regexp.Seq ?a ?b) ?s ?k)
      with (Regexp.run a s (fun s' => Regexp.run b s' k)).
    by rewrite run_AnyNotNL_ascii. }
  unfold Spec.normalized, IndexMjs.pathWithoutVersion, Regexp.MatchString,
    Regexp.ReplaceAllString.
  rewrite H, HGo. by rewrite bool_decide_eq_true_2.
Qed.

Lemma normalized_agrees_with_pathWithoutVersion_witness :
  Spec.normalized "/v4.0.0/libpod/containers/create"
  = IndexMjs.pathWithoutVersion "/v4.0.0/libpod/containers/create".
Proof.
  by apply (normalized_agrees_with_pathWithoutVersion
              "/v4.0.0/libpod/containers/create").
Defined.

(** The converse fails: the unescaped dot of the Go expression also takes a
    slash, or a digit. *)
Example normalized_unescaped_dot :
  Spec.normalized "/v1/2/containers/create" = "/containers/create"
  /\ IndexMjs.pathWithoutVersion "/v1/2/containers/create"
     = "/v1/2/containers/create"
  /\ Spec.normalized "/v123/containers/create" = "/containers/create".
Proof. repeat split; vm_compute; reflexivity. Qed.

(** ** The distribution name in the Node service (index.mjs
    [getWslDistroName]) *)

Lemma append_nil_r (s : string) : s +:+ EmptyString = s.
Proof. induction s as [|c s IH]; [done|]. by rewrite append_cons, IH. Qed.

Lemma filter_Split_slashes (lead s : string) :
  Spec.only_bytes "/" lead = true ->
  IndexMjs.filter_Boolean (Strings.Split (lead +:+ s) "/")
  = IndexMjs.filter_Boolean (Strings.Split s "/").
Proof.
  induction lead as [|c lead IH]; intros H; [done|].
  cbn [Spec.only_bytes] in H. apply andb_true_iff in H as [Hc H].
  rewrite IndexByte_one in Hc. apply Ascii.eqb_eq in Hc as ->.
  rewrite append_cons, Split_cons, Ascii.eqb_refl.
  unfold IndexMjs.filter_Boolean. rewrite filter_cons_False by (by intros ?).
  by apply IH.
Qed.

Lemma filter_Split_only_slashes (t : string) :
  Spec.only_bytes "/" t = true ->
  IndexMjs.filter_Boolean (Strings.Split t "/") = [].
Proof.
  intros H. rewrite <- (append_nil_r t), filter_Split_slashes by done.
  reflexivity.
Qed.

Lemma filter_Split_name (name trail : string) :
  name ≠ EmptyString ->
  Spec.free_of "/" name = true ->
  Spec.only_bytes "/" trail = true ->
  IndexMjs.filter_Boolean (Strings.Split (name +:+ trail) "/") = [name].
Proof.
  intros Hne Hfree Htrail. destruct trail as [|c trail].
  - rewrite append_nil_r, free_of_Split by done.
    unfold IndexMjs.filter_Boolean. by rewrite filter_cons_True.
  - cbn [Spec.only_bytes] in Htrail. apply andb_true_iff in Htrail as [Hc Ht].
    rewrite IndexByte_one in Hc. apply Ascii.eqb_eq in Hc as ->.
    rewrite Split_app, free_of_Split by done.
    unfold IndexMjs.filter_Boolean. rewrite filter_app, filter_cons_True by done.
    fold (IndexMjs.filter_Boolean (Strings.Split trail "/")).
    by rewrite filter_Split_only_slashes.
Qed.

Section NodeDistroFacts.

Variable execFileSync : string -> list string -> string + IndexMjs.exception.
Variable trim : string -> string.

(** X21.  When WSL_DISTRO_NAME is not set, or empty, and the trimmed output
    of [wslpath -am /] is two names with slashes before, between (one at
    least) and after them, the second name is returned: for
    //wsl.localhost/Ubuntu it is Ubuntu. *)
Theorem Node_distro_name_parsed
    (env : option string) (out lead host mid distro trail : string) :
  env = None \/ env = Some EmptyString ->
  execFileSync "wslpath" ["-am"; "/"] = inl out ->
  trim out = lead +:+ host +:+ String "/" (mid +:+ distro +:+ trail) ->
  Spec.only_bytes "/" lead = true ->
  Spec.only_bytes "/" mid = true ->
  Spec.only_bytes "/" trail = true ->
  host ≠ EmptyString -> Spec.free_of "/" host = true ->
  distro ≠ EmptyString -> Spec.free_of "/" distro = true ->
  IndexMjs.getWslDistroName env execFileSync trim = IndexMjs.Returns distro.
Proof.
  intros Henv Hout Htrim Hlead Hmid Htrail Hh Hfh Hd Hfd.
  assert (IndexMjs.filter_Boolean (Strings.Split (trim out) "/")
          = [host; distro]) as Hparts.
  { rewrite Htrim, filter_Split_slashes, Split_app, free_of_Split by done.
    unfold IndexMjs.filter_Boolean.
    rewrite filter_app, filter_cons_True by done.
    fold (IndexMjs.filter_Boolean
            (Strings.Split (mid +:+ distro +:+ trail) "/")).
    by rewrite filter_Split_slashes, filter_Split_name. }
  unfold IndexMjs.getWslDistroName. rewrite Hout, Hparts.
  by destruct Henv as [-> | ->].
Qed.

End NodeDistroFacts.

Lemma Node_distro_name_parsed_witness :
  IndexMjs.getWslDistroName None
    (fun _ _ => inl ("//wsl.localhost/Ubuntu" +:+ String "010" EmptyString))
    Sample.trim
  = IndexMjs.Returns "Ubuntu".
Proof.
  apply (Node_distro_name_parsed
           (fun _ _ => inl ("//wsl.localhost/Ubuntu" +:+ String "010" EmptyString))
           Sample.trim None
           ("//wsl.localhost/Ubuntu" +:+ String "010" EmptyString)
           "//" "wsl.localhost" "" "Ubuntu" "");
    try reflexivity; [by left | discriminate | discriminate].
Defined.
